(** * Urho3D/rbfx tetrahedral mesh: point location and interpolation

    A shallow embedding of [Source/Urho3D/Math/TetrahedralMesh.h].

    The C++ code computes on [float] and [double].  Every function below is
    written once, over an abstract scalar interface, and is then read at two
    instances:

    - IEEE 754 binary32 / binary64 with round-to-nearest-even, built on the
      executable specification [SpecFloat] of the standard library: this is
      the arithmetic the compiled code performs, NaN and signed zeros
      included;
    - the real numbers, for the statements that are about exact arithmetic
      (barycentric weights summing to one and reproducing the position, the
      roots of the quadratic and of the cubic, the orientation of a
      normalised triangle).

    [unsigned] is modelled by [N]; where a wider value is narrowed to
    [unsigned] (the size of the tetrahedron array, a distance between
    iterators) it is reduced modulo 2^32.  Indexing a vector outside its
    bounds is undefined behaviour in C++; here it is the explicit outcome
    [OutOfBounds].  An in/out parameter is an argument and a component of
    the result. *)

From Stdlib Require Import ZArith NArith List Bool Lia Permutation.
From Stdlib Require Import Reals Lra Psatz.
From Stdlib Require Import Floats.SpecFloat.
Import ListNotations.

(* ================================================================= *)
(** * Scalars *)

(** Arithmetic used by the mesh code on one floating type. *)
Class Scalar (F : Type) : Type := {
  lit : Z -> Z -> F;        (* the literal [m * 2^e] *)
  add : F -> F -> F;
  sub : F -> F -> F;
  mul : F -> F -> F;
  div : F -> F -> F;
  neg : F -> F;
  fabs : F -> F;            (* std::abs *)
  fsqrt : F -> F;           (* std::sqrt *)
  eqb : F -> F -> bool;     (* operator== *)
  ltb : F -> F -> bool;     (* operator< *)
  leb : F -> F -> bool      (* operator<= *)
}.

(** Conversions between [float] ([F]) and [double] ([D]). *)
Class Casts (F D : Type) : Type := {
  widen : F -> D;           (* implicit float -> double promotion *)
  narrow : D -> F           (* static_cast<float> *)
}.

(** The functions of <cmath> that [SolveCubicEquation] calls on doubles.
    They belong to the C library, not to this repository. *)
Class Cmath (D : Type) : Type := {
  acos : D -> D;
  cos : D -> D;
  cbrt : D -> D;
  M_PI : D
}.

(** Modelled from the spec: [MathDefs.h] is not among the sources.  The two
    tolerances are named in section 9 of the specification ("a tight epsilon
    (about 1e-6) ... and a looser epsilon_large (about 1e-4)"); the code only
    refers to them by name. *)
Class MathDefs (F : Type) : Type := {
  M_EPSILON : F;
  M_LARGE_EPSILON : F
}.

Declare Scope fl_scope.
Delimit Scope fl_scope with fl.
Notation "x + y" := (add x y) : fl_scope.
Notation "x - y" := (sub x y) : fl_scope.
Notation "x * y" := (mul x y) : fl_scope.
Notation "x / y" := (div x y) : fl_scope.
Notation "- x" := (neg x) : fl_scope.
Notation "x =? y" := (eqb x y) : fl_scope.
Notation "x <? y" := (ltb x y) : fl_scope.
Notation "x >? y" := (ltb y x) : fl_scope.
Notation "x <=? y" := (leb x y) : fl_scope.
Notation "x >=? y" := (leb y x) : fl_scope.

(** Integer-valued literal, e.g. [0.0f], [1.0f], or an [int] promoted to a
    floating type. *)
Definition num {F} `{Scalar F} (n : Z) : F := lit n 0.

(** [ea::max(a, b)] of EASTL: [a < b ? b : a]. *)
Definition ea_max {F} `{Scalar F} (a b : F) : F :=
  if (a <? b)%fl then b else a.

(* ----------------------------------------------------------------- *)
(** ** IEEE 754 binary formats *)

(** A value of the binary format with [prec] bits of precision and maximal
    exponent [emax].  The two indices keep [float] and [double] apart. *)
Record ieee (prec emax : Z) : Set := IEEE { repr : spec_float }.
Arguments IEEE {prec emax} repr.
Arguments repr {prec emax} _.

Definition float : Set := ieee 24 128.
Definition double : Set := ieee 53 1024.

Section IeeeOps.
Variables prec emax : Z.

Definition ieee1 (op : spec_float -> spec_float) (x : ieee prec emax)
  : ieee prec emax := IEEE (op (repr x)).

Definition ieee2 (op : spec_float -> spec_float -> spec_float)
  (x y : ieee prec emax) : ieee prec emax := IEEE (op (repr x) (repr y)).

Definition ieee_cmp (op : spec_float -> spec_float -> bool)
  (x y : ieee prec emax) : bool := op (repr x) (repr y).

Definition ieee_lit (m e : Z) : ieee prec emax :=
  IEEE (binary_normalize prec emax m e false).

(** Rounding of a value of another binary format into this one. *)
Definition ieee_round (x : spec_float) : ieee prec emax :=
  IEEE match x with
       | S754_finite s m e => binary_round prec emax s m e
       | _ => x
       end.
End IeeeOps.
Arguments ieee1 {prec emax} op x.
Arguments ieee2 {prec emax} op x y.
Arguments ieee_cmp {prec emax} op x y.

#[export] Instance ieee_Scalar (prec emax : Z) : Scalar (ieee prec emax) := {|
  lit := ieee_lit prec emax;
  add := ieee2 (SFadd prec emax);
  sub := ieee2 (SFsub prec emax);
  mul := ieee2 (SFmul prec emax);
  div := ieee2 (SFdiv prec emax);
  neg := ieee1 SFopp;
  fabs := ieee1 SFabs;
  fsqrt := ieee1 (SFsqrt prec emax);
  eqb := ieee_cmp SFeqb;
  ltb := ieee_cmp SFltb;
  leb := ieee_cmp SFleb
|}.

#[export] Instance float_Scalar : Scalar float := ieee_Scalar 24 128.
#[export] Instance double_Scalar : Scalar double := ieee_Scalar 53 1024.

#[export] Instance ieee_Casts : Casts float double := {|
  widen x := ieee_round 53 1024 (repr x);
  narrow x := ieee_round 24 128 (repr x)
|}.

(** <cmath> on doubles, given the three library functions.  [M_PI] is the
    double nearest to pi, 0x400921FB54442D18. *)
Definition ieee_Cmath (acos_d cos_d cbrt_d : double -> double) : Cmath double := {|
  acos := acos_d;
  cos := cos_d;
  cbrt := cbrt_d;
  M_PI := lit 7074237752028440 (-51)
|}.

(** Modelled from the spec: the tolerances of section 9, as the floats
    nearest to 1e-6 and 1e-4. *)
Definition spec_MathDefs32 : MathDefs float := {|
  M_EPSILON := (num 1 / num 1000000)%fl;
  M_LARGE_EPSILON := (num 1 / num 10000)%fl
|}.

(** Not a number: no value compares below, equal to or above it. *)
Definition is_nan {prec emax} (x : ieee prec emax) : bool :=
  match repr x with S754_nan => true | _ => false end.

(* ----------------------------------------------------------------- *)
(** ** Exact arithmetic *)

Definition Reqb (x y : R) : bool := if Req_dec_T x y then true else false.
Definition Rltb (x y : R) : bool := if Rlt_dec x y then true else false.
Definition Rleb (x y : R) : bool := if Rle_dec x y then true else false.

(** Real cube root, odd in its argument. *)
Definition Rcbrt (x : R) : R :=
  if Rlt_dec 0 x then Rpower x (/ 3)
  else if Rlt_dec x 0 then (- Rpower (- x) (/ 3))%R
  else 0%R.

#[export] Instance R_Scalar : Scalar R := {|
  lit m e := (IZR m * powerRZ 2 e)%R;
  add := Rplus;
  sub := Rminus;
  mul := Rmult;
  div := Rdiv;
  neg := Ropp;
  fabs := Rabs;
  fsqrt := sqrt;
  eqb := Reqb;
  ltb := Rltb;
  leb := Rleb
|}.

#[export] Instance R_Casts : Casts R R := {| widen x := x; narrow x := x |}.

(** <cmath> on the reals: the exact functions, and the given value of the
    constant [M_PI]. *)
Definition R_Cmath_with (M_PI_value : R) : Cmath R := {|
  acos := Ratan.acos;
  cos := Rtrigo_def.cos;
  cbrt := Rcbrt;
  M_PI := M_PI_value
|}.

(** In the code [M_PI] is a floating-point constant, so it is not pi.  Here
    it is the double of [ieee_Cmath], read exactly. *)
#[export] Instance R_Cmath : Cmath R :=
  R_Cmath_with (lit 7074237752028440 (-51)).

(** The real number that a floating-point datum stands for: the exact value
    of a finite one, and 0 for a zero (and, for want of a number, for
    infinities and NaN). *)
Definition SF_value (x : spec_float) : R :=
  match x with
  | S754_finite s m e =>
      let n := IZR (if s then Zneg m else Zpos m) in
      if (0 <=? e)%Z then (n * IZR (2 ^ e))%R else (n / IZR (2 ^ (- e)))%R
  | _ => 0%R
  end.

Definition ieee_value {prec emax : Z} (x : ieee prec emax) : R :=
  SF_value (repr x).

(** Modelled from the spec: the tolerances of section 9, exactly. *)
Definition spec_MathDefsR : MathDefs R := {|
  M_EPSILON := (/ 1000000)%R;
  M_LARGE_EPSILON := (/ 10000)%R
|}.

(* ================================================================= *)
(** * Outcomes, arrays and vectors of the runtime *)

(** Result of a computation that indexes vectors: a value, or an access past
    the end of a vector. *)
Inductive outcome (A : Type) : Type :=
| Done (a : A)
| OutOfBounds.
Arguments Done {A} a.
Arguments OutOfBounds {A}.

Definition bind {A B} (c : outcome A) (k : A -> outcome B) : outcome B :=
  match c with
  | Done a => k a
  | OutOfBounds => OutOfBounds
  end.

Notation "x <- c ;; k" := (bind c (fun x => k))
  (at level 61, c at next level, right associativity).
Notation "' p <- c ;; k" := (bind c (fun x => let 'p := x in k))
  (at level 61, p pattern, c at next level, right associativity).

(** [unsigned]: 32 bits. *)
Definition to_unsigned (n : N) : N := (n mod 2 ^ 32)%N.

(** Modelled from the spec: [M_MAX_UNSIGNED] of [MathDefs.h], "the maximum
    unsigned" of section 6, the sentinel for "no neighbor". *)
Definition M_MAX_UNSIGNED : N := 4294967295%N.

(** [ea::vector<T>::size()]. *)
Definition size {A} (v : list A) : N := N.of_nat (length v).

(** [ea::vector<T>::operator[]]. *)
Definition at_ {A} (v : list A) (i : N) : outcome A :=
  if (i <? size v)%N then
    match nth_error v (N.to_nat i) with
    | Some a => Done a
    | None => OutOfBounds
    end
  else OutOfBounds.

(** [T a[3]] and [T a[4]]. *)
Record array3 (A : Type) : Type := Array3 { a3_0 : A; a3_1 : A; a3_2 : A }.
Record array4 (A : Type) : Type :=
  Array4 { a4_0 : A; a4_1 : A; a4_2 : A; a4_3 : A }.
Arguments Array3 {A} _ _ _.
Arguments a3_0 {A} _.
Arguments a3_1 {A} _.
Arguments a3_2 {A} _.
Arguments Array4 {A} _ _ _ _.
Arguments a4_0 {A} _.
Arguments a4_1 {A} _.
Arguments a4_2 {A} _.
Arguments a4_3 {A} _.

Definition get3 {A} (a : array3 A) (i : nat) : A :=
  match i with
  | 0 => a3_0 a
  | 1 => a3_1 a
  | _ => a3_2 a
  end.

Definition get4 {A} (a : array4 A) (i : nat) : A :=
  match i with
  | 0 => a4_0 a
  | 1 => a4_1 a
  | 2 => a4_2 a
  | _ => a4_3 a
  end.

(** [T a[2]]. *)
Record array2 (A : Type) : Type := Array2 { a2_0 : A; a2_1 : A }.
Arguments Array2 {A} _ _.
Arguments a2_0 {A} _.
Arguments a2_1 {A} _.

(** [a[i]] for a run-time index [i] into [T a[3]] or [T a[4]]: reading past
    the last element is undefined in C++. *)
Definition array3_at {A} (a : array3 A) (i : N) : outcome A :=
  if (i <? 3)%N then Done (get3 a (N.to_nat i)) else OutOfBounds.

Definition array4_at {A} (a : array4 A) (i : N) : outcome A :=
  if (i <? 4)%N then Done (get4 a (N.to_nat i)) else OutOfBounds.

(** [a[j] = v] on [T a[3]]. *)
Definition array3_set {A} (a : array3 A) (j : N) (v : A)
  : outcome (array3 A) :=
  if (j =? 0)%N then Done (Array3 v (a3_1 a) (a3_2 a))
  else if (j =? 1)%N then Done (Array3 (a3_0 a) v (a3_2 a))
  else if (j =? 2)%N then Done (Array3 (a3_0 a) (a3_1 a) v)
  else OutOfBounds.

(** [for (i : l) s = body(s, i)], stopping at the first access out of
    bounds. *)
Fixpoint fold_outcome {A S : Type} (body : S -> A -> outcome S) (l : list A)
  (s : S) : outcome S :=
  match l with
  | [] => Done s
  | i :: l' => s' <- body s i ;; fold_outcome body l' s'
  end.

(* ================================================================= *)
(** * Single-precision vectors and matrices *)

(** [Vector3.h], [Vector4.h] and [Matrix3x4.h] are not among the sources.
    Section 6 of the specification limits them to "the minimal operations
    named"; the definitions of this part are modelled from it, with the
    formulas of the double-precision twins in [HighPrecisionVector3] for the
    dot and cross product. *)
Module Vector3.

(** Modelled from the spec: the vertex of section 3, "a point in 3-space
    (single precision)", with Urho3D's field names. *)
Record t (F : Type) : Type := make { x_ : F; y_ : F; z_ : F }.
Arguments make {F} x_ y_ z_.
Arguments x_ {F} _.
Arguments y_ {F} _.
Arguments z_ {F} _.

Section Ops.
Context {F : Type} `{Scalar F}.
Local Open Scope fl_scope.

(** Modelled from the spec: [operator+], component-wise sum. *)
Definition plus (a b : t F) : t F :=
  make (x_ a + x_ b) (y_ a + y_ b) (z_ a + z_ b).

(** Modelled from the spec: [operator-], component-wise difference. *)
Definition minus (a b : t F) : t F :=
  make (x_ a - x_ b) (y_ a - y_ b) (z_ a - z_ b).

(** Modelled from the spec: [operator*(float lhs, const Vector3& rhs)],
    scaling of every component of [rhs] by [lhs]. *)
Definition scale (lhs : F) (rhs : t F) : t F :=
  make (x_ rhs * lhs) (y_ rhs * lhs) (z_ rhs * lhs).

(** Modelled from the spec: dot product. *)
Definition DotProduct (a b : t F) : F :=
  x_ a * x_ b + y_ a * y_ b + z_ a * z_ b.

(** Modelled from the spec: cross product. *)
Definition CrossProduct (a b : t F) : t F :=
  make (y_ a * z_ b - z_ a * y_ b)
       (z_ a * x_ b - x_ a * z_ b)
       (x_ a * y_ b - y_ a * x_ b).

(** Modelled from the spec: [operator*(float rhs)], scaling of every
    component by [rhs]. *)
Definition times (a : t F) (rhs : F) : t F :=
  make (x_ a * rhs) (y_ a * rhs) (z_ a * rhs).

(** Modelled from the spec: [Length()], the square root of the dot product
    of the vector with itself. *)
Definition Length (a : t F) : F := fsqrt (DotProduct a a).
End Ops.
End Vector3.

Module Vector4.

(** Modelled from the spec: the "4-vector of weights" of section 6. *)
Record t (F : Type) : Type := make { x_ : F; y_ : F; z_ : F; w_ : F }.
Arguments make {F} x_ y_ z_ w_.
Arguments x_ {F} _.
Arguments y_ {F} _.
Arguments z_ {F} _.
Arguments w_ {F} _.

Section Ops.
Context {F : Type} `{Scalar F}.

(** Modelled from the spec: [Vector4::ZERO], "the zero 4-vector" of
    section 7. *)
Definition ZERO : t F := make (num 0) (num 0) (num 0) (num 0).

(** Modelled from the spec: [Vector4(const Vector3&, float)], the three
    components followed by the fourth. *)
Definition of_Vector3 (v : Vector3.t F) (w : F) : t F :=
  make (Vector3.x_ v) (Vector3.y_ v) (Vector3.z_ v) w.

(** Modelled from the spec: [operator[](unsigned)], component [i]. *)
Definition get (v : t F) (i : nat) : F :=
  match i with
  | 0 => x_ v
  | 1 => y_ v
  | 2 => z_ v
  | _ => w_ v
  end.
End Ops.
End Vector4.

Module Matrix3x4.

(** Modelled from the spec: the matrix of section 3, "3x3 ... stored as 3x4
    with a ... translation column", row by row. *)
Record t (F : Type) : Type := make {
  m00_ : F; m01_ : F; m02_ : F; m03_ : F;
  m10_ : F; m11_ : F; m12_ : F; m13_ : F;
  m20_ : F; m21_ : F; m22_ : F; m23_ : F
}.
Arguments make {F}.
Arguments m00_ {F} _.
Arguments m01_ {F} _.
Arguments m02_ {F} _.
Arguments m03_ {F} _.
Arguments m10_ {F} _.
Arguments m11_ {F} _.
Arguments m12_ {F} _.
Arguments m13_ {F} _.
Arguments m20_ {F} _.
Arguments m21_ {F} _.
Arguments m22_ {F} _.
Arguments m23_ {F} _.

Section Ops.
Context {F : Type} `{Scalar F}.
Local Open Scope fl_scope.

(** Modelled from the spec: [operator*(const Vector3&)], the 3x3 part times
    the point, plus the translation column. *)
Definition apply (m : t F) (v : Vector3.t F) : Vector3.t F :=
  let x := Vector3.x_ v in
  let y := Vector3.y_ v in
  let z := Vector3.z_ v in
  Vector3.make
    (m00_ m * x + m01_ m * y + m02_ m * z + m03_ m)
    (m10_ m * x + m11_ m * y + m12_ m * z + m13_ m)
    (m20_ m * x + m21_ m * y + m22_ m * z + m23_ m).
End Ops.
End Matrix3x4.

Module Matrix3.

(** Modelled from the spec: [Matrix3.h] is not among the sources.  The 3x3
    matrix of section 4.C, row by row, constructed from its nine entries in
    that order. *)
Record t (F : Type) : Type := make {
  m00_ : F; m01_ : F; m02_ : F;
  m10_ : F; m11_ : F; m12_ : F;
  m20_ : F; m21_ : F; m22_ : F
}.
Arguments make {F}.
Arguments m00_ {F} _.
Arguments m01_ {F} _.
Arguments m02_ {F} _.
Arguments m10_ {F} _.
Arguments m11_ {F} _.
Arguments m12_ {F} _.
Arguments m20_ {F} _.
Arguments m21_ {F} _.
Arguments m22_ {F} _.

Section Ops.
Context {F : Type} `{Scalar F}.
Local Open Scope fl_scope.

(** Modelled from the spec: the determinant, expanded over the six
    permutations. *)
Definition Determinant (m : t F) : F :=
  m00_ m * m11_ m * m22_ m + m10_ m * m21_ m * m02_ m
  + m20_ m * m01_ m * m12_ m - m20_ m * m11_ m * m02_ m
  - m10_ m * m01_ m * m22_ m - m00_ m * m21_ m * m12_ m.

(** Modelled from the spec: [Inverse()], "the inverse of the 3x3" of section
    4.C, as the adjugate times the reciprocal of the determinant. *)
Definition Inverse (m : t F) : t F :=
  let invDet := num 1 / Determinant m in
  make ((m11_ m * m22_ m - m21_ m * m12_ m) * invDet)
       (- (m01_ m * m22_ m - m21_ m * m02_ m) * invDet)
       ((m01_ m * m12_ m - m11_ m * m02_ m) * invDet)
       (- (m10_ m * m22_ m - m20_ m * m12_ m) * invDet)
       ((m00_ m * m22_ m - m20_ m * m02_ m) * invDet)
       (- (m00_ m * m12_ m - m10_ m * m02_ m) * invDet)
       ((m10_ m * m21_ m - m20_ m * m11_ m) * invDet)
       (- (m00_ m * m21_ m - m20_ m * m01_ m) * invDet)
       ((m00_ m * m11_ m - m10_ m * m01_ m) * invDet).

(** Modelled from the spec: [Matrix3x4(const Matrix3&)], the 3x3 "stored as
    3x4 with a zero translation column" of section 3. *)
Definition to_Matrix3x4 (m : t F) : Matrix3x4.t F :=
  Matrix3x4.make (m00_ m) (m01_ m) (m02_ m) (num 0)
                 (m10_ m) (m11_ m) (m12_ m) (num 0)
                 (m20_ m) (m21_ m) (m22_ m) (num 0).
End Ops.
End Matrix3.

(* ================================================================= *)
(** * High-precision geometry primitives *)

Module HighPrecisionVector3.
Record t (D : Type) : Type := make { data_ : array3 D }.
Arguments make {D} data_.
Arguments data_ {D} _.

Section Ops.
Context {F D : Type} `{Scalar D} `{Casts F D}.
Local Open Scope fl_scope.

(** [explicit HighPrecisionVector3(const Vector3& vec)]. *)
Definition of_Vector3 (vec : Vector3.t F) : t D :=
  make (Array3 (widen (Vector3.x_ vec))
               (widen (Vector3.y_ vec))
               (widen (Vector3.z_ vec))).

(** [explicit operator Vector3() const]. *)
Definition to_Vector3 (v : t D) : Vector3.t F :=
  Vector3.make (narrow (get3 (data_ v) 0))
               (narrow (get3 (data_ v) 1))
               (narrow (get3 (data_ v) 2)).

(** The body of [for (unsigned i = 0; i < 3; ++i) result += ...],
    starting from [double result{}]. *)
Definition DotProduct (a rhs : t D) : D :=
  fold_left (fun result i => result + get3 (data_ a) i * get3 (data_ rhs) i)
            [0; 1; 2]%nat (num 0).

Definition CrossProduct (a rhs : t D) : t D :=
  let d := get3 (data_ a) in
  let r := get3 (data_ rhs) in
  make (Array3 (d 1%nat * r 2%nat - d 2%nat * r 1%nat)
               (d 2%nat * r 0%nat - d 0%nat * r 2%nat)
               (d 0%nat * r 1%nat - d 1%nat * r 0%nat)).

Definition LengthSquared (a : t D) : D := DotProduct a a.

Definition plus (a rhs : t D) : t D :=
  make (Array3 (get3 (data_ a) 0 + get3 (data_ rhs) 0)
               (get3 (data_ a) 1 + get3 (data_ rhs) 1)
               (get3 (data_ a) 2 + get3 (data_ rhs) 2)).

Definition minus (a rhs : t D) : t D :=
  make (Array3 (get3 (data_ a) 0 - get3 (data_ rhs) 0)
               (get3 (data_ a) 1 - get3 (data_ rhs) 1)
               (get3 (data_ a) 2 - get3 (data_ rhs) 2)).

Definition scale (a : t D) (rhs : D) : t D :=
  make (Array3 (get3 (data_ a) 0 * rhs)
               (get3 (data_ a) 1 * rhs)
               (get3 (data_ a) 2 * rhs)).
End Ops.
End HighPrecisionVector3.

Module HighPrecisionSphere.
Record t (D : Type) : Type := make {
  center_ : HighPrecisionVector3.t D;
  radius_ : D
}.
Arguments make {D} center_ radius_.
Arguments center_ {D} _.
Arguments radius_ {D} _.

Section Ops.
Context {F D : Type} `{Scalar D} `{Casts F D}.
Local Open Scope fl_scope.

(** Signed distance from [position] to the sphere.  [Sqrt] of
    [MathDefs.h] is [sqrt] of the argument's type. *)
Definition Distance (s : t D) (position : Vector3.t F) : D :=
  let doublePosition := HighPrecisionVector3.of_Vector3 position in
  let distSquared :=
    HighPrecisionVector3.LengthSquared
      (HighPrecisionVector3.minus doublePosition (center_ s)) in
  fsqrt distSquared - radius_ s.
End Ops.
End HighPrecisionSphere.


(* ================================================================= *)
(** * Surface triangles *)

Module TetrahedralMeshSurfaceTriangle.

(** Surface triangle of tetrahedral mesh with adjacency information. *)
Record t : Type := make {
  indices_ : array3 N;      (* indices of triangle vertices *)
  unusedIndex_ : N;         (* 4th vertex of the underlying tetrahedron *)
  neighbors_ : array3 N;    (* indices of neighbor triangles *)
  tetIndex_ : N;            (* underlying tetrahedron *)
  tetFace_ : N              (* face of the underlying tetrahedron, 0..3 *)
}.

(** [ea::swap(a[0], a[1])]. *)
Definition swap01 {A} (a : array3 A) : array3 A :=
  Array3 (a3_1 a) (a3_0 a) (a3_2 a).

(** Return edge, from 0 to 2. Returned indices are sorted. *)
Definition GetEdge (tri : t) (edgeIndex : N) : outcome (N * N) :=
  begin_ <- array3_at (indices_ tri) edgeIndex ;;
  end_ <- array3_at (indices_ tri) (to_unsigned (edgeIndex + 1) mod 3)%N ;;
  if (end_ <? begin_)%N then Done (end_, begin_) else Done (begin_, end_).

(** Return whether the triangle has given neighbour:
    [ea::count(begin, end, neighborIndex) != 0]. *)
Definition HasNeighbor (tri : t) (neighborIndex : N) : bool :=
  negb (count_occ N.eq_dec
          [a3_0 (neighbors_ tri); a3_1 (neighbors_ tri); a3_2 (neighbors_ tri)]
          neighborIndex =? 0)%nat.

Section Ops.
Context {F : Type} `{Scalar F}.
Local Open Scope fl_scope.

(** The scalar that [Normalize] tests:
    [outsideDirection.DotProduct(actualNormal)]. *)
Definition orientation (p0 p1 p2 p3 : Vector3.t F) : F :=
  let outsideDirection := Vector3.minus p1 p0 in
  let actualNormal :=
    Vector3.CrossProduct (Vector3.minus p2 p1) (Vector3.minus p3 p1) in
  Vector3.DotProduct outsideDirection actualNormal.

(** Normalize triangle indices so (p2 - p1) x (p3 - p1) is the normal. *)
Definition Normalize (tri : t) (vertices : list (Vector3.t F)) : outcome t :=
  p0 <- at_ vertices (unusedIndex_ tri) ;;
  p1 <- at_ vertices (get3 (indices_ tri) 0) ;;
  p2 <- at_ vertices (get3 (indices_ tri) 1) ;;
  p3 <- at_ vertices (get3 (indices_ tri) 2) ;;
  if orientation p0 p1 p2 p3 <? num 0 then
    Done (make (swap01 (indices_ tri)) (unusedIndex_ tri)
               (swap01 (neighbors_ tri)) (tetIndex_ tri) (tetFace_ tri))
  else Done tri.
End Ops.

End TetrahedralMeshSurfaceTriangle.

(* ================================================================= *)
(** * Surface edges *)

(** [static_cast<unsigned>] of a [float], as in the initialiser
    [edgeIndex_(edgeIndex)]: truncation towards zero; the conversion is
    undefined ([None]) when the truncated value is not an [unsigned]. *)
Definition float_to_unsigned (x : float) : option N :=
  match repr x with
  | S754_zero _ => Some 0%N
  | S754_finite s m e =>
      let magnitude := Z.to_N (Z.shiftl (Zpos m) e) in
      if s then (if (magnitude =? 0)%N then Some 0%N else None)
      else if (magnitude <? 2 ^ 32)%N then Some magnitude else None
  | _ => None
  end.

Module TetrahedralMeshSurfaceEdge.

(** Edge of the surface of tetrahedral mesh. *)
Record t : Type := make {
  indices_ : array2 N;      (* indices *)
  faceIndex_ : N;           (* face that owns this edge *)
  edgeIndex_ : N            (* index of the edge in triangle *)
}.

(** Construct default. *)
Definition default : t := make (Array2 0 0)%N M_MAX_UNSIGNED 0%N.

(** Construct valid. *)
Definition construct (i0 i1 faceIndex : N) (edgeIndex : float) : option t :=
  match float_to_unsigned edgeIndex with
  | Some e =>
      Some (make (if (i1 <? i0)%N then Array2 i1 i0 else Array2 i0 i1)
                 faceIndex e)
  | None => None
  end.

(** Compare for sorting. Only edges themselves are compared. *)
Definition less (a rhs : t) : bool :=
  if negb (a2_0 (indices_ a) =? a2_0 (indices_ rhs))%N
  then (a2_0 (indices_ a) <? a2_0 (indices_ rhs))%N
  else (a2_1 (indices_ a) <? a2_1 (indices_ rhs))%N.

End TetrahedralMeshSurfaceEdge.

(* ================================================================= *)
(** * Tetrahedra *)

Module Tetrahedron.

(** Special index for infinite vertex of outer tetrahedron, cubic equation. *)
Definition Infinity3 : N := M_MAX_UNSIGNED.
(** Special index for infinite vertex of outer tetrahedron, square equation. *)
Definition Infinity2 : N := (M_MAX_UNSIGNED - 1)%N.

(** Tetrahedron with adjacency information. *)
Record t (F : Type) : Type := make {
  indices_ : array4 N;          (* indices of tetrahedron vertices *)
  neighbors_ : array4 N;        (* neighbors; M_MAX_UNSIGNED if empty *)
  matrix_ : Matrix3x4.t F       (* pre-computed barycentric matrix *)
}.
Arguments make {F} indices_ neighbors_ matrix_.
Arguments indices_ {F} _.
Arguments neighbors_ {F} _.
Arguments matrix_ {F} _.

Section Ops.
Context {F : Type} `{Scalar F}.

(** Calculate matrix for valid inner tetrahedron. *)
Definition CalculateInnerMatrix (tet : t F) (vertices : list (Vector3.t F))
  : outcome (t F) :=
  p0 <- at_ vertices (get4 (indices_ tet) 0) ;;
  p1 <- at_ vertices (get4 (indices_ tet) 1) ;;
  p2 <- at_ vertices (get4 (indices_ tet) 2) ;;
  p3 <- at_ vertices (get4 (indices_ tet) 3) ;;
  let u1 := Vector3.minus p1 p0 in
  let u2 := Vector3.minus p2 p0 in
  let u3 := Vector3.minus p3 p0 in
  Done (make (indices_ tet) (neighbors_ tet)
          (Matrix3.to_Matrix3x4
             (Matrix3.Inverse
                (Matrix3.make
                   (Vector3.x_ u1) (Vector3.x_ u2) (Vector3.x_ u3)
                   (Vector3.y_ u1) (Vector3.y_ u2) (Vector3.y_ u3)
                   (Vector3.z_ u1) (Vector3.z_ u2) (Vector3.z_ u3))))).

(** Return indices of specified triangle face of the tetrahedron.  The
    array [indices] is the caller's; the loop writes [indices[j++]] for
    every slot other than [faceIndex]. *)
Definition GetTriangleFaceIndices (tet : t F) (faceIndex : N)
  (indices : array3 N) : outcome (array3 N) :=
  ' (_, indices) <-
      fold_outcome
        (fun '(j, indices) i =>
           if negb (i =? faceIndex)%N then
             indices <- array3_set indices j (get4 (indices_ tet) (N.to_nat i)) ;;
             Done (N.succ j, indices)
           else Done (j, indices))
        [0; 1; 2; 3]%N (0%N, indices) ;;
  Done indices.

(** Return triangle face of the tetrahedron.  The triangle starts out
    default-constructed. *)
Definition GetTriangleFace (tet : t F) (faceIndex tetIndex tetFace : N)
  : outcome TetrahedralMeshSurfaceTriangle.t :=
  let face :=
    TetrahedralMeshSurfaceTriangle.make (Array3 0 0 0)%N M_MAX_UNSIGNED
      (Array3 M_MAX_UNSIGNED M_MAX_UNSIGNED M_MAX_UNSIGNED)
      M_MAX_UNSIGNED 0%N in
  indices <- GetTriangleFaceIndices tet faceIndex
               (TetrahedralMeshSurfaceTriangle.indices_ face) ;;
  unusedIndex <- array4_at (indices_ tet) faceIndex ;;
  Done (TetrahedralMeshSurfaceTriangle.make indices unusedIndex
          (TetrahedralMeshSurfaceTriangle.neighbors_ face) tetIndex tetFace).

(** Return face index corresponding to given neighbor. Return 4 if not
    found: [ea::find(begin, end, neighborTetIndex) - begin]. *)
Definition GetNeighborFaceIndex (tet : t F) (neighborTetIndex : N) : N :=
  if (get4 (neighbors_ tet) 0 =? neighborTetIndex)%N then 0
  else if (get4 (neighbors_ tet) 1 =? neighborTetIndex)%N then 1
  else if (get4 (neighbors_ tet) 2 =? neighborTetIndex)%N then 2
  else if (get4 (neighbors_ tet) 3 =? neighborTetIndex)%N then 3
  else 4.

(** Return whether the tetrahedron has given neighbour. *)
Definition HasNeighbor (tet : t F) (neighborTetIndex : N) : bool :=
  (GetNeighborFaceIndex tet neighborTetIndex <? 4)%N.
End Ops.

End Tetrahedron.

(* ================================================================= *)
(** * The mesh and its queries *)

Module TetrahedralMesh.

Record t (F : Type) : Type := make {
  vertices_ : list (Vector3.t F);
  tetrahedrons_ : list (Tetrahedron.t F);
  hullNormals_ : list (Vector3.t F);
  ignoredVertices_ : list N;
  numInnerTetrahedrons_ : N
}.
Arguments make {F}.
Arguments vertices_ {F} _.
Arguments tetrahedrons_ {F} _.
Arguments hullNormals_ {F} _.
Arguments ignoredVertices_ {F} _.
Arguments numInnerTetrahedrons_ {F} _.

(** What one iteration of the point-location loop does: it either returns
    the weights, or assigns a neighbor index to the hint. *)
Inductive iteration (F : Type) : Type :=
| Located (weights : Vector4.t F)
| Stepped (tetIndexHint : N).
Arguments Located {F} weights.
Arguments Stepped {F} tetIndexHint.

(** [for (...) s = body(s, i)] over the listed indices. *)
Fixpoint for_each {A S : Type} (l : list A) (body : S -> A -> outcome S)
  (s : S) : outcome S :=
  match l with
  | [] => Done s
  | i :: l' => s' <- body s i ;; for_each l' body s'
  end.

(** What [Sample] needs of [Container::value_type]: value initialisation,
    [operator+=] and [operator*(float)]. *)
Class SampleValue (V F : Type) : Type := {
  value_init : V;
  value_add : V -> V -> V;
  value_scale : V -> F -> V
}.

(** [ea::find(removed.begin(), removed.end(), false) - removed.begin()]. *)
Fixpoint find_false (removed : list bool) : N :=
  match removed with
  | [] => 0
  | b :: rest => if b then N.succ (find_false rest) else 0
  end%N.

Section Solvers.
Context {F D : Type} {SF : Scalar F} {SD : Scalar D}.
Context {C : Casts F D} {L : Cmath D} {MD : MathDefs F}.
Local Open Scope fl_scope.

(** Solve cubic equation x^3 + a*x^2 + b*x + c = 0.  Returns the array
    [result] and the number of roots. *)
Definition SolveCubicEquation (a b c eps : D) : array3 D * nat :=
  let a2 := a * a in
  let q := (a2 - num 3 * b) / num 9 in
  let r := (a * (num 2 * a2 - num 9 * b) + num 27 * c) / num 54 in
  let r2 := r * r in
  let q3 := q * q * q in
  if r2 <=? (q3 + eps) then
    let t := r / fsqrt q3 in
    let t := if t <? num (-1) then num (-1) else t in
    let t := if t >? num 1 then num 1 else t in
    let t := acos t in
    let a := a / num 3 in
    let q := num (-2) * fsqrt q in
    (Array3 (q * cos (t / num 3) - a)
            (q * cos ((t + M_PI * num 2) / num 3) - a)
            (q * cos ((t - M_PI * num 2) / num 3) - a), 3%nat)
  else
    let A := - cbrt (fabs r + fsqrt (r2 - q3)) in
    let A := if r <? num 0 then - A else A in
    let B := if A =? num 0 then num 0 else q / A in
    let a := a / num 3 in
    let result0 := (A + B) - a in
    let result1 := lit (-1) (-1) * (A + B) - a in
    let result2 := lit 1 (-1) * fsqrt (num 3) * (A - B) in
    if fabs result2 <? eps then (Array3 result0 result1 result1, 2%nat)
    else (Array3 result0 result1 result2, 1%nat).

(** [*ea::max_element(first, last)] on a non-empty range: the first of the
    largest elements. *)
Definition max_element (first : D) (rest : list D) : D :=
  fold_left (fun currentMax x => if currentMax <? x then x else currentMax)
            rest first.

(** Calculate most positive root of cubic equation
    x^3 + a*x^2 + b*x + c = 0. *)
Definition SolveCubic (abc : Vector3.t F) : F :=
  let '(result, numRoots) :=
    SolveCubicEquation (widen (Vector3.x_ abc)) (widen (Vector3.y_ abc))
                       (widen (Vector3.z_ abc)) (widen M_EPSILON) in
  narrow (max_element (get3 result 0)
            (firstn (numRoots - 1) [get3 result 1; get3 result 2])).

(** Calculate most positive root of quadratic or linear equation
    a*x^2 + b*x + c = 0. *)
Definition SolveQuadratic (abc : Vector3.t F) : F :=
  let a := Vector3.x_ abc in
  let b := Vector3.y_ abc in
  let c := Vector3.z_ abc in
  if fabs a <? M_EPSILON then - c / b
  else
    let D := ea_max (num 0) (b * b - num 4 * a * c) in
    if a >? num 0
    then (- b + fsqrt D) / (num 2 * a)
    else (- b - fsqrt D) / (num 2 * a).

(** Calculate barycentric coordinates on triangle. *)
Definition GetTriangleBarycentricCoords (position p1 p2 p3 : Vector3.t F)
  : Vector3.t F :=
  let v12 := Vector3.minus p2 p1 in
  let v13 := Vector3.minus p3 p1 in
  let v0 := Vector3.minus position p1 in
  let d00 := Vector3.DotProduct v12 v12 in
  let d01 := Vector3.DotProduct v12 v13 in
  let d11 := Vector3.DotProduct v13 v13 in
  let d20 := Vector3.DotProduct v0 v12 in
  let d21 := Vector3.DotProduct v0 v13 in
  let denom := d00 * d11 - d01 * d01 in
  let v := (d11 * d20 - d01 * d21) / denom in
  let w := (d00 * d21 - d01 * d20) / denom in
  let u := num 1 - v - w in
  Vector3.make u v w.
End Solvers.

Section Queries.
Context {F D : Type} {SF : Scalar F} {SD : Scalar D}.
Context {C : Casts F D} {L : Cmath D} {MD : MathDefs F}.
Local Open Scope fl_scope.

(** Calculate barycentric coordinates for inner tetrahedron. *)
Definition GetInnerBarycentricCoords (m : t F) (tetIndex : N)
  (position : Vector3.t F) : outcome (Vector4.t F) :=
  tetrahedron <- at_ (tetrahedrons_ m) tetIndex ;;
  basePosition <- at_ (vertices_ m) (get4 (Tetrahedron.indices_ tetrahedron) 0) ;;
  let coords :=
    Matrix3x4.apply (Tetrahedron.matrix_ tetrahedron)
                    (Vector3.minus position basePosition) in
  Done (Vector4.make
          (num 1 - Vector3.x_ coords - Vector3.y_ coords - Vector3.z_ coords)
          (Vector3.x_ coords) (Vector3.y_ coords) (Vector3.z_ coords)).

(** The test of [GetOuterBarycentricCoords] for "position is in the inner
    cell": [normal.DotProduct(position - p1) < 0.0f]. *)
Definition inner_side (p1 p2 p3 position : Vector3.t F) : bool :=
  let normal :=
    Vector3.CrossProduct (Vector3.minus p2 p1) (Vector3.minus p3 p1) in
  Vector3.DotProduct normal (Vector3.minus position p1) <? num 0.

(** Calculate barycentric coordinates for outer tetrahedron. *)
Definition GetOuterBarycentricCoords (m : t F) (tetIndex : N)
  (position : Vector3.t F) : outcome (Vector4.t F) :=
  tetrahedron <- at_ (tetrahedrons_ m) tetIndex ;;
  let indices := Tetrahedron.indices_ tetrahedron in
  p1 <- at_ (vertices_ m) (get4 indices 0) ;;
  p2 <- at_ (vertices_ m) (get4 indices 1) ;;
  p3 <- at_ (vertices_ m) (get4 indices 2) ;;
  (* Position is in the inner cell, return fake barycentric *)
  if inner_side p1 p2 p3 position then
    Done (Vector4.make (num 0) (num 0) (num 0) (num (-1)))
  else
    let poly := Matrix3x4.apply (Tetrahedron.matrix_ tetrahedron) position in
    let t := if (get4 indices 3 =? Tetrahedron.Infinity3)%N
             then SolveCubic poly else SolveQuadratic poly in
    n1 <- at_ (hullNormals_ m) (get4 indices 0) ;;
    let t1 := Vector3.plus p1 (Vector3.scale t n1) in
    n2 <- at_ (hullNormals_ m) (get4 indices 1) ;;
    let t2 := Vector3.plus p2 (Vector3.scale t n2) in
    n3 <- at_ (hullNormals_ m) (get4 indices 2) ;;
    let t3 := Vector3.plus p3 (Vector3.scale t n3) in
    let coords := GetTriangleBarycentricCoords position t1 t2 t3 in
    Done (Vector4.of_Vector3 coords (num 0)).

(** Calculate barycentric coordinates for tetrahedron. *)
Definition GetBarycentricCoords (m : t F) (tetIndex : N)
  (position : Vector3.t F) : outcome (Vector4.t F) :=
  if (tetIndex <? numInnerTetrahedrons_ m)%N
  then GetInnerBarycentricCoords m tetIndex position
  else GetOuterBarycentricCoords m tetIndex position.

(** [weights.x_ >= 0.0f && weights.y_ >= 0.0f && weights.z_ >= 0.0f &&
    weights.w_ >= 0.0f]. *)
Definition all_non_negative (weights : Vector4.t F) : bool :=
  (Vector4.x_ weights >=? num 0) && (Vector4.y_ weights >=? num 0)
  && (Vector4.z_ weights >=? num 0) && (Vector4.w_ weights >=? num 0).

(** The [if / else if / else] cascade shared by [GetInterpolationFactors]
    and [FindTetrahedron]: the slot of [neighbors_] that is read. *)
Definition chosen_slot (weights : Vector4.t F) : nat :=
  let x := Vector4.x_ weights in
  let y := Vector4.y_ weights in
  let z := Vector4.z_ weights in
  let w := Vector4.w_ weights in
  if (x <? y) && (x <? z) && (x <? w) then 0
  else if (y <? z) && (y <? w) then 1
  else if z <? w then 2
  else 3.

(** [tetrahedrons_[tetIndex].neighbors_[slot]] for the slot of the cascade. *)
Definition neighbor_across (m : t F) (tetIndex : N) (weights : Vector4.t F)
  : outcome N :=
  tetrahedron <- at_ (tetrahedrons_ m) tetIndex ;;
  Done (get4 (Tetrahedron.neighbors_ tetrahedron) (chosen_slot weights)).

(** Body of the loop of [GetInterpolationFactors]. *)
Definition walk_iteration (m : t F) (position : Vector3.t F)
  (tetIndexHint : N) : outcome (iteration F) :=
  weights <- GetBarycentricCoords m tetIndexHint position ;;
  if all_non_negative weights then Done (Located weights)
  else
    next <- neighbor_across m tetIndexHint weights ;;
    Done (Stepped next).

(** The loop of [GetInterpolationFactors] with [iters] iterations left, and
    the [return] after it.  [steps] is ghost state: the number of
    assignments to the hint made so far. *)
Fixpoint walk (m : t F) (position : Vector3.t F) (iters : nat)
  (tetIndexHint : N) (steps : nat) : outcome (Vector4.t F * N * nat) :=
  match iters with
  | O =>
      weights <- GetBarycentricCoords m tetIndexHint position ;;
      Done (weights, tetIndexHint, steps)
  | S iters' =>
      r <- walk_iteration m position tetIndexHint ;;
      match r with
      | Located weights => Done (weights, tetIndexHint, steps)
      | Stepped next => walk m position iters' next (S steps)
      end
  end.

(** Find tetrahedron containing given position and calculate barycentric
    coordinates within this tetrahedron.  The result carries the weights,
    the final value of the in/out parameter [tetIndexHint], and the ghost
    count of neighbor steps. *)
Definition GetInterpolationFactors_counted (m : t F) (position : Vector3.t F)
  (tetIndexHint : N) : outcome (Vector4.t F * N * nat) :=
  match tetrahedrons_ m with
  | [] => Done (Vector4.ZERO, tetIndexHint, 0%nat)
  | _ :: _ =>
      let maxIters := to_unsigned (size (tetrahedrons_ m)) in
      let tetIndexHint :=
        if (maxIters <=? tetIndexHint)%N then 0%N else tetIndexHint in
      walk m position (N.to_nat maxIters) tetIndexHint 0
  end.

Definition GetInterpolationFactors (m : t F) (position : Vector3.t F)
  (tetIndexHint : N) : outcome (Vector4.t F * N) :=
  ' (weights, tetIndexHint', _) <-
      GetInterpolationFactors_counted m position tetIndexHint ;;
  Done (weights, tetIndexHint').

(** Sample value at given position from the arbitrary container of
    per-vertex data.  Returns the value and the final hint. *)
Definition Sample {V : Type} `{SampleValue V F} (m : t F) (container : list V)
  (position : Vector3.t F) (tetIndexHint : N) : outcome (V * N) :=
  let result := value_init in
  ' (weights, tetIndexHint) <- GetInterpolationFactors m position tetIndexHint ;;
  if (tetIndexHint <? size (tetrahedrons_ m))%N then
    tetrahedron <- at_ (tetrahedrons_ m) tetIndexHint ;;
    result <- for_each [0; 1; 2]%nat
                (fun result i =>
                   c <- at_ container (get4 (Tetrahedron.indices_ tetrahedron) i) ;;
                   Done (value_add result (value_scale c (Vector4.get weights i))))
                result ;;
    if (tetIndexHint <? numInnerTetrahedrons_ m)%N then
      c <- at_ container (get4 (Tetrahedron.indices_ tetrahedron) 3) ;;
      Done (value_add result (value_scale c (Vector4.get weights 3)), tetIndexHint)
    else Done (result, tetIndexHint)
  else Done (result, tetIndexHint).

(** The loop of [FindTetrahedron] with [iters] iterations left. *)
Fixpoint find_walk (m : t F) (position : Vector3.t F) (iters : nat)
  (tetIndex : N) : outcome N :=
  match iters with
  | O => Done tetIndex
  | S iters' =>
      weights <- GetInnerBarycentricCoords m tetIndex position ;;
      (* Found one *)
      if all_non_negative weights then Done tetIndex
      else
        next <- neighbor_across m tetIndex weights ;;
        (* Failed to find one *)
        if (next =? M_MAX_UNSIGNED)%N then Done next
        else find_walk m position iters' next
  end.

(** Find tetrahedron for given position. Ignore removed tetrahedrons.
    Return invalid index if cannot find. *)
Definition FindTetrahedron (m : t F) (position : Vector3.t F)
  (removed : list bool) : outcome N :=
  let firstNotRemoved := find_false removed in
  if (firstNotRemoved =? size removed)%N then Done M_MAX_UNSIGNED
  else
    let maxIters := to_unsigned (size (tetrahedrons_ m)) in
    find_walk m position (N.to_nat maxIters) (to_unsigned firstNotRemoved).
End Queries.

(** Data used for Delaunay triangulation. *)
Module DelaunayContext.

Record t (D : Type) : Type := make {
  circumspheres_ : list (HighPrecisionSphere.t D);
  removed_ : list bool
}.
Arguments make {D} circumspheres_ removed_.
Arguments circumspheres_ {D} _.
Arguments removed_ {D} _.

Section Ops.
Context {F D : Type} {SD : Scalar D} {C : Casts F D} {MD : MathDefs F}.
Local Open Scope fl_scope.

(** Tests if point is inside circumsphere of tetrahedron. *)
Definition IsInsideCircumsphere (ctx : t D) (tetIndex : N)
  (position : Vector3.t F) : outcome bool :=
  sphere <- at_ (circumspheres_ ctx) tetIndex ;;
  Done (HighPrecisionSphere.Distance sphere position <? widen M_LARGE_EPSILON).
End Ops.

End DelaunayContext.

End TetrahedralMesh.

(* ================================================================= *)
(** * Vocabulary of the statements *)

Section Vocabulary.
Context {F : Type} `{Scalar F}.
Local Open Scope fl_scope.

(** Some component of the weights is below zero. *)
Definition has_negative (weights : Vector4.t F) : bool :=
  existsb (fun j => Vector4.get weights j <? num 0) [0; 1; 2; 3]%nat.

(** Slot [k] holds a most negative component: none of the four is below it. *)
Definition is_least (weights : Vector4.t F) (k : nat) : bool :=
  forallb (fun j => Vector4.get weights k <=? Vector4.get weights j)
          [0; 1; 2; 3]%nat.

(** The lowest, and the highest, slot holding a most negative component. *)
Definition lowest_least_slot (weights : Vector4.t F) : option nat :=
  find (is_least weights) [0; 1; 2; 3]%nat.

Definition highest_least_slot (weights : Vector4.t F) : option nat :=
  find (is_least weights) [3; 2; 1; 0]%nat.

(** [((init + c0 * w0) + c1 * w1) + c2 * w2]: the sum that the loop of
    [Sample] accumulates over the first three vertex slots. *)
Definition weighted3 {V : Type} `{TetrahedralMesh.SampleValue V F}
  (c0 c1 c2 : V) (weights : Vector4.t F) : V :=
  TetrahedralMesh.value_add
    (TetrahedralMesh.value_add
       (TetrahedralMesh.value_add TetrahedralMesh.value_init
          (TetrahedralMesh.value_scale c0 (Vector4.get weights 0)))
       (TetrahedralMesh.value_scale c1 (Vector4.get weights 1)))
    (TetrahedralMesh.value_scale c2 (Vector4.get weights 2)).
End Vocabulary.

(** Modelled from the spec: [BuildOuterTetrahedrons] is not among the
    sources.  Section 4.E: "Neighbor slot 3 is the inner tetrahedron on the
    other side of the hull face"; outer tetrahedra are those at indices from
    [numInnerTetrahedrons_] on. *)
Definition outer_slot3_is_inner {F} (m : TetrahedralMesh.t F) : Prop :=
  forall (tetIndex : N) (tetrahedron : Tetrahedron.t F),
    (TetrahedralMesh.numInnerTetrahedrons_ m <= tetIndex)%N ->
    at_ (TetrahedralMesh.tetrahedrons_ m) tetIndex = Done tetrahedron ->
    (get4 (Tetrahedron.neighbors_ tetrahedron) 3
       < TetrahedralMesh.numInnerTetrahedrons_ m)%N.

(** No component of the weights is NaN. *)
Definition no_nan (weights : Vector4.t float) : bool :=
  forallb (fun j => negb (is_nan (Vector4.get weights j))) [0; 1; 2; 3]%nat.

(* ================================================================= *)
(** * Small meshes used in the examples *)

Section Examples.
Context {F : Type} `{Scalar F}.

Definition point (x y z : Z) : Vector3.t F :=
  Vector3.make (num x) (num y) (num z).

(** A 3x4 matrix with the given rotation part and no translation. *)
Definition linear (a b c d e f g h i : F) : Matrix3x4.t F :=
  Matrix3x4.make a b c (num 0) d e f (num 0) g h i (num 0).

(** Vertices 0..3 span the unit tetrahedron; 4 lies beyond its face
    x + y + z = 1, 5 beyond its face x = 0, and 6 on the near side of the
    face x + y + z = 1. *)
Definition example_vertices : list (Vector3.t F) :=
  [point 0 0 0; point 1 0 0; point 0 1 0; point 0 0 1;
   point 1 1 1; point (-1) 0 0; point (-1) (-1) (-1)].

(** The unit tetrahedron; its matrix is the inverse of the identity. *)
Definition unit_tetrahedron (neighbors : array4 N) : Tetrahedron.t F :=
  Tetrahedron.make (Array4 0 1 2 3)%N neighbors
    (linear (num 1) (num 0) (num 0)
            (num 0) (num 1) (num 0)
            (num 0) (num 0) (num 1)).

(** Vertices (4, 1, 2, 3): edges from vertex 4 are (0,-1,-1), (-1,0,-1),
    (-1,-1,0); the inverse of the matrix with these columns has 1/2 on the
    diagonal and -1/2 elsewhere. *)
Definition beyond_face0 (neighbors : array4 N) : Tetrahedron.t F :=
  Tetrahedron.make (Array4 4 1 2 3)%N neighbors
    (linear (lit 1 (-1)) (lit (-1) (-1)) (lit (-1) (-1))
            (lit (-1) (-1)) (lit 1 (-1)) (lit (-1) (-1))
            (lit (-1) (-1)) (lit (-1) (-1)) (lit 1 (-1))).

(** Vertices (0, 5, 2, 3): edges from vertex 0 are (-1,0,0), (0,1,0),
    (0,0,1). *)
Definition beyond_face1 (neighbors : array4 N) : Tetrahedron.t F :=
  Tetrahedron.make (Array4 0 5 2 3)%N neighbors
    (linear (num (-1)) (num 0) (num 0)
            (num 0) (num 1) (num 0)
            (num 0) (num 0) (num 1)).

(** Vertices (6, 1, 2, 3): edges from vertex 6 are (2,1,1), (1,2,1),
    (1,1,2); the inverse of the matrix with these columns has 3/4 on the
    diagonal and -1/4 elsewhere.  It shares the face (1, 2, 3) with the unit
    tetrahedron and lies on the same side of it. *)
Definition folded_over_face0 (neighbors : array4 N) : Tetrahedron.t F :=
  Tetrahedron.make (Array4 6 1 2 3)%N neighbors
    (linear (lit 3 (-2)) (lit (-1) (-2)) (lit (-1) (-2))
            (lit (-1) (-2)) (lit 3 (-2)) (lit (-1) (-2))
            (lit (-1) (-2)) (lit (-1) (-2)) (lit 3 (-2))).

Definition none : N := M_MAX_UNSIGNED.

(** The unit tetrahedron alone, with no neighbor on any face. *)
Definition single_mesh : TetrahedralMesh.t F :=
  TetrahedralMesh.make example_vertices
    [unit_tetrahedron (Array4 none none none none)] [] [] 1.

(** Three inner tetrahedra: the unit tetrahedron (0) with a neighbor
    across its face 0 (1) and one across its face 1 (2). *)
Definition star_mesh : TetrahedralMesh.t F :=
  TetrahedralMesh.make example_vertices
    [unit_tetrahedron (Array4 1%N 2%N none none);
     beyond_face0 (Array4 0%N none none none);
     beyond_face1 (Array4 none 0%N none none)] [] [] 3.

(** As [star_mesh], but tetrahedron 1 overlaps tetrahedron 0. *)
Definition folded_mesh : TetrahedralMesh.t F :=
  TetrahedralMesh.make example_vertices
    [unit_tetrahedron (Array4 1%N 2%N none none);
     folded_over_face0 (Array4 0%N none none none);
     beyond_face1 (Array4 none 0%N none none)] [] [] 3.

(** An outer tetrahedron on the hull triangle (i0, i1, i2).  Outer matrices
    and hull normals are produced by code that is not among the sources;
    they are left at zero and are not read by the examples. *)
Definition outer_cell (i0 i1 i2 : N) (neighbors : array4 N)
  : Tetrahedron.t F :=
  Tetrahedron.make (Array4 i0 i1 i2 Tetrahedron.Infinity3) neighbors
    (linear (num 0) (num 0) (num 0) (num 0) (num 0) (num 0)
            (num 0) (num 0) (num 0)).

(** The unit tetrahedron (inner, index 0) and the outer tetrahedron on its
    face 0 (index 1); the normal (1, 1, 1) of the triangle (1, 2, 3) points
    away from vertex 0. *)
Definition shell_mesh : TetrahedralMesh.t F :=
  TetrahedralMesh.make example_vertices
    [unit_tetrahedron (Array4 1%N none none none);
     outer_cell 1 2 3 (Array4 none none none 0%N)]
    (map (fun _ => point 0 0 0) example_vertices) [] 1.

(** The tetrahedron with corners (0,0,0), (3,0,0), (0,3,0), (0,0,3) and its
    complete outer shell.  The inner matrix is the inverse of 3 * identity,
    with entries 1/3 rounded to the scalar type.  Tetrahedron 1 + k is the
    outer one on the face opposite vertex k, its triangle listed so that
    (p2 - p1) x (p3 - p1) points outward; its slots 0..2 hold the outer
    tetrahedra across the edges opposite its vertices 0..2, and slot 3 the
    inner tetrahedron. *)
Definition corner_mesh : TetrahedralMesh.t F :=
  let third : F := (num 1 / num 3)%fl in
  TetrahedralMesh.make
    [point 0 0 0; point 3 0 0; point 0 3 0; point 0 0 3]
    [Tetrahedron.make (Array4 0 1 2 3)%N (Array4 1 2 3 4)%N
       (linear third (num 0) (num 0)
               (num 0) third (num 0)
               (num 0) (num 0) third);
     outer_cell 1 2 3 (Array4 2 3 4 0)%N;
     outer_cell 0 3 2 (Array4 1 4 3 0)%N;
     outer_cell 0 1 3 (Array4 1 2 4 0)%N;
     outer_cell 0 2 1 (Array4 1 3 2 0)%N]
    [point 0 0 0; point 0 0 0; point 0 0 0; point 0 0 0] [] 1.

(** The point (1, 1, 1 - 2^-24): on the inner side of the hull face
    x + y + z = 3 of [corner_mesh], at a distance of about 3e-8. *)
Definition grazing : Vector3.t F :=
  Vector3.make (num 1) (num 1) (num 1 - lit 1 (-24))%fl.

(** A mesh without tetrahedra. *)
Definition empty_mesh : TetrahedralMesh.t F :=
  TetrahedralMesh.make [] [] [] [] 0.

(** The centroid (1/4, 1/4, 1/4) of the unit tetrahedron. *)
Definition centroid : Vector3.t F :=
  Vector3.make (lit 1 (-2)) (lit 1 (-2)) (lit 1 (-2)).

(** The unit sphere around the origin. *)
Definition unit_sphere : HighPrecisionSphere.t F :=
  HighPrecisionSphere.make
    (HighPrecisionVector3.make (Array3 (num 0) (num 0) (num 0))) (num 1).

(** A construction context with that one circumsphere. *)
Definition unit_context : TetrahedralMesh.DelaunayContext.t F :=
  TetrahedralMesh.DelaunayContext.make [unit_sphere] [false].

(** Four points with integer coordinates that almost lie in a plane: the
    tetrahedron on them has six times the volume 681, where single
    products of its edge coordinates are of the order 10^10. *)
Definition sliver_vertices : list (Vector3.t F) :=
  [point (-1481) (-977) 817; point 366 (-1423) (-1165);
   point (-810) 1466 887; point (-4505) 2358 4852].

(** Face (1, 2, 3) of the unit tetrahedron, and the same face with its
    first two vertices exchanged. *)
Definition face0 : TetrahedralMeshSurfaceTriangle.t :=
  TetrahedralMeshSurfaceTriangle.make (Array3 1 2 3)%N 0%N
    (Array3 10 11 12)%N 0%N 0%N.

Definition face0_flipped : TetrahedralMeshSurfaceTriangle.t :=
  TetrahedralMeshSurfaceTriangle.make (Array3 2 1 3)%N 0%N
    (Array3 10 11 12)%N 0%N 0%N.
End Examples.

(** Closed examples on the float instance never reach [SolveCubicEquation];
    they are stated with library functions that answer NaN. *)
Definition cmath_nan : Cmath double :=
  ieee_Cmath (fun _ => IEEE S754_nan) (fun _ => IEEE S754_nan)
             (fun _ => IEEE S754_nan).

(** Per-vertex scalars as the sampled container's value type. *)
#[export] Instance scalar_SampleValue {F : Type} `{Scalar F}
  : TetrahedralMesh.SampleValue F F := {|
  TetrahedralMesh.value_init := num 0;
  TetrahedralMesh.value_add := add;
  TetrahedralMesh.value_scale := mul
|}.

(** The comparisons [<] and [<=] form a total order on the values that
    satisfy [ordered]: every real number; every float but NaN. *)
Class TotalOrderOn {F : Type} `{Scalar F} (ordered : F -> Prop) : Prop := {
  ord_le_refl : forall a, ordered a -> leb a a = true;
  ord_lt_le : forall a b, ltb a b = true -> leb a b = true;
  ord_lt_asym : forall a b, ltb a b = true -> leb b a = false;
  ord_total : forall a b, ordered a -> ordered b ->
                          ltb a b = false -> leb b a = true;
  ord_le_trans : forall a b c, leb a b = true -> leb b c = true ->
                               leb a c = true
}.

(* ================================================================= *)
(** * Well-formed meshes *)

Section WellFormed.
Context {F : Type}.

(** Every neighbor slot of every tetrahedron holds an index into the
    tetrahedron array. *)
Definition neighbors_closed (m : TetrahedralMesh.t F) : bool :=
  forallb
    (fun tet =>
       forallb
         (fun k => (get4 (Tetrahedron.neighbors_ tet) k
                      <? size (TetrahedralMesh.tetrahedrons_ m))%N)
         [0; 1; 2; 3]%nat)
    (TetrahedralMesh.tetrahedrons_ m).

(** Every neighbor slot holds an index into the tetrahedron array or the
    sentinel "none". *)
Definition neighbors_closed_or_none (m : TetrahedralMesh.t F) : bool :=
  forallb
    (fun tet =>
       forallb
         (fun k =>
            (get4 (Tetrahedron.neighbors_ tet) k
               <? size (TetrahedralMesh.tetrahedrons_ m))%N
            || (get4 (Tetrahedron.neighbors_ tet) k =? M_MAX_UNSIGNED)%N)
         [0; 1; 2; 3]%nat)
    (TetrahedralMesh.tetrahedrons_ m).

(** Vertex slot 0 of every tetrahedron is an index into [vertices_]: what
    [GetInnerBarycentricCoords] reads. *)
Definition base_vertices_in_range (m : TetrahedralMesh.t F) : bool :=
  forallb
    (fun tet =>
       (get4 (Tetrahedron.indices_ tet) 0
          <? size (TetrahedralMesh.vertices_ m))%N)
    (TetrahedralMesh.tetrahedrons_ m).

(** Vertex slots 0..2 of the tetrahedron are indices into [vertices_] and
    into [hullNormals_]: what [GetOuterBarycentricCoords] reads. *)
Definition hull_triangle_in_range (m : TetrahedralMesh.t F)
  (tet : Tetrahedron.t F) : bool :=
  forallb
    (fun k =>
       (get4 (Tetrahedron.indices_ tet) k
          <? size (TetrahedralMesh.vertices_ m))%N
       && (get4 (Tetrahedron.indices_ tet) k
             <? size (TetrahedralMesh.hullNormals_ m))%N)
    [0; 1; 2]%nat.

(** The tetrahedra from [numInnerTetrahedrons_] on satisfy
    [hull_triangle_in_range]. *)
Definition outer_triangles_in_range (m : TetrahedralMesh.t F) : bool :=
  forallb (hull_triangle_in_range m)
    (skipn (N.to_nat (TetrahedralMesh.numInnerTetrahedrons_ m))
           (TetrahedralMesh.tetrahedrons_ m)).

(** The four vertex indices of a tetrahedron, and the four of a surface
    triangle with its unused vertex first. *)
Definition tetrahedron_vertices (tet : Tetrahedron.t F) : list N :=
  [get4 (Tetrahedron.indices_ tet) 0; get4 (Tetrahedron.indices_ tet) 1;
   get4 (Tetrahedron.indices_ tet) 2; get4 (Tetrahedron.indices_ tet) 3].
End WellFormed.

Definition triangle_vertices (tri : TetrahedralMeshSurfaceTriangle.t)
  : list N :=
  [get3 (TetrahedralMeshSurfaceTriangle.indices_ tri) 0;
   get3 (TetrahedralMeshSurfaceTriangle.indices_ tri) 1;
   get3 (TetrahedralMeshSurfaceTriangle.indices_ tri) 2].

(** Per-vertex positions as the sampled container's value type:
    value initialisation, [operator+] and [operator*(float)] of
    [Vector3]. *)
#[export] Instance Vector3_SampleValue {F : Type} `{Scalar F}
  : TetrahedralMesh.SampleValue (Vector3.t F) F := {|
  TetrahedralMesh.value_init := Vector3.make (num 0) (num 0) (num 0);
  TetrahedralMesh.value_add := Vector3.plus;
  TetrahedralMesh.value_scale := Vector3.times
|}.

(* ================================================================= *)
(** * Affine combinations *)

Section Combinations.
Local Open Scope R_scope.

(** The point w.x * p0 + w.y * p1 + w.z * p2 + w.w * p3. *)
Definition combine4 (w : Vector4.t R) (p0 p1 p2 p3 : Vector3.t R)
  : Vector3.t R :=
  Vector3.make
    (Vector4.x_ w * Vector3.x_ p0 + Vector4.y_ w * Vector3.x_ p1
     + Vector4.z_ w * Vector3.x_ p2 + Vector4.w_ w * Vector3.x_ p3)
    (Vector4.x_ w * Vector3.y_ p0 + Vector4.y_ w * Vector3.y_ p1
     + Vector4.z_ w * Vector3.y_ p2 + Vector4.w_ w * Vector3.y_ p3)
    (Vector4.x_ w * Vector3.z_ p0 + Vector4.y_ w * Vector3.z_ p1
     + Vector4.z_ w * Vector3.z_ p2 + Vector4.w_ w * Vector3.z_ p3).

(** The point w.x * p1 + w.y * p2 + w.z * p3. *)
Definition combine3 (w : Vector3.t R) (p1 p2 p3 : Vector3.t R)
  : Vector3.t R :=
  Vector3.make
    (Vector3.x_ w * Vector3.x_ p1 + Vector3.y_ w * Vector3.x_ p2
     + Vector3.z_ w * Vector3.x_ p3)
    (Vector3.x_ w * Vector3.y_ p1 + Vector3.y_ w * Vector3.y_ p2
     + Vector3.z_ w * Vector3.y_ p3)
    (Vector3.x_ w * Vector3.z_ p1 + Vector3.y_ w * Vector3.z_ p2
     + Vector3.z_ w * Vector3.z_ p3).

(** Six times the signed volume of the tetrahedron (p0, p1, p2, p3): zero
    exactly when the four points lie in a plane. *)
Definition volume6 (p0 p1 p2 p3 : Vector3.t R) : R :=
  Vector3.DotProduct (Vector3.minus p1 p0)
    (Vector3.CrossProduct (Vector3.minus p2 p0) (Vector3.minus p3 p0)).

(** Gram determinant of the two edges of a triangle that leave [p1]: four
    times the square of its area, zero exactly when the three points lie on
    a line. *)
Definition gram (p1 p2 p3 : Vector3.t R) : R :=
  let v12 := Vector3.minus p2 p1 in
  let v13 := Vector3.minus p3 p1 in
  Vector3.DotProduct v12 v12 * Vector3.DotProduct v13 v13
  - Vector3.DotProduct v12 v13 * Vector3.DotProduct v12 v13.

(** The point of real space that a vector of floats stands for. *)
Definition Vector3_value {prec emax : Z} (p : Vector3.t (ieee prec emax))
  : Vector3.t R :=
  Vector3.make (ieee_value (Vector3.x_ p)) (ieee_value (Vector3.y_ p))
               (ieee_value (Vector3.z_ p)).

(** The left-hand side of the cubic equation of [SolveCubicEquation]. *)
Definition cubic (a b c x : R) : R := x * x * x + a * x * x + b * x + c.
End Combinations.

(* ================================================================= *)
(** * Basic facts *)

Import TetrahedralMesh.

Lemma at_Done_lt {A} (v : list A) (i : N) (a : A) :
  at_ v i = Done a -> (i < size v)%N.
Proof.
  unfold at_. destruct (i <? size v)%N eqn:E; [|discriminate].
  intros _. now apply N.ltb_lt.
Qed.

Lemma at_lt_Done {A} (v : list A) (i : N) :
  (i < size v)%N -> exists a, at_ v i = Done a.
Proof.
  intros Hlt. unfold at_. apply N.ltb_lt in Hlt as E. rewrite E.
  destruct (nth_error v (N.to_nat i)) eqn:En; [eauto|].
  apply nth_error_None in En. unfold size in Hlt. lia.
Qed.

Lemma at_nil {A} (i : N) : at_ (@nil A) i = OutOfBounds.
Proof. unfold at_, size. simpl. now destruct i. Qed.

Lemma bind_Done {A B} (c : outcome A) (k : A -> outcome B) (b : B) :
  bind c k = Done b -> exists a, c = Done a /\ k a = Done b.
Proof. destruct c; simpl; [eauto|discriminate]. Qed.

Lemma to_unsigned_small (n : N) : (n < 2 ^ 32)%N -> to_unsigned n = n.
Proof. intros. unfold to_unsigned. now apply N.mod_small. Qed.

(* ----------------------------------------------------------------- *)
(** ** Order on IEEE values *)

Ltac cmp_cases :=
  repeat match goal with
  | H : context [Z.compare ?a ?b] |- _ => destruct (Z.compare_spec a b)
  | |- context [Z.compare ?a ?b] => destruct (Z.compare_spec a b)
  | H : context [Pos.compare_cont Eq ?a ?b] |- _ =>
      change (Pos.compare_cont Eq a b) with (Pos.compare a b) in *;
      destruct (Pos.compare_spec a b)
  | |- context [Pos.compare_cont Eq ?a ?b] =>
      change (Pos.compare_cont Eq a b) with (Pos.compare a b) in *;
      destruct (Pos.compare_spec a b)
  end.

Lemma SFcompare_antisym (x y : spec_float) :
  SFcompare y x = option_map CompOpp (SFcompare x y).
Proof.
  destruct x as [sx|sx| |sx mx ex], y as [sy|sy| |sy my ey]; simpl;
    try reflexivity;
    try (destruct sx; reflexivity); try (destruct sy; reflexivity);
    try (destruct sx, sy; reflexivity).
  destruct sx, sy; simpl; try reflexivity;
    cmp_cases; simpl; try reflexivity; try lia.
Qed.

Lemma SFcompare_refl (x : spec_float) :
  x <> S754_nan -> SFcompare x x = Some Eq.
Proof.
  destruct x as [s|s| |s m e]; simpl; intros Hx;
    try reflexivity; try congruence.
  - now destruct s.
  - rewrite Z.compare_refl.
    change (Pos.compare_cont Eq m m) with (Pos.compare m m).
    rewrite Pos.compare_refl. now destruct s.
Qed.

Lemma SFcompare_defined (x y : spec_float) :
  x <> S754_nan -> y <> S754_nan -> exists c, SFcompare x y = Some c.
Proof.
  destruct x, y; simpl; intros; try congruence; eauto.
Qed.

Lemma SFleb_trans (x y z : spec_float) :
  SFleb x y = true -> SFleb y z = true -> SFleb x z = true.
Proof.
  unfold SFleb.
  destruct x as [sx|sx| |sx mx ex], y as [sy|sy| |sy my ey],
           z as [sz|sz| |sz mz ez];
    simpl; try discriminate; try reflexivity;
    try (destruct sx; simpl; try discriminate; try reflexivity);
    try (destruct sy; simpl; try discriminate; try reflexivity);
    try (destruct sz; simpl; try discriminate; try reflexivity);
    intros; cmp_cases; simpl in *; try discriminate; try reflexivity; try lia.
Qed.

Lemma is_nan_false {prec emax} (x : ieee prec emax) :
  is_nan x = false -> repr x <> S754_nan.
Proof. unfold is_nan. destruct (repr x); congruence. Qed.

#[export] Instance ieee_TotalOrderOn (prec emax : Z) :
  TotalOrderOn (fun x : ieee prec emax => is_nan x = false).
Proof.
  split; simpl; unfold ieee_cmp, SFltb, SFleb.
  - intros a Ha. now rewrite (SFcompare_refl _ (is_nan_false _ Ha)).
  - intros a b. now destruct (SFcompare (repr a) (repr b)) as [[]|].
  - intros a b. rewrite (SFcompare_antisym (repr a) (repr b)).
    now destruct (SFcompare (repr a) (repr b)) as [[]|].
  - intros a b Ha Hb. rewrite (SFcompare_antisym (repr a) (repr b)).
    destruct (SFcompare_defined _ _ (is_nan_false _ Ha) (is_nan_false _ Hb))
      as [c ->].
    now destruct c.
  - intros a b c. apply SFleb_trans.
Qed.

#[export] Instance float_TotalOrderOn :
  TotalOrderOn (fun x : float => is_nan x = false) := ieee_TotalOrderOn 24 128.

(* ----------------------------------------------------------------- *)
(** ** Order on the reals *)

Lemma Rltb_true (x y : R) : Rltb x y = true <-> (x < y)%R.
Proof. unfold Rltb. destruct (Rlt_dec x y); split; congruence || tauto. Qed.

Lemma Rltb_false (x y : R) : Rltb x y = false <-> (y <= x)%R.
Proof.
  unfold Rltb. destruct (Rlt_dec x y); split; try congruence; try lra.
Qed.

Lemma Rleb_true (x y : R) : Rleb x y = true <-> (x <= y)%R.
Proof. unfold Rleb. destruct (Rle_dec x y); split; congruence || tauto. Qed.

Lemma Rleb_false (x y : R) : Rleb x y = false <-> (y < x)%R.
Proof.
  unfold Rleb. destruct (Rle_dec x y); split; try congruence; try lra.
Qed.

#[export] Instance R_TotalOrderOn : TotalOrderOn (fun _ : R => True).
Proof.
  split; simpl.
  - intros a _. apply Rleb_true. lra.
  - intros a b Hab. apply Rltb_true in Hab. apply Rleb_true. lra.
  - intros a b Hab. apply Rltb_true in Hab. apply Rleb_false. lra.
  - intros a b _ _ Hab. apply Rltb_false in Hab. now apply Rleb_true.
  - intros a b c Hab Hbc. apply Rleb_true in Hab, Hbc. apply Rleb_true. lra.
Qed.

(* ================================================================= *)
(** * The cascade of the point-location walk *)

Section Cascade.
Context {F : Type} `{Scalar F} (ordered : F -> Prop) `{!TotalOrderOn ordered}.

Ltac saturate :=
  repeat match goal with
  | H : ltb ?a ?b = true |- _ =>
      lazymatch goal with
      | _ : leb a b = true |- _ => fail
      | _ => pose proof (ord_lt_le _ _ H); pose proof (ord_lt_asym _ _ H)
      end
  | H : ltb ?a ?b = false, Ha : ordered ?a, Hb : ordered ?b |- _ =>
      lazymatch goal with
      | _ : leb b a = true |- _ => fail
      | _ => pose proof (ord_total _ _ Ha Hb H)
      end
  | H1 : leb ?a ?b = true, H2 : leb ?b ?c = true |- _ =>
      lazymatch goal with
      | _ : leb a c = true |- _ => fail
      | _ => pose proof (ord_le_trans _ _ _ H1 H2)
      end
  end.

(** On totally ordered weights the cascade reads the highest slot among
    those that hold a least component. *)
Lemma chosen_slot_highest_least (weights : Vector4.t F) :
  ordered (Vector4.x_ weights) -> ordered (Vector4.y_ weights) ->
  ordered (Vector4.z_ weights) -> ordered (Vector4.w_ weights) ->
  highest_least_slot weights = Some (chosen_slot weights).
Proof.
  destruct weights as [x y z w]; simpl; intros Ox Oy Oz Ow.
  pose proof (ord_le_refl _ Ox); pose proof (ord_le_refl _ Oy);
  pose proof (ord_le_refl _ Oz); pose proof (ord_le_refl _ Ow).
  unfold highest_least_slot, chosen_slot, is_least; simpl.
  destruct (ltb x y) eqn:Hxy, (ltb x z) eqn:Hxz, (ltb x w) eqn:Hxw,
           (ltb y z) eqn:Hyz, (ltb y w) eqn:Hyw, (ltb z w) eqn:Hzw;
    simpl; saturate;
    repeat match goal with
    | H : leb _ _ = _ |- _ => rewrite H
    end; simpl; try reflexivity; try congruence.
Qed.

(** A component below zero keeps the walk going. *)
Lemma has_negative_not_all_non_negative (weights : Vector4.t F) :
  has_negative weights = true -> all_non_negative weights = false.
Proof.
  destruct weights as [x y z w].
  unfold has_negative, all_non_negative; simpl.
  rewrite !orb_true_iff.
  intros [Hn|[Hn|[Hn|[Hn|Hn]]]]; try discriminate;
    apply ord_lt_asym in Hn; rewrite Hn;
    rewrite ?andb_false_r; reflexivity.
Qed.
End Cascade.

(* ================================================================= *)
(** * C1: which neighbor the walk steps to *)

Section WalkStepBinary32.
Context (L : Cmath double) (MD : MathDefs float).

Lemma no_nan_components (weights : Vector4.t float) :
  no_nan weights = true ->
  is_nan (Vector4.x_ weights) = false /\ is_nan (Vector4.y_ weights) = false /\
  is_nan (Vector4.z_ weights) = false /\ is_nan (Vector4.w_ weights) = false.
Proof.
  destruct weights as [x y z w]. unfold no_nan; simpl.
  rewrite !andb_true_iff, !negb_true_iff. tauto.
Qed.

(** C1, as the code has it: when the weights of the current tetrahedron are
    free of NaN and at least one of them is negative, the iteration of
    [GetInterpolationFactors] assigns to the hint the neighbor stored in a
    slot that holds a most negative component; among several equally most
    negative components it takes the one in the HIGHEST slot. *)
Theorem walk_steps_to_highest_most_negative_slot
  (m : TetrahedralMesh.t float) (position : Vector3.t float)
  (tetIndexHint : N) (tetrahedron : Tetrahedron.t float)
  (weights : Vector4.t float) :
  at_ (tetrahedrons_ m) tetIndexHint = Done tetrahedron ->
  GetBarycentricCoords m tetIndexHint position = Done weights ->
  no_nan weights = true ->
  has_negative weights = true ->
  exists k : nat,
    highest_least_slot weights = Some k /\
    walk_iteration m position tetIndexHint
      = Done (Stepped (get4 (Tetrahedron.neighbors_ tetrahedron) k)).
Proof.
  intros Htet Hw Hnan Hneg.
  exists (chosen_slot weights). split.
  - destruct (no_nan_components _ Hnan) as (Hx & Hy & Hz & Hv).
    now apply (chosen_slot_highest_least (fun x : float => is_nan x = false)).
  - unfold walk_iteration. rewrite Hw. simpl.
    rewrite (has_negative_not_all_non_negative
               (fun x : float => is_nan x = false) _ Hneg).
    unfold neighbor_across. rewrite Htet. reflexivity.
Qed.
End WalkStepBinary32.

(** The tie of the examples: at (-1, 3, 0) the unit tetrahedron has the
    weights (-1, -1, 3, 0). *)
Example tie_weights (L : Cmath double) (MD : MathDefs float) :
  GetBarycentricCoords star_mesh 0 (point (-1) 3 0)
  = Done (Vector4.make (num (-1)) (num (-1)) (num 3) (num 0) : Vector4.t float).
Proof. vm_compute. reflexivity. Qed.

(** Slots 0 and 1 both hold the least weight; the walk goes to the neighbor
    of slot 1, tetrahedron 2, and not to that of slot 0, tetrahedron 1. *)
Example tie_step (L : Cmath double) (MD : MathDefs float) :
  walk_iteration (F := float) star_mesh (point (-1) 3 0) 0 = Done (Stepped 2%N).
Proof. vm_compute. reflexivity. Qed.

Example tie_lowest_slot :
  lowest_least_slot
    (Vector4.make (num (-1)) (num (-1)) (num 3) (num 0) : Vector4.t float)
  = Some 0%nat.
Proof. vm_compute. reflexivity. Qed.

(** Why the theorem asks for weights free of NaN: every comparison with NaN
    is false, so on (-5, NaN, 0, 0) the cascade falls through to slot 3,
    whose component 0 is not the most negative one. *)
Example cascade_with_nan :
  chosen_slot
    (Vector4.make (num (-5)) (IEEE S754_nan) (num 0) (num 0) : Vector4.t float)
  = 3%nat.
Proof. vm_compute. reflexivity. Qed.

(** C1 as stated, with the lowest slot preferred among equally most
    negative components, fails on [star_mesh] at (-1, 3, 0). *)
Lemma walk_lowest_slot_counterexample :
  ~ (forall (L : Cmath double) (MD : MathDefs float)
            (m : TetrahedralMesh.t float) (position : Vector3.t float)
            (tetIndexHint : N) (tetrahedron : Tetrahedron.t float)
            (weights : Vector4.t float),
        at_ (tetrahedrons_ m) tetIndexHint = Done tetrahedron ->
        GetBarycentricCoords m tetIndexHint position = Done weights ->
        has_negative weights = true ->
        exists k : nat,
          lowest_least_slot weights = Some k /\
          walk_iteration m position tetIndexHint
            = Done (Stepped (get4 (Tetrahedron.neighbors_ tetrahedron) k))).
Proof.
  intros claim.
  destruct (claim cmath_nan spec_MathDefs32 star_mesh (point (-1) 3 0) 0%N
              (unit_tetrahedron (Array4 1%N 2%N none none)) _
              eq_refl (tie_weights _ _) eq_refl) as (k & Hk & Hstep).
  rewrite tie_lowest_slot in Hk. injection Hk as <-.
  rewrite tie_step in Hstep. discriminate Hstep.
Qed.

Lemma walk_steps_to_highest_most_negative_slot_witness :
  exists k : nat,
    highest_least_slot
      (Vector4.make (num (-1)) (num (-1)) (num 3) (num 0) : Vector4.t float)
    = Some k /\
    walk_iteration (L := cmath_nan) (MD := spec_MathDefs32)
      star_mesh (point (-1) 3 0) 0
    = Done (Stepped (get4 (Array4 1%N 2%N none none) k)).
Proof.
  apply (walk_steps_to_highest_most_negative_slot cmath_nan spec_MathDefs32
           star_mesh (point (-1) 3 0) 0%N
           (unit_tetrahedron (Array4 1%N 2%N none none))).
  - reflexivity.
  - vm_compute. reflexivity.
  - vm_compute. reflexivity.
  - vm_compute. reflexivity.
Defined.

(* ================================================================= *)
(** * C2: stepping across a face without neighbor *)

Section WalkFacts.
Context {F D : Type} {SF : Scalar F} {SD : Scalar D}.
Context {C : Casts F D} {L : Cmath D} {MD : MathDefs F}.

(** Weights are only ever computed for an index inside the tetrahedron
    array. *)
Lemma GetBarycentricCoords_Done_lt (m : TetrahedralMesh.t F) (tetIndex : N)
  (position : Vector3.t F) (weights : Vector4.t F) :
  GetBarycentricCoords m tetIndex position = Done weights ->
  (tetIndex < size (tetrahedrons_ m))%N.
Proof.
  unfold GetBarycentricCoords, GetInnerBarycentricCoords,
    GetOuterBarycentricCoords.
  destruct (tetIndex <? numInnerTetrahedrons_ m)%N; intros Hw;
    apply bind_Done in Hw as (tet & Htet & _);
    exact (at_Done_lt _ _ _ Htet).
Qed.

Lemma GetBarycentricCoords_past_the_end (m : TetrahedralMesh.t F)
  (tetIndex : N) (position : Vector3.t F) :
  (size (tetrahedrons_ m) <= tetIndex)%N ->
  GetBarycentricCoords m tetIndex position = OutOfBounds.
Proof.
  intros Hge.
  destruct (GetBarycentricCoords m tetIndex position) as [w|] eqn:E;
    [|reflexivity].
  apply GetBarycentricCoords_Done_lt in E. lia.
Qed.

(** The weights a walk returns are those of the tetrahedron it leaves the
    hint at, and the step count only grows. *)
Lemma walk_Done (m : TetrahedralMesh.t F) (position : Vector3.t F)
  (iters : nat) :
  forall (tetIndexHint : N) (steps : nat) weights tetIndexHint' steps',
    walk m position iters tetIndexHint steps
      = Done (weights, tetIndexHint', steps') ->
    GetBarycentricCoords m tetIndexHint' position = Done weights
    /\ (steps <= steps')%nat.
Proof.
  induction iters as [|iters IH]; intros h s w h' s'; simpl; intros Hwalk.
  - apply bind_Done in Hwalk as (w0 & Hw0 & Hret).
    injection Hret as <- <- <-. auto.
  - apply bind_Done in Hwalk as (r & Hr & Hrest).
    unfold walk_iteration in Hr.
    apply bind_Done in Hr as (w0 & Hw0 & Hr).
    destruct (all_non_negative w0).
    + injection Hr as <-. injection Hrest as <- <- <-. auto.
    + apply bind_Done in Hr as (next & _ & Hr). injection Hr as <-.
      apply IH in Hrest as [Hb Hle]. split; [exact Hb|lia].
Qed.

(** Once the hint is past the end of the array, the walk reads there. *)
Lemma walk_past_the_end (m : TetrahedralMesh.t F) (position : Vector3.t F)
  (iters : nat) (tetIndexHint : N) (steps : nat) :
  (size (tetrahedrons_ m) <= tetIndexHint)%N ->
  walk m position iters tetIndexHint steps = OutOfBounds.
Proof.
  intros Hge. destruct iters; simpl; unfold walk_iteration;
    now rewrite GetBarycentricCoords_past_the_end.
Qed.

(** In general: if the first iteration of [GetInterpolationFactors] assigns
    the sentinel "none" to the hint, the call goes on to index the
    tetrahedron array with it. *)
Lemma step_to_none_is_out_of_bounds (m : TetrahedralMesh.t F)
  (position : Vector3.t F) (tetIndexHint : N) :
  (size (tetrahedrons_ m) < 2 ^ 32)%N ->
  (tetIndexHint < size (tetrahedrons_ m))%N ->
  walk_iteration m position tetIndexHint = Done (Stepped M_MAX_UNSIGNED) ->
  GetInterpolationFactors m position tetIndexHint = OutOfBounds.
Proof.
  intros Hsize Hlt Hstep.
  unfold GetInterpolationFactors, GetInterpolationFactors_counted.
  destruct (tetrahedrons_ m) as [|t0 ts] eqn:Ets.
  - unfold size in Hlt. simpl in Hlt. lia.
  - rewrite <- Ets in *. rewrite (to_unsigned_small _ Hsize).
    rewrite (proj2 (N.leb_gt _ _) Hlt).
    destruct (N.to_nat (size (tetrahedrons_ m))) as [|iters] eqn:En.
    + lia.
    + simpl. rewrite Hstep. simpl.
      rewrite walk_past_the_end; [reflexivity|].
      unfold M_MAX_UNSIGNED. change (2 ^ 32)%N with 4294967296%N in Hsize. lia.
Qed.
End WalkFacts.

(** C2 at a concrete input.  The query (0, 0, -1) lies below face 3 of the
    unit tetrahedron of [star_mesh], which has no neighbor.  The walk from
    hint 0 computes the weights (2, 0, 0, -1), assigns "none" to the hint,
    and the next iteration indexes the tetrahedron array at "none": the
    call does not return the last weights.  [FindTetrahedron], on the same
    mesh and query, tests for "none" and returns it. *)
Theorem walk_across_none_reads_past_the_end
  (L : Cmath double) (MD : MathDefs float) :
  GetBarycentricCoords (F := float) star_mesh 0 (point 0 0 (-1))
    = Done (Vector4.make (num 2) (num 0) (num 0) (num (-1)))
  /\ walk_iteration (F := float) star_mesh (point 0 0 (-1)) 0
    = Done (Stepped M_MAX_UNSIGNED)
  /\ GetInterpolationFactors (F := float) star_mesh (point 0 0 (-1)) 0
    = OutOfBounds
  /\ FindTetrahedron (F := float) star_mesh (point 0 0 (-1))
       [false; false; false]
    = Done M_MAX_UNSIGNED.
Proof. repeat split; vm_compute; reflexivity. Qed.

(** With a single tetrahedron the loop ends after the step, and it is the
    [return] after the loop that indexes the array at "none". *)
Example single_mesh_reads_past_the_end
  (L : Cmath double) (MD : MathDefs float) :
  GetInterpolationFactors (F := float) single_mesh (point 0 0 (-1)) 0
  = OutOfBounds.
Proof. vm_compute. reflexivity. Qed.

(* ================================================================= *)
(** * C3: calling again with the returned hint *)

Section HintStability.
Context {F D : Type} {SF : Scalar F} {SD : Scalar D}.
Context {C : Casts F D} {L : Cmath D} {MD : MathDefs F}.

(** C3, as the code has it: on a mesh whose size fits [unsigned], if a call
    returns weights that are all non-negative (the walk, or the return
    after it, found a tetrahedron containing the position) and leaves the
    hint at [h'], then a second call with hint [h'] returns the same
    weights, leaves the hint at [h'] and performs no neighbor step. *)
Theorem second_call_after_located
  (m : TetrahedralMesh.t F) (position : Vector3.t F) (h h' : N)
  (weights : Vector4.t F) (steps : nat) :
  (size (tetrahedrons_ m) < 2 ^ 32)%N ->
  GetInterpolationFactors_counted m position h = Done (weights, h', steps) ->
  all_non_negative weights = true ->
  GetInterpolationFactors_counted m position h' = Done (weights, h', 0%nat).
Proof.
  intros Hsize Hfirst Hpos.
  unfold GetInterpolationFactors_counted in *.
  destruct (tetrahedrons_ m) as [|t0 ts] eqn:Ets.
  - injection Hfirst as <- <- <-. reflexivity.
  - rewrite <- Ets in *. rewrite (to_unsigned_small _ Hsize) in *.
    apply walk_Done in Hfirst as [Hw _].
    pose proof (GetBarycentricCoords_Done_lt _ _ _ _ Hw) as Hlt.
    rewrite (proj2 (N.leb_gt _ _) Hlt).
    destruct (N.to_nat (size (tetrahedrons_ m))) as [|iters] eqn:En;
      [lia|].
    simpl. unfold walk_iteration. rewrite Hw. simpl. rewrite Hpos.
    reflexivity.
Qed.
End HintStability.

(** On [corner_mesh], a tiling mesh with its outer shell, rounding makes
    both cells at the hull face x + y + z = 3 disown the point [grazing]:
    the inner tetrahedron 0 computes the weight -2^-25 for its slot 0, and
    the outer tetrahedron 1 computes a negative product with the face
    normal and answers with its sentinel. *)
Example grazing_inner_weights (L : Cmath double) (MD : MathDefs float) :
  GetBarycentricCoords (F := float) corner_mesh 0 grazing
  = Done (Vector4.make (lit (-1) (-25)) (lit 11184811 (-25))
                       (lit 11184811 (-25)) (lit 11184810 (-25))).
Proof. vm_compute. reflexivity. Qed.

Example grazing_outer_weights (L : Cmath double) (MD : MathDefs float) :
  GetBarycentricCoords (F := float) corner_mesh 1 grazing
  = Done (Vector4.make (num 0) (num 0) (num 0) (num (-1))).
Proof. vm_compute. reflexivity. Qed.

(** The walk alternates between the two until its five iterations are used
    up, and returns the weights of the tetrahedron it stops at. *)
Example grazing_first_call (L : Cmath double) (MD : MathDefs float) :
  GetInterpolationFactors_counted (F := float) corner_mesh grazing 0
  = Done (Vector4.make (num 0) (num 0) (num 0) (num (-1)), 1%N, 5%nat).
Proof. vm_compute. reflexivity. Qed.

Example grazing_second_call (L : Cmath double) (MD : MathDefs float) :
  GetInterpolationFactors_counted (F := float) corner_mesh grazing 1
  = Done (Vector4.make (lit (-1) (-25)) (lit 11184811 (-25))
                       (lit 11184811 (-25)) (lit 11184810 (-25)),
          0%N, 5%nat).
Proof. vm_compute. reflexivity. Qed.

(** The same alternation in numbers that are exact: on [folded_mesh],
    where tetrahedron 1 overlaps tetrahedron 0, the walk for (1, 1, 1)
    goes back and forth between the two. *)
Example folded_first_call (L : Cmath double) (MD : MathDefs float) :
  GetInterpolationFactors_counted (F := float) folded_mesh (point 1 1 1) 0
  = Done (Vector4.make (lit (-1) (-1)) (lit 1 (-1)) (lit 1 (-1)) (lit 1 (-1)),
          1%N, 3%nat).
Proof. vm_compute. reflexivity. Qed.

Example folded_second_call (L : Cmath double) (MD : MathDefs float) :
  GetInterpolationFactors_counted (F := float) folded_mesh (point 1 1 1) 1
  = Done (Vector4.make (num (-2)) (num 1) (num 1) (num 1), 0%N, 3%nat).
Proof. vm_compute. reflexivity. Qed.

(** C3 as stated fails on [corner_mesh] at [grazing]: the first call, from
    hint 0, returns (0, 0, 0, -1) and leaves the hint at 1; the second call,
    from hint 1, returns (-2^-25, 1/3, 1/3, 1/3 - 2^-25) after five
    neighbor steps. *)
Lemma second_call_counterexample :
  ~ (forall (L : Cmath double) (MD : MathDefs float)
            (m : TetrahedralMesh.t float) (position : Vector3.t float)
            (h h' : N) (weights : Vector4.t float) (steps : nat),
        GetInterpolationFactors_counted m position h
          = Done (weights, h', steps) ->
        exists (h'' : N) (steps' : nat),
          GetInterpolationFactors_counted m position h'
            = Done (weights, h'', steps')
          /\ (steps' <= 1)%nat).
Proof.
  intros claim.
  destruct (claim cmath_nan spec_MathDefs32 corner_mesh grazing
              0%N _ _ _ (grazing_first_call _ _))
    as (h'' & steps' & Hsecond & Hle).
  rewrite grazing_second_call in Hsecond.
  injection Hsecond as _ _ _ _ _ Hsteps. subst steps'. lia.
Qed.

Lemma second_call_after_located_witness :
  GetInterpolationFactors_counted (L := cmath_nan) (MD := spec_MathDefs32)
    star_mesh centroid 0
  = Done (Vector4.make (lit 1 (-2)) (lit 1 (-2)) (lit 1 (-2)) (lit 1 (-2)),
          0%N, 0%nat).
Proof.
  apply (second_call_after_located (L := cmath_nan) (MD := spec_MathDefs32)
           star_mesh centroid 2%N 0%N _ 1%nat).
  - vm_compute. reflexivity.
  - vm_compute. reflexivity.
  - vm_compute. reflexivity.
Defined.

(* ================================================================= *)
(** * C5: the sentinel of outer tetrahedra *)

Section OuterSentinel.
Context (L : Cmath double) (MD : MathDefs float).

(** The sentinel (0, 0, 0, -1) is not all non-negative, and the cascade
    reads slot 3 on it. *)
Lemma sentinel_cascade :
  let sentinel : Vector4.t float :=
    Vector4.make (num 0) (num 0) (num 0) (num (-1)) in
  all_non_negative sentinel = false /\ chosen_slot sentinel = 3%nat.
Proof. split; vm_compute; reflexivity. Qed.

(** C5: for an outer tetrahedron [tetIndex] with base triangle (p1, p2, p3)
    and a position with [normal . (position - p1) < 0],
    [GetOuterBarycentricCoords] returns (0, 0, 0, -1); the iteration of the
    walk at [tetIndex] then assigns neighbor slot 3 to the hint, which, by
    the construction of the outer shell, is an inner tetrahedron. *)
Theorem outer_sentinel_steps_through_slot3
  (m : TetrahedralMesh.t float) (tetIndex : N) (position : Vector3.t float)
  (tetrahedron : Tetrahedron.t float) (p1 p2 p3 : Vector3.t float) :
  (numInnerTetrahedrons_ m <= tetIndex)%N ->
  at_ (tetrahedrons_ m) tetIndex = Done tetrahedron ->
  at_ (vertices_ m) (get4 (Tetrahedron.indices_ tetrahedron) 0) = Done p1 ->
  at_ (vertices_ m) (get4 (Tetrahedron.indices_ tetrahedron) 1) = Done p2 ->
  at_ (vertices_ m) (get4 (Tetrahedron.indices_ tetrahedron) 2) = Done p3 ->
  (Vector3.DotProduct
     (Vector3.CrossProduct (Vector3.minus p2 p1) (Vector3.minus p3 p1))
     (Vector3.minus position p1) <? num 0)%fl = true ->
  GetOuterBarycentricCoords m tetIndex position
    = Done (Vector4.make (num 0) (num 0) (num 0) (num (-1)))
  /\ walk_iteration m position tetIndex
    = Done (Stepped (get4 (Tetrahedron.neighbors_ tetrahedron) 3))
  /\ (outer_slot3_is_inner m ->
      (get4 (Tetrahedron.neighbors_ tetrahedron) 3
         < numInnerTetrahedrons_ m)%N).
Proof.
  intros Houter Htet H1 H2 H3 Hside.
  assert (Hsentinel : GetOuterBarycentricCoords m tetIndex position
            = Done (Vector4.make (num 0) (num 0) (num 0) (num (-1)))).
  { unfold GetOuterBarycentricCoords. rewrite Htet. cbn [bind].
    rewrite H1. cbn [bind]. rewrite H2. cbn [bind]. rewrite H3. cbn [bind].
    unfold inner_side. rewrite Hside. reflexivity. }
  split; [exact Hsentinel|]. split.
  - unfold walk_iteration, GetBarycentricCoords.
    rewrite (proj2 (N.ltb_ge _ _) Houter), Hsentinel. cbn [bind].
    destruct sentinel_cascade as [-> Hslot].
    unfold neighbor_across. rewrite Htet. cbn [bind]. rewrite Hslot.
    reflexivity.
  - intros Hshell. exact (Hshell _ _ Houter Htet).
Qed.
End OuterSentinel.

Lemma outer_sentinel_steps_through_slot3_witness :
  GetOuterBarycentricCoords (L := cmath_nan) (MD := spec_MathDefs32)
    shell_mesh 1 (point 0 0 0)
    = Done (Vector4.make (num 0) (num 0) (num 0) (num (-1)))
  /\ walk_iteration (L := cmath_nan) (MD := spec_MathDefs32)
       shell_mesh (point 0 0 0) 1
    = Done (Stepped 0%N)
  /\ (outer_slot3_is_inner (F := float) shell_mesh -> (0 < 1)%N).
Proof.
  apply (outer_sentinel_steps_through_slot3 cmath_nan spec_MathDefs32
           shell_mesh 1%N (point 0 0 0)
           (outer_cell 1 2 3 (Array4 none none none 0%N))
           (point 1 0 0) (point 0 1 0) (point 0 0 1)).
  - vm_compute. discriminate.
  - vm_compute. reflexivity.
  - vm_compute. reflexivity.
  - vm_compute. reflexivity.
  - vm_compute. reflexivity.
  - vm_compute. reflexivity.
Defined.

(** [shell_mesh] satisfies the outer-shell convention. *)
Example shell_mesh_slot3 : outer_slot3_is_inner (F := float) shell_mesh.
Proof.
  intros tetIndex tetrahedron Houter Htet.
  pose proof (at_Done_lt _ _ _ Htet) as Hlt.
  change (size (tetrahedrons_ (F := float) shell_mesh)) with 2%N in Hlt.
  change (numInnerTetrahedrons_ (F := float) shell_mesh) with 1%N in *.
  assert (tetIndex = 1%N) as -> by lia.
  vm_compute in Htet. injection Htet as <-. reflexivity.
Qed.

(* ================================================================= *)
(** * C6: the empty mesh *)

Section EmptyMesh.
Context {F D : Type} {SF : Scalar F} {SD : Scalar D}.
Context {C : Casts F D} {L : Cmath D} {MD : MathDefs F}.

(** C6: on a mesh without tetrahedra, [GetInterpolationFactors] returns the
    zero vector for every position and every hint, and leaves the hint as it
    was. *)
Theorem empty_mesh_zero_factors
  (m : TetrahedralMesh.t F) (position : Vector3.t F) (tetIndexHint : N) :
  tetrahedrons_ m = [] ->
  GetInterpolationFactors m position tetIndexHint
    = Done (Vector4.make (num 0) (num 0) (num 0) (num 0), tetIndexHint).
Proof.
  intros Hempty.
  unfold GetInterpolationFactors, GetInterpolationFactors_counted.
  rewrite Hempty. reflexivity.
Qed.
End EmptyMesh.

Lemma empty_mesh_zero_factors_witness :
  GetInterpolationFactors (L := cmath_nan) (MD := spec_MathDefs32)
    empty_mesh (point 1 2 3) 7
  = Done (Vector4.make (num 0) (num 0) (num 0) (num 0), 7%N).
Proof.
  apply (empty_mesh_zero_factors (L := cmath_nan) (MD := spec_MathDefs32)
           empty_mesh (point 1 2 3) 7%N).
  reflexivity.
Defined.

(* ================================================================= *)
(** * C7: distance to a circumsphere *)

Lemma SFltb_from_zero (x y : spec_float) :
  SFeqb x (S754_zero false) = true ->
  SFltb (S754_zero false) y = true ->
  SFltb x y = true.
Proof.
  unfold SFeqb, SFltb.
  destruct x as [s|s| |s m e]; simpl; try discriminate.
  - intros _. now destruct y.
  - now destruct s.
  - now destruct s.
Qed.

Section Circumsphere.
Context (MD : MathDefs float).
Local Open Scope fl_scope.

(** C7: [Distance] is [sqrt] of the squared length of [position - center],
    minus the radius, all in double precision; [IsInsideCircumsphere]
    answers whether that distance is below [M_LARGE_EPSILON]; so, with a
    positive [M_LARGE_EPSILON], a position at distance zero is inside. *)
Theorem inside_circumsphere_is_distance_test
  (ctx : DelaunayContext.t double) (tetIndex : N)
  (position : Vector3.t float) (sphere : HighPrecisionSphere.t double) :
  at_ (DelaunayContext.circumspheres_ ctx) tetIndex = Done sphere ->
  let center := HighPrecisionVector3.data_ (HighPrecisionSphere.center_ sphere) in
  let dx : double := widen (Vector3.x_ position) - a3_0 center in
  let dy : double := widen (Vector3.y_ position) - a3_1 center in
  let dz : double := widen (Vector3.z_ position) - a3_2 center in
  let distance : double := HighPrecisionSphere.Distance sphere position in
  distance
    = fsqrt (num 0 + dx * dx + dy * dy + dz * dz)
      - HighPrecisionSphere.radius_ sphere
  /\ DelaunayContext.IsInsideCircumsphere ctx tetIndex position
     = Done (distance <? widen M_LARGE_EPSILON)
  /\ ((num 0 <? (widen M_LARGE_EPSILON : double)) = true ->
      (distance =? num 0) = true ->
      DelaunayContext.IsInsideCircumsphere ctx tetIndex position = Done true).
Proof.
  intros Hsphere center dx dy dz distance.
  assert (Htest : DelaunayContext.IsInsideCircumsphere ctx tetIndex position
                  = Done (distance <? widen M_LARGE_EPSILON)).
  { unfold DelaunayContext.IsInsideCircumsphere. now rewrite Hsphere. }
  split; [reflexivity|]. split; [exact Htest|].
  intros Hpos Hzero. rewrite Htest. f_equal.
  exact (SFltb_from_zero _ _ Hzero Hpos).
Qed.
End Circumsphere.

Lemma inside_circumsphere_is_distance_test_witness :
  DelaunayContext.IsInsideCircumsphere (MD := spec_MathDefs32)
    (unit_context : DelaunayContext.t double) 0 (point 1 0 0)
  = Done true.
Proof.
  destruct (inside_circumsphere_is_distance_test spec_MathDefs32
              unit_context 0%N (point 1 0 0) unit_sphere eq_refl)
    as (_ & _ & Hinside).
  apply Hinside; vm_compute; reflexivity.
Defined.

(* ================================================================= *)
(** * Normalisation of surface triangles, in any arithmetic *)

(** Whatever the scalar type, [Normalize] exchanges slots 0 and 1 of the
    indices and of the neighbors exactly when the orientation it computes is
    below zero. *)
Lemma Normalize_swaps_when_negative {F : Type} `{Scalar F}
  (tri : TetrahedralMeshSurfaceTriangle.t) (vertices : list (Vector3.t F))
  (p0 p1 p2 p3 : Vector3.t F) :
  at_ vertices (TetrahedralMeshSurfaceTriangle.unusedIndex_ tri) = Done p0 ->
  at_ vertices (get3 (TetrahedralMeshSurfaceTriangle.indices_ tri) 0)
    = Done p1 ->
  at_ vertices (get3 (TetrahedralMeshSurfaceTriangle.indices_ tri) 1)
    = Done p2 ->
  at_ vertices (get3 (TetrahedralMeshSurfaceTriangle.indices_ tri) 2)
    = Done p3 ->
  TetrahedralMeshSurfaceTriangle.Normalize tri vertices
  = Done (if (TetrahedralMeshSurfaceTriangle.orientation p0 p1 p2 p3
                <? num 0)%fl
          then TetrahedralMeshSurfaceTriangle.make
                 (TetrahedralMeshSurfaceTriangle.swap01
                    (TetrahedralMeshSurfaceTriangle.indices_ tri))
                 (TetrahedralMeshSurfaceTriangle.unusedIndex_ tri)
                 (TetrahedralMeshSurfaceTriangle.swap01
                    (TetrahedralMeshSurfaceTriangle.neighbors_ tri))
                 (TetrahedralMeshSurfaceTriangle.tetIndex_ tri)
                 (TetrahedralMeshSurfaceTriangle.tetFace_ tri)
          else tri).
Proof.
  intros H0 H1 H2 H3. unfold TetrahedralMeshSurfaceTriangle.Normalize.
  rewrite H0. cbn [bind]. rewrite H1. cbn [bind].
  rewrite H2. cbn [bind]. rewrite H3. cbn [bind].
  now destruct (_ <? _)%fl.
Qed.

(** In single precision: the face (1, 2, 3) of the unit tetrahedron is
    wound away from vertex 0 and is left as it is; with its first two
    vertices exchanged it is wound towards vertex 0 and is put back. *)
Example Normalize_face0 :
  TetrahedralMeshSurfaceTriangle.Normalize (F := float) face0 example_vertices
  = Done face0.
Proof. vm_compute. reflexivity. Qed.

Example Normalize_face0_flipped :
  TetrahedralMeshSurfaceTriangle.Normalize (F := float)
    face0_flipped example_vertices
  = Done (TetrahedralMeshSurfaceTriangle.make (Array3 1 2 3)%N 0%N
            (Array3 11 10 12)%N 0%N 0%N).
Proof. vm_compute. reflexivity. Qed.

(* ================================================================= *)
(** * Exact arithmetic and rounding: C4, C8, C9 *)

Section Exact.
Local Open Scope R_scope.

Lemma num_R (n : Z) : num n = IZR n.
Proof. unfold num. simpl. ring. Qed.

Lemma ea_max_R (d : R) : ea_max (num 0) d = Rmax 0 d.
Proof.
  unfold ea_max. rewrite num_R. simpl. unfold Rltb, Rmax.
  destruct (Rlt_dec 0 d), (Rle_dec 0 d); try reflexivity; lra.
Qed.

(** Every root [y] of a*y^2 + b*y + c has 2*a*y + b between the two square
    roots of the discriminant. *)
Lemma quadratic_root_bound (a b c s y : R) :
  0 <= s -> s * s = b * b - 4 * a * c ->
  a * y * y + b * y + c = 0 ->
  - s <= 2 * a * y + b <= s.
Proof. intros Hs Hss Hy. split; nra. Qed.

(** [SolveQuadratic] over the reals, branch by branch. *)
Lemma SolveQuadratic_R (MD : MathDefs R) (a b c : R) :
  SolveQuadratic (Vector3.make a b c)
  = if Rltb (Rabs a) M_EPSILON then - c / b
    else if Rltb 0 a
         then (- b + sqrt (Rmax 0 (b * b - 4 * a * c))) / (2 * a)
         else (- b - sqrt (Rmax 0 (b * b - 4 * a * c))) / (2 * a).
Proof.
  unfold SolveQuadratic. cbn [Vector3.x_ Vector3.y_ Vector3.z_].
  rewrite ea_max_R, !num_R. reflexivity.
Qed.

(** Evaluates the floats of a goal to the real numbers they stand for. *)
Ltac value_of_floats :=
  cbv -[Rplus Rminus Rmult Rdiv Rinv Ropp IZR Rle Rlt Rge Rgt].

(** C4, as amended.  In every arithmetic the code is read in, binary32
    included: [SolveQuadratic] returns -c/b when |a| < epsilon; otherwise,
    with d the computed b*b - 4*a*c and D = d when 0 < d and D = 0 when not
    (so a negative d, or a NaN, is replaced by 0 before the square root is
    taken), it returns (-b + sqrt D)/(2a) when a > 0 and
    (-b - sqrt D)/(2a) when not.  In exact arithmetic with a positive
    tolerance, when |a| is not below epsilon and b^2 - 4ac >= 0, this value
    is a root of a*x^2 + b*x + c and no root is larger. *)
Theorem SolveQuadratic_clamped_largest_root :
  (forall (F : Type) (SF : Scalar F) (MD : MathDefs F) (a b c : F),
     let x := SolveQuadratic (Vector3.make a b c) in
     let d := (b * b - num 4 * a * c)%fl in
     let D := if (num 0 <? d)%fl then d else num 0 in
     ((fabs a <? M_EPSILON)%fl = true -> x = (- c / b)%fl)
     /\ ((fabs a <? M_EPSILON)%fl = false ->
         ((a >? num 0)%fl = true ->
          x = ((- b + fsqrt D) / (num 2 * a))%fl)
         /\ ((a >? num 0)%fl = false ->
             x = ((- b - fsqrt D) / (num 2 * a))%fl)))
  /\ (forall (MD : MathDefs R) (a b c : R),
        0 < M_EPSILON -> M_EPSILON <= Rabs a -> 0 <= b * b - 4 * a * c ->
        let x := SolveQuadratic (Vector3.make a b c) in
        a * x * x + b * x + c = 0
        /\ forall y : R, a * y * y + b * y + c = 0 -> y <= x).
Proof.
  split.
  - intros F SF MD a b c x d D. unfold x, SolveQuadratic, ea_max.
    cbn [Vector3.x_ Vector3.y_ Vector3.z_]. fold d. fold D.
    split.
    + intros Hsmall. now rewrite Hsmall.
    + intros Hbig. rewrite Hbig.
      split; intros Hsign; now rewrite Hsign.
  - intros MD a b c Heps Hbig Hdisc x.
    pose proof (SolveQuadratic_R MD a b c) as Hx. fold x in Hx.
    apply Rltb_false in Hbig. rewrite Hbig in Hx.
    assert (Ha : a <> 0).
    { intros ->. rewrite Rabs_R0 in Hbig. apply Rltb_false in Hbig. lra. }
    set (D := Rmax 0 (b * b - 4 * a * c)) in *.
    assert (HD : D = b * b - 4 * a * c) by (unfold D; apply Rmax_right; lra).
    pose proof (sqrt_pos D) as Hs.
    assert (Hss : sqrt D * sqrt D = b * b - 4 * a * c)
      by (rewrite sqrt_sqrt; lra).
    set (s := sqrt D) in *.
    assert (Hroot : forall t, 2 * a * x = t ->
                              t * t + 2 * b * t + 4 * a * c = 0 ->
                              a * x * x + b * x + c = 0).
    { intros t Ht Hquad.
      assert (4 * a * (a * x * x + b * x + c) = 0).
      { replace (4 * a * (a * x * x + b * x + c))
          with ((2 * a * x) * (2 * a * x) + 2 * b * (2 * a * x) + 4 * a * c)
          by ring.
        now rewrite Ht. }
      nra. }
    destruct (Rtotal_order 0 a) as [Hap|[Haz|Han]]; [|lra|].
    + assert (H2 : 2 * a * x = - b + s).
      { rewrite Hx, (proj2 (Rltb_true 0 a) Hap). field. lra. }
      split.
      * apply (Hroot _ H2). nra.
      * intros y Hy.
        destruct (quadratic_root_bound a b c s y Hs Hss Hy). nra.
    + assert (H2 : 2 * a * x = - b - s).
      { rewrite Hx, (proj2 (Rltb_false 0 a)) by lra. field. lra. }
      split.
      * apply (Hroot _ H2). nra.
      * intros y Hy.
        destruct (quadratic_root_bound a b c s y Hs Hss Hy). nra.
Qed.

(** C4 as stated fails in single precision.  For x^2 + 10000 x - 1, whose
    discriminant 100000004 is positive, the code rounds the discriminant to
    100000000, takes the square root 10000 and returns (-10000 + 10000)/2
    = 0, which is not a root: the polynomial is -1 there.  (The largest
    root is about 0.0001.) *)
Lemma SolveQuadratic_cancellation_counterexample :
  ~ (forall a b c : float,
       (fabs a <? M_EPSILON (MathDefs := spec_MathDefs32))%fl = false ->
       0 <= ieee_value b * ieee_value b - 4 * ieee_value a * ieee_value c ->
       let x := ieee_value (SolveQuadratic (MD := spec_MathDefs32)
                              (Vector3.make a b c)) in
       ieee_value a * x * x + ieee_value b * x + ieee_value c = 0).
Proof.
  intros Hclaim.
  specialize (Hclaim (num 1) (num 10000) (num (-1))).
  assert (Hx : SolveQuadratic (MD := spec_MathDefs32)
                 (Vector3.make (num 1) (num 10000) (num (-1)))
               = (IEEE (S754_zero false) : float))
    by (vm_compute; reflexivity).
  rewrite Hx in Hclaim.
  revert Hclaim. value_of_floats. intros Hclaim.
  assert (Hroot := Hclaim eq_refl ltac:(lra)). lra.
Qed.

(** In single precision x^2 + 2x + 5, of discriminant -16, gives
    (-2 + sqrt 0)/2 = -1 and not a NaN; in exact arithmetic
    x^2 - 3x + 2 = (x - 1)(x - 2) gives a root, and no root is larger. *)
Lemma SolveQuadratic_clamped_largest_root_witness :
  SolveQuadratic (MD := spec_MathDefs32)
    (Vector3.make (num 1) (num 2) (num 5))
  = (num (-1) : float)
  /\ (let x := SolveQuadratic (MD := spec_MathDefsR) (Vector3.make 1 (-3) 2) in
      1 * x * x + (-3) * x + 2 = 0
      /\ forall y : R, 1 * y * y + (-3) * y + 2 = 0 -> y <= x).
Proof.
  destruct SolveQuadratic_clamped_largest_root as [Hany Hexact].
  split.
  - destruct (Hany float _ spec_MathDefs32 (num 1) (num 2) (num 5))
      as [_ Hbig].
    destruct Hbig as [Hpositive _]; [vm_compute; reflexivity|].
    rewrite Hpositive by (vm_compute; reflexivity).
    vm_compute. reflexivity.
  - apply (Hexact spec_MathDefsR 1 (-3) 2).
    + simpl. lra.
    + simpl. rewrite Rabs_R1. lra.
    + lra.
Defined.

(** C9: for a tetrahedron index inside the array whose base vertex exists,
    [GetInnerBarycentricCoords] returns (1 - cx - cy - cz, cx, cy, cz) for
    the coordinates (cx, cy, cz) = matrix * (position - base), and these
    four components sum to 1, wherever the position lies. *)
Theorem inner_weights_sum_to_one
  (m : TetrahedralMesh.t R) (tetIndex : N) (position : Vector3.t R)
  (tetrahedron : Tetrahedron.t R) (basePosition : Vector3.t R) :
  at_ (tetrahedrons_ m) tetIndex = Done tetrahedron ->
  at_ (vertices_ m) (get4 (Tetrahedron.indices_ tetrahedron) 0)
    = Done basePosition ->
  exists cx cy cz : R,
    GetInnerBarycentricCoords m tetIndex position
      = Done (Vector4.make (1 - cx - cy - cz) cx cy cz)
    /\ Vector3.make cx cy cz
       = Matrix3x4.apply (Tetrahedron.matrix_ tetrahedron)
           (Vector3.minus position basePosition)
    /\ (1 - cx - cy - cz) + cx + cy + cz = 1.
Proof.
  intros Htet Hbase.
  unfold GetInnerBarycentricCoords. rewrite Htet. cbn [bind].
  rewrite Hbase. cbn [bind].
  set (coords := Matrix3x4.apply _ _).
  exists (Vector3.x_ coords), (Vector3.y_ coords), (Vector3.z_ coords).
  split; [|split].
  - rewrite num_R. reflexivity.
  - now destruct coords.
  - ring.
Qed.

Lemma inner_weights_sum_to_one_witness :
  exists cx cy cz : R,
    GetInnerBarycentricCoords star_mesh 1 (point 3 (-2) 5)
      = Done (Vector4.make (1 - cx - cy - cz) cx cy cz)
    /\ Vector3.make cx cy cz
       = Matrix3x4.apply
           (Tetrahedron.matrix_ (beyond_face0 (Array4 0%N none none none)))
           (Vector3.minus (point 3 (-2) 5) (point 1 1 1))
    /\ (1 - cx - cy - cz) + cx + cy + cz = 1.
Proof.
  apply (inner_weights_sum_to_one star_mesh 1%N (point 3 (-2) 5)
           (beyond_face0 (Array4 0%N none none none)) (point 1 1 1)).
  - reflexivity.
  - reflexivity.
Defined.

Import TetrahedralMeshSurfaceTriangle.

Lemma orientation_swap (p0 p1 p2 p3 : Vector3.t R) :
  orientation p0 p2 p1 p3 = - orientation p0 p1 p2 p3.
Proof.
  destruct p0, p1, p2, p3. unfold orientation. simpl. ring.
Qed.

(** C8, as amended.  With p0 the unused vertex and p1, p2, p3 the
    triangle's vertices.  In every arithmetic the code is read in, binary32
    included: [Normalize] exchanges index slots 0 and 1 and neighbor slots
    0 and 1 exactly when the value it computes for
    (p1 - p0) . ((p2 - p1) x (p3 - p1)) compares below zero, and leaves the
    triangle as it was otherwise.  In exact arithmetic that is exactly when
    the product is negative, and for the vertices q1, q2, q3 of the triangle
    it returns, (q1 - p0) . ((q2 - q1) x (q3 - q1)) is non-negative. *)
Theorem Normalize_swaps_on_computed_sign :
  (forall (F : Type) (SF : Scalar F) (tri : TetrahedralMeshSurfaceTriangle.t)
          (vertices : list (Vector3.t F)) (p0 p1 p2 p3 : Vector3.t F),
     at_ vertices (unusedIndex_ tri) = Done p0 ->
     at_ vertices (get3 (indices_ tri) 0) = Done p1 ->
     at_ vertices (get3 (indices_ tri) 1) = Done p2 ->
     at_ vertices (get3 (indices_ tri) 2) = Done p3 ->
     Normalize tri vertices
     = Done (if (orientation p0 p1 p2 p3 <? num 0)%fl
             then make (swap01 (indices_ tri)) (unusedIndex_ tri)
                       (swap01 (neighbors_ tri)) (tetIndex_ tri)
                       (tetFace_ tri)
             else tri))
  /\ (forall (tri : TetrahedralMeshSurfaceTriangle.t)
             (vertices : list (Vector3.t R)) (p0 p1 p2 p3 : Vector3.t R),
        at_ vertices (unusedIndex_ tri) = Done p0 ->
        at_ vertices (get3 (indices_ tri) 0) = Done p1 ->
        at_ vertices (get3 (indices_ tri) 1) = Done p2 ->
        at_ vertices (get3 (indices_ tri) 2) = Done p3 ->
        exists tri' : TetrahedralMeshSurfaceTriangle.t,
          Normalize tri vertices = Done tri'
          /\ (orientation p0 p1 p2 p3 < 0 ->
              tri' = make (swap01 (indices_ tri)) (unusedIndex_ tri)
                          (swap01 (neighbors_ tri)) (tetIndex_ tri)
                          (tetFace_ tri))
          /\ (0 <= orientation p0 p1 p2 p3 -> tri' = tri)
          /\ exists q1 q2 q3 : Vector3.t R,
               at_ vertices (unusedIndex_ tri') = Done p0
               /\ at_ vertices (get3 (indices_ tri') 0) = Done q1
               /\ at_ vertices (get3 (indices_ tri') 1) = Done q2
               /\ at_ vertices (get3 (indices_ tri') 2) = Done q3
               /\ 0 <= Vector3.DotProduct (Vector3.minus q1 p0)
                         (Vector3.CrossProduct (Vector3.minus q2 q1)
                                               (Vector3.minus q3 q1))).
Proof.
  split.
  - intros F SF tri vertices p0 p1 p2 p3 H0 H1 H2 H3.
    unfold Normalize. rewrite H0. cbn [bind]. rewrite H1. cbn [bind].
    rewrite H2. cbn [bind]. rewrite H3. cbn [bind].
    now destruct (_ <? _)%fl.
  - intros tri vertices p0 p1 p2 p3 H0 H1 H2 H3.
    unfold Normalize. rewrite H0. cbn [bind]. rewrite H1. cbn [bind].
    rewrite H2. cbn [bind]. rewrite H3. cbn [bind].
    rewrite num_R.
    destruct (ltb (orientation p0 p1 p2 p3) 0) eqn:Hlt.
    + apply Rltb_true in Hlt. eexists. split; [reflexivity|].
      split; [reflexivity|]. split; [lra|].
      exists p2, p1, p3.
      split; [exact H0|]. split; [exact H2|]. split; [exact H1|].
      split; [exact H3|].
      change (0 <= orientation p0 p2 p1 p3).
      rewrite orientation_swap. lra.
    + apply Rltb_false in Hlt. exists tri. split; [reflexivity|].
      split; [lra|]. split; [reflexivity|].
      exists p1, p2, p3. repeat split; assumption.
Qed.

(** C8 as stated fails in single precision.  The four points of
    [sliver_vertices] have integer coordinates, which single precision
    holds exactly, and (p1 - p0) . ((p2 - p1) x (p3 - p1)) is 681: the
    triangle (1, 2, 3) is wound away from vertex 0 and is not degenerate.
    The code computes -2048 for this product, exchanges the first two
    vertices, and returns the triangle (2, 1, 3), for which the product
    is -681, and -1024 as the code computes it: the normal of the triangle
    returned points towards the unused vertex. *)
Lemma Normalize_rounding_counterexample :
  ~ (forall (tri tri' : TetrahedralMeshSurfaceTriangle.t)
            (vertices : list (Vector3.t float))
            (p0 p1 p2 p3 q1 q2 q3 : Vector3.t float),
       at_ vertices (unusedIndex_ tri) = Done p0 ->
       at_ vertices (get3 (indices_ tri) 0) = Done p1 ->
       at_ vertices (get3 (indices_ tri) 1) = Done p2 ->
       at_ vertices (get3 (indices_ tri) 2) = Done p3 ->
       orientation (Vector3_value p0) (Vector3_value p1) (Vector3_value p2)
         (Vector3_value p3) <> 0 ->
       Normalize tri vertices = Done tri' ->
       at_ vertices (get3 (indices_ tri') 0) = Done q1 ->
       at_ vertices (get3 (indices_ tri') 1) = Done q2 ->
       at_ vertices (get3 (indices_ tri') 2) = Done q3 ->
       (num 0 <=? orientation p0 q1 q2 q3)%fl = true
       \/ 0 <= orientation (Vector3_value p0) (Vector3_value q1)
                 (Vector3_value q2) (Vector3_value q3)).
Proof.
  intros Hclaim.
  assert (Hbefore :
    orientation
      (Vector3_value (point (F := float) (-1481) (-977) 817))
      (Vector3_value (point (F := float) 366 (-1423) (-1165)))
      (Vector3_value (point (F := float) (-810) 1466 887))
      (Vector3_value (point (F := float) (-4505) 2358 4852)) = 681)
    by (value_of_floats; lra).
  assert (Hafter :
    orientation
      (Vector3_value (point (F := float) (-1481) (-977) 817))
      (Vector3_value (point (F := float) (-810) 1466 887))
      (Vector3_value (point (F := float) 366 (-1423) (-1165)))
      (Vector3_value (point (F := float) (-4505) 2358 4852)) = -681)
    by (value_of_floats; lra).
  destruct (Hclaim face0
              (make (Array3 2 1 3)%N 0%N (Array3 11 10 12)%N 0%N 0%N)
              sliver_vertices
              (point (-1481) (-977) 817) (point 366 (-1423) (-1165))
              (point (-810) 1466 887) (point (-4505) 2358 4852)
              (point (-810) 1466 887) (point 366 (-1423) (-1165))
              (point (-4505) 2358 4852))
    as [Hcomputed|Hexact].
  - reflexivity.
  - reflexivity.
  - reflexivity.
  - reflexivity.
  - rewrite Hbefore. lra.
  - vm_compute. reflexivity.
  - reflexivity.
  - reflexivity.
  - reflexivity.
  - vm_compute in Hcomputed. discriminate Hcomputed.
  - rewrite Hafter in Hexact. lra.
Qed.

(** In single precision the sliver is exchanged on the sign of the rounded
    product (-2048, where the product is 681).  In exact arithmetic the
    face (2, 1, 3) of the unit tetrahedron is wound towards vertex 0:
    [Normalize] exchanges its first two slots. *)
Lemma Normalize_swaps_on_computed_sign_witness :
  Normalize (F := float) face0 sliver_vertices
  = Done (make (Array3 2 1 3)%N 0%N (Array3 11 10 12)%N 0%N 0%N)
  /\ exists tri' : TetrahedralMeshSurfaceTriangle.t,
       Normalize face0_flipped (example_vertices (F := R)) = Done tri'
       /\ (orientation (F := R) (point 0 0 0) (point 0 1 0) (point 1 0 0)
             (point 0 0 1) < 0 ->
           tri' = make (Array3 1 2 3)%N 0%N (Array3 11 10 12)%N 0%N 0%N)
       /\ (0 <= orientation (F := R) (point 0 0 0) (point 0 1 0)
                  (point 1 0 0) (point 0 0 1) ->
           tri' = face0_flipped)
       /\ exists q1 q2 q3 : Vector3.t R,
            at_ example_vertices (unusedIndex_ tri') = Done (point 0 0 0)
            /\ at_ example_vertices (get3 (indices_ tri') 0) = Done q1
            /\ at_ example_vertices (get3 (indices_ tri') 1) = Done q2
            /\ at_ example_vertices (get3 (indices_ tri') 2) = Done q3
            /\ 0 <= Vector3.DotProduct (Vector3.minus q1 (point 0 0 0))
                      (Vector3.CrossProduct (Vector3.minus q2 q1)
                                            (Vector3.minus q3 q1)).
Proof.
  destruct Normalize_swaps_on_computed_sign as [Hany Hexact].
  split.
  - rewrite (Hany float _ face0 sliver_vertices
               (point (-1481) (-977) 817) (point 366 (-1423) (-1165))
               (point (-810) 1466 887) (point (-4505) 2358 4852)
               eq_refl eq_refl eq_refl eq_refl).
    vm_compute. reflexivity.
  - apply (Hexact face0_flipped example_vertices
             (point 0 0 0) (point 0 1 0) (point 1 0 0) (point 0 0 1));
      reflexivity.
Defined.

Example face0_flipped_is_inward :
  orientation (F := R) (point 0 0 0) (point 0 1 0) (point 1 0 0) (point 0 0 1)
  = -1.
Proof. unfold orientation, point. simpl. ring. Qed.
End Exact.

(* ================================================================= *)
(** * Sampling *)

Section Sampling.
Context {F D : Type} {SF : Scalar F} {SD : Scalar D}.
Context {C : Casts F D} {L : Cmath D} {MD : MathDefs F}.
Context {V : Type} {SV : SampleValue V F}.

(** What [Sample] returns when the embedded call returns.  Let the call of
    [GetInterpolationFactors] return [weights] and leave the hint at [h'].  If [h'] is not below the number
    of tetrahedra, [Sample] returns the value-initialised element, whatever
    the container (even an empty one, where any read would be out of
    bounds).  Otherwise, with c0, c1, c2 the container entries at the first
    three vertex slots of tetrahedron [h'], it returns
    ((init + c0*w0) + c1*w1) + c2*w2 when [h'] is an outer tetrahedron, not
    reading the entry of slot 3, and that sum plus c3*w3 when [h'] is
    inner. *)
Lemma Sample_by_cases
  (m : TetrahedralMesh.t F) (container : list V) (position : Vector3.t F)
  (h h' : N) (weights : Vector4.t F) :
  GetInterpolationFactors m position h = Done (weights, h') ->
  ((size (tetrahedrons_ m) <= h')%N ->
   Sample m container position h = Done (value_init, h'))
  /\ (forall (tetrahedron : Tetrahedron.t F) (c0 c1 c2 : V),
        at_ (tetrahedrons_ m) h' = Done tetrahedron ->
        at_ container (get4 (Tetrahedron.indices_ tetrahedron) 0) = Done c0 ->
        at_ container (get4 (Tetrahedron.indices_ tetrahedron) 1) = Done c1 ->
        at_ container (get4 (Tetrahedron.indices_ tetrahedron) 2) = Done c2 ->
        ((numInnerTetrahedrons_ m <= h')%N ->
         Sample m container position h
           = Done (weighted3 c0 c1 c2 weights, h'))
        /\ (forall c3 : V,
              (h' < numInnerTetrahedrons_ m)%N ->
              at_ container (get4 (Tetrahedron.indices_ tetrahedron) 3)
                = Done c3 ->
              Sample m container position h
                = Done (value_add (weighted3 c0 c1 c2 weights)
                          (value_scale c3 (Vector4.get weights 3)), h'))).
Proof.
  intros Hwalk. unfold Sample. rewrite Hwalk. cbn [bind]. split.
  - intros Hout. now rewrite (proj2 (N.ltb_ge _ _) Hout).
  - intros tetrahedron c0 c1 c2 Htet H0 H1 H2.
    rewrite (proj2 (N.ltb_lt _ _) (at_Done_lt _ _ _ Htet)), Htet.
    cbn [bind for_each].
    rewrite H0. cbn [bind]. rewrite H1. cbn [bind]. rewrite H2. cbn [bind].
    split.
    + intros Houter. now rewrite (proj2 (N.ltb_ge _ _) Houter).
    + intros c3 Hinner H3.
      rewrite (proj2 (N.ltb_lt _ _) Hinner), H3. reflexivity.
Qed.
End Sampling.

(** Two instances: on the empty mesh the hint 7 stays outside the (empty)
    array and the result is the initial value although the container is
    empty; on [star_mesh] the walk for the centroid from hint 2 ends in the
    inner tetrahedron 0, and sampling the container (0, 4, 8, 12, ...)
    gives 0/4 + 4/4 + 8/4 + 12/4 = 6. *)
Example Sample_by_cases_examples :
  Sample (L := cmath_nan) (MD := spec_MathDefs32) (V := float)
    empty_mesh [] (point 1 2 3) 7
  = Done (num 0, 7%N)
  /\ Sample (L := cmath_nan) (MD := spec_MathDefs32) (V := float)
       star_mesh [num 0; num 4; num 8; num 12; num 16; num 20; num 24]
       centroid 2
     = Done (num 6, 0%N).
Proof.
  split.
  - destruct (Sample_by_cases (L := cmath_nan) (MD := spec_MathDefs32)
                (V := float) empty_mesh [] (point 1 2 3) 7%N 7%N
                (Vector4.make (num 0) (num 0) (num 0) (num 0)) eq_refl)
      as [Houtside _].
    apply Houtside. vm_compute. discriminate.
  - assert (Hwalk : GetInterpolationFactors (L := cmath_nan)
                      (MD := spec_MathDefs32) star_mesh centroid 2
                    = Done (Vector4.make (lit 1 (-2)) (lit 1 (-2))
                              (lit 1 (-2)) (lit 1 (-2)), 0%N))
      by (vm_compute; reflexivity).
    destruct (Sample_by_cases (V := float) star_mesh
                [num 0; num 4; num 8; num 12; num 16; num 20; num 24]
                centroid 2%N 0%N _ Hwalk)
      as [_ Hinside].
    destruct (Hinside (unit_tetrahedron (Array4 1%N 2%N none none))
                (num 0) (num 4) (num 8) eq_refl eq_refl eq_refl eq_refl)
      as [_ Hinner].
    rewrite (Hinner (num 12) eq_refl eq_refl).
    vm_compute. reflexivity.
Qed.

(* ================================================================= *)
(** * The walk of GetInterpolationFactors: length and result *)

Section WalkBounds.
Context {F D : Type} {SF : Scalar F} {SD : Scalar D}.
Context {C : Casts F D} {L : Cmath D} {MD : MathDefs F}.

(** A walk with [iters] iterations left adds at most [iters] steps, and
    one that adds fewer has returned from inside the loop. *)
Lemma walk_steps (m : TetrahedralMesh.t F) (position : Vector3.t F)
  (iters : nat) :
  forall (h : N) (steps : nat) weights h' steps',
    walk m position iters h steps = Done (weights, h', steps') ->
    (steps' <= steps + iters)%nat
    /\ ((steps' < steps + iters)%nat -> all_non_negative weights = true).
Proof.
  induction iters as [|iters IH]; intros h s w h' s'; simpl; intros Hwalk.
  - apply bind_Done in Hwalk as (w0 & Hw0 & Hret).
    injection Hret as <- <- <-. split; lia.
  - apply bind_Done in Hwalk as (r & Hr & Hrest).
    unfold walk_iteration in Hr.
    apply bind_Done in Hr as (w0 & Hw0 & Hr).
    destruct (all_non_negative w0) eqn:Hpos.
    + injection Hr as <-. injection Hrest as <- <- <-. split; [lia|auto].
    + apply bind_Done in Hr as (next & _ & Hr). injection Hr as <-.
      apply IH in Hrest as [Hle Hloc]. split; [lia|].
      intros Hlt. apply Hloc. lia.
Qed.

(** The weights a call returns are those of the tetrahedron it leaves the
    hint at. *)
Lemma final_hint_weights
  (m : TetrahedralMesh.t F) (position : Vector3.t F) (h h' : N)
  (weights : Vector4.t F) :
  tetrahedrons_ m <> [] ->
  GetInterpolationFactors m position h = Done (weights, h') ->
  GetBarycentricCoords m h' position = Done weights.
Proof.
  intros Hne Hcall. unfold GetInterpolationFactors in Hcall.
  apply bind_Done in Hcall as ([[w0 h0] n0] & Hcounted & Hret).
  injection Hret as <- <-.
  unfold GetInterpolationFactors_counted in Hcounted.
  destruct (tetrahedrons_ m) as [|t0 ts] eqn:Ets; [congruence|].
  rewrite <- Ets in *.
  now apply walk_Done in Hcounted as [Hw _].
Qed.

(** A hint whose tetrahedron contains the position is returned as it is,
    with the weights of that tetrahedron. *)
Lemma query_from_containing_hint
  (m : TetrahedralMesh.t F) (position : Vector3.t F) (h : N)
  (weights : Vector4.t F) :
  (size (tetrahedrons_ m) < 2 ^ 32)%N ->
  GetBarycentricCoords m h position = Done weights ->
  all_non_negative weights = true ->
  GetInterpolationFactors m position h = Done (weights, h).
Proof.
  intros Hsize Hw Hpos.
  pose proof (GetBarycentricCoords_Done_lt _ _ _ _ Hw) as Hlt.
  unfold GetInterpolationFactors, GetInterpolationFactors_counted.
  destruct (tetrahedrons_ m) as [|t0 ts] eqn:Ets.
  - unfold size in Hlt. simpl in Hlt. lia.
  - rewrite <- Ets in *. rewrite (to_unsigned_small _ Hsize).
    rewrite (proj2 (N.leb_gt _ _) Hlt).
    destruct (N.to_nat (size (tetrahedrons_ m))) as [|iters] eqn:En; [lia|].
    simpl. unfold walk_iteration. rewrite Hw. simpl. rewrite Hpos.
    reflexivity.
Qed.

(** X1: A call of [GetInterpolationFactors] assigns the hint at most as many
    times as the mesh has tetrahedra; and on a mesh with tetrahedra, a call
    that made fewer assignments than the iteration limit returned from
    inside the loop, so the weights it returns are all non-negative. *)
Theorem walk_length_bounded
  (m : TetrahedralMesh.t F) (position : Vector3.t F) (h h' : N)
  (weights : Vector4.t F) (steps : nat) :
  GetInterpolationFactors_counted m position h = Done (weights, h', steps) ->
  (N.of_nat steps <= size (tetrahedrons_ m))%N
  /\ ((N.of_nat steps < to_unsigned (size (tetrahedrons_ m)))%N ->
      tetrahedrons_ m <> [] ->
      all_non_negative weights = true).
Proof.
  unfold GetInterpolationFactors_counted.
  destruct (tetrahedrons_ m) as [|t0 ts] eqn:Ets.
  - intros Hret. injection Hret as <- <- <-. split; [simpl; lia|congruence].
  - rewrite <- Ets. intros Hwalk. apply walk_steps in Hwalk as [Hle Hloc].
    assert (Hmod : (to_unsigned (size (tetrahedrons_ m))
                    <= size (tetrahedrons_ m))%N).
    { unfold to_unsigned. apply N.Div0.mod_le. }
    split; [lia|]. intros Hlt _. apply Hloc. lia.
Qed.

(** X2: On a mesh with tetrahedra, whatever hint a call of
    [GetInterpolationFactors] starts from (even one past the end, which is
    reset to 0), the hint it leaves is the index of a tetrahedron of the
    mesh, and the weights it returns are the barycentric coordinates of the
    position in that tetrahedron. *)
Theorem returned_hint_is_valid
  (m : TetrahedralMesh.t F) (position : Vector3.t F) (h h' : N)
  (weights : Vector4.t F) :
  tetrahedrons_ m <> [] ->
  GetInterpolationFactors m position h = Done (weights, h') ->
  (h' < size (tetrahedrons_ m))%N
  /\ exists tetrahedron : Tetrahedron.t F,
       at_ (tetrahedrons_ m) h' = Done tetrahedron
       /\ GetBarycentricCoords m h' position = Done weights.
Proof.
  intros Hne Hcall.
  pose proof (final_hint_weights m position h h' weights Hne Hcall) as Hw.
  pose proof (GetBarycentricCoords_Done_lt _ _ _ _ Hw) as Hlt.
  split; [exact Hlt|].
  destruct (at_lt_Done _ _ Hlt) as [tet Htet]. eauto.
Qed.
End WalkBounds.

(** On [star_mesh], the query (1, 1, 1) from hint 0: one step, across
    face 0 of the unit tetrahedron, into tetrahedron 1, whose vertex 0 is
    the query. *)
Lemma walk_length_bounded_witness :
  GetInterpolationFactors_counted (L := cmath_nan) (MD := spec_MathDefs32)
    star_mesh (point 1 1 1) 0
  = Done (Vector4.make (num 1) (num 0) (num 0) (num 0), 1%N, 1%nat)
  /\ (N.of_nat 1 <= size (tetrahedrons_ (star_mesh (F := float))))%N
  /\ all_non_negative
       (Vector4.make (num 1) (num 0) (num 0) (num 0) : Vector4.t float)
     = true.
Proof.
  assert (Hcall :
    GetInterpolationFactors_counted (L := cmath_nan) (MD := spec_MathDefs32)
      star_mesh (point 1 1 1) 0
    = Done (Vector4.make (num 1) (num 0) (num 0) (num 0), 1%N, 1%nat))
    by (vm_compute; reflexivity).
  destruct (walk_length_bounded star_mesh (point 1 1 1) 0%N 1%N _ 1%nat Hcall)
    as [Hle Hlocated].
  split; [exact Hcall|]. split; [exact Hle|].
  apply Hlocated; [vm_compute; reflexivity|discriminate].
Defined.

(** The same query from the hint 9, past the end of the three
    tetrahedra. *)
Lemma returned_hint_is_valid_witness :
  (1 < size (tetrahedrons_ (star_mesh (F := float))))%N
  /\ exists tetrahedron : Tetrahedron.t float,
       at_ (tetrahedrons_ star_mesh) 1 = Done tetrahedron
       /\ GetBarycentricCoords (L := cmath_nan) (MD := spec_MathDefs32)
            star_mesh 1 (point 1 1 1)
          = Done (Vector4.make (num 1) (num 0) (num 0) (num 0)).
Proof.
  apply (returned_hint_is_valid (L := cmath_nan) (MD := spec_MathDefs32)
           star_mesh (point 1 1 1) 9%N 1%N).
  - discriminate.
  - vm_compute. reflexivity.
Defined.

(* ================================================================= *)
(** * C10: sampling after a step across a face without neighbor *)

Section SampleGuard.
Context {F D : Type} {SF : Scalar F} {SD : Scalar D}.
Context {C : Casts F D} {L : Cmath D} {MD : MathDefs F}.
Context {V : Type} {SV : SampleValue V F}.

(** When [Sample] returns on a mesh with tetrahedra, the hint it leaves is
    the index of a tetrahedron: its test [tetIndexHint < tetrahedrons_.size()]
    fails on the empty mesh only. *)
Lemma Sample_returns_inside
  (m : TetrahedralMesh.t F) (container : list V) (position : Vector3.t F)
  (h h' : N) (value : V) :
  tetrahedrons_ m <> [] ->
  Sample m container position h = Done (value, h') ->
  (h' < size (tetrahedrons_ m))%N.
Proof.
  intros Hne Hsample. unfold Sample in Hsample.
  apply bind_Done in Hsample as ([weights h''] & Hcall & Hrest).
  pose proof (final_hint_weights m position h h'' weights Hne Hcall) as Hw.
  apply GetBarycentricCoords_Done_lt in Hw.
  rewrite (proj2 (N.ltb_lt _ _) Hw) in Hrest.
  apply bind_Done in Hrest as (tet & _ & Hrest).
  apply bind_Done in Hrest as (r & _ & Hrest).
  destruct (h'' <? numInnerTetrahedrons_ m)%N.
  - apply bind_Done in Hrest as (c3 & _ & Hrest).
    injection Hrest as _ <-. exact Hw.
  - injection Hrest as _ <-. exact Hw.
Qed.

(** When the first step of the embedded walk lands on "none", [Sample]
    does not reach its test of the hint: the walk reads the tetrahedron
    array past its end. *)
Lemma Sample_after_step_to_none
  (m : TetrahedralMesh.t F) (container : list V) (position : Vector3.t F)
  (h : N) :
  (size (tetrahedrons_ m) < 2 ^ 32)%N ->
  (h < size (tetrahedrons_ m))%N ->
  walk_iteration m position h = Done (Stepped M_MAX_UNSIGNED) ->
  Sample m container position h = OutOfBounds.
Proof.
  intros Hsize Hlt Hstep. unfold Sample.
  now rewrite (step_to_none_is_out_of_bounds m position h Hsize Hlt Hstep).
Qed.
End SampleGuard.

(** C10 at a concrete input.  The query (0, 0, -1) lies below face 3 of
    the unit tetrahedron of [star_mesh], which has no neighbor.  The walk
    that [Sample] starts from hint 0 assigns "none" to the hint and then
    indexes the tetrahedron array with it: [Sample] does not return the
    value-initialised element, whatever the container.  Its test of the
    hint is passed on every mesh with tetrahedra on which it returns at
    all; only on a mesh without tetrahedra does it return the
    value-initialised element. *)
Theorem Sample_across_none_reads_past_the_end
  (L : Cmath double) (MD : MathDefs float) :
  walk_iteration (F := float) star_mesh (point 0 0 (-1)) 0
    = Done (Stepped M_MAX_UNSIGNED)
  /\ (forall (V : Type) (SV : SampleValue V float) (container : list V),
        Sample (F := float) star_mesh container (point 0 0 (-1)) 0
        = OutOfBounds)
  /\ (forall (V : Type) (SV : SampleValue V float) (container : list V)
             (position : Vector3.t float) (h : N),
        Sample (F := float) empty_mesh container position h
        = Done (value_init, h))
  /\ (forall (V : Type) (SV : SampleValue V float)
             (m : TetrahedralMesh.t float) (container : list V)
             (position : Vector3.t float) (h h' : N) (value : V),
        tetrahedrons_ m <> [] ->
        Sample m container position h = Done (value, h') ->
        (h' < size (tetrahedrons_ m))%N).
Proof.
  assert (Hstep : walk_iteration (F := float) star_mesh (point 0 0 (-1)) 0
                  = Done (Stepped M_MAX_UNSIGNED))
    by (vm_compute; reflexivity).
  split; [exact Hstep|]. split; [|split].
  - intros V SV container.
    apply Sample_after_step_to_none; [| |exact Hstep]; vm_compute; reflexivity.
  - intros V SV container position h. now destruct h.
  - intros V SV m container position h h' value.
    apply Sample_returns_inside.
Qed.

(* ================================================================= *)
(** * Well-formed meshes: every read is inside its array *)

Lemma at_Done_In {A} (v : list A) (i : N) (a : A) :
  at_ v i = Done a -> In a v.
Proof.
  unfold at_. destruct (i <? size v)%N; [|discriminate].
  destruct (nth_error v (N.to_nat i)) eqn:E; [|discriminate].
  intros H. injection H as <-. eapply nth_error_In; eauto.
Qed.

Lemma at_Done_In_skipn {A} (v : list A) (i n : N) (a : A) :
  at_ v i = Done a -> (n <= i)%N -> In a (skipn (N.to_nat n) v).
Proof.
  unfold at_. destruct (i <? size v)%N; [|discriminate].
  destruct (nth_error v (N.to_nat i)) eqn:E; [|discriminate].
  intros H Hle. injection H as <-.
  replace (N.to_nat i) with (N.to_nat n + (N.to_nat i - N.to_nat n))%nat in E
    by lia.
  rewrite <- nth_error_skipn in E. eapply nth_error_In; eauto.
Qed.

Lemma find_false_le (removed : list bool) :
  (find_false removed <= size removed)%N.
Proof.
  unfold size. induction removed as [|b rest IH]; simpl; [lia|].
  destruct b; lia.
Qed.

Lemma find_false_all (removed : list bool) :
  Forall (fun b => b = true) removed -> find_false removed = size removed.
Proof.
  unfold size. induction 1 as [|b rest Hb _ IH]; simpl; [reflexivity|].
  subst b. lia.
Qed.

Section Safety.
Context {F D : Type} {SF : Scalar F} {SD : Scalar D}.
Context {C : Casts F D} {L : Cmath D} {MD : MathDefs F}.

Lemma closed_neighbor (m : TetrahedralMesh.t F) (tet : Tetrahedron.t F)
  (k : nat) :
  neighbors_closed m = true -> In tet (tetrahedrons_ m) ->
  (get4 (Tetrahedron.neighbors_ tet) k < size (tetrahedrons_ m))%N.
Proof.
  unfold neighbors_closed. rewrite forallb_forall. intros Hall Hin.
  specialize (Hall _ Hin). simpl in Hall.
  rewrite !andb_true_iff, !N.ltb_lt in Hall.
  destruct k as [|[|[|k]]]; simpl; tauto.
Qed.

Lemma closed_or_none_neighbor (m : TetrahedralMesh.t F)
  (tet : Tetrahedron.t F) (k : nat) :
  neighbors_closed_or_none m = true -> In tet (tetrahedrons_ m) ->
  (get4 (Tetrahedron.neighbors_ tet) k < size (tetrahedrons_ m))%N
  \/ get4 (Tetrahedron.neighbors_ tet) k = M_MAX_UNSIGNED.
Proof.
  unfold neighbors_closed_or_none. rewrite forallb_forall. intros Hall Hin.
  specialize (Hall _ Hin). simpl in Hall.
  rewrite !andb_true_iff, !orb_true_iff, !N.ltb_lt, !N.eqb_eq in Hall.
  destruct k as [|[|[|k]]]; simpl; tauto.
Qed.

Lemma GetInnerBarycentricCoords_returns (m : TetrahedralMesh.t F) (i : N)
  (position : Vector3.t F) :
  base_vertices_in_range m = true ->
  (i < size (tetrahedrons_ m))%N ->
  exists w, GetInnerBarycentricCoords m i position = Done w.
Proof.
  intros Hbase Hlt. destruct (at_lt_Done _ _ Hlt) as [tet Htet].
  unfold base_vertices_in_range in Hbase. rewrite forallb_forall in Hbase.
  specialize (Hbase _ (at_Done_In _ _ _ Htet)). apply N.ltb_lt in Hbase.
  destruct (at_lt_Done _ _ Hbase) as [p0 Hp0].
  unfold GetInnerBarycentricCoords. rewrite Htet. cbn [bind].
  rewrite Hp0. cbn [bind]. eauto.
Qed.

Lemma GetOuterBarycentricCoords_returns (m : TetrahedralMesh.t F) (i : N)
  (position : Vector3.t F) :
  outer_triangles_in_range m = true ->
  (numInnerTetrahedrons_ m <= i)%N ->
  (i < size (tetrahedrons_ m))%N ->
  exists w, GetOuterBarycentricCoords m i position = Done w.
Proof.
  intros Hout Hge Hlt. destruct (at_lt_Done _ _ Hlt) as [tet Htet].
  unfold outer_triangles_in_range in Hout. rewrite forallb_forall in Hout.
  specialize (Hout _ (at_Done_In_skipn _ _ _ _ Htet Hge)).
  unfold hull_triangle_in_range in Hout. simpl in Hout.
  rewrite !andb_true_iff, !N.ltb_lt in Hout.
  destruct Hout as ((V0 & H0) & (V1 & H1) & (V2 & H2) & _).
  destruct (at_lt_Done _ _ V0) as [p1 Hp1].
  destruct (at_lt_Done _ _ V1) as [p2 Hp2].
  destruct (at_lt_Done _ _ V2) as [p3 Hp3].
  destruct (at_lt_Done _ _ H0) as [n1 Hn1].
  destruct (at_lt_Done _ _ H1) as [n2 Hn2].
  destruct (at_lt_Done _ _ H2) as [n3 Hn3].
  unfold GetOuterBarycentricCoords. rewrite Htet. cbn [bind].
  cbn [get4] in *.
  rewrite Hp1. cbn [bind]. rewrite Hp2. cbn [bind]. rewrite Hp3. cbn [bind].
  destruct (inner_side p1 p2 p3 position); [eauto|].
  rewrite Hn1. cbn [bind]. rewrite Hn2. cbn [bind]. rewrite Hn3. cbn [bind].
  eauto.
Qed.

Lemma GetBarycentricCoords_returns (m : TetrahedralMesh.t F) (i : N)
  (position : Vector3.t F) :
  base_vertices_in_range m = true ->
  outer_triangles_in_range m = true ->
  (i < size (tetrahedrons_ m))%N ->
  exists w, GetBarycentricCoords m i position = Done w.
Proof.
  intros Hbase Hout Hlt. unfold GetBarycentricCoords.
  destruct (i <? numInnerTetrahedrons_ m)%N eqn:E.
  - now apply GetInnerBarycentricCoords_returns.
  - apply N.ltb_ge in E. now apply GetOuterBarycentricCoords_returns.
Qed.

Lemma walk_returns (m : TetrahedralMesh.t F) (position : Vector3.t F)
  (iters : nat) :
  neighbors_closed m = true ->
  base_vertices_in_range m = true ->
  outer_triangles_in_range m = true ->
  forall (h : N) (steps : nat),
    (h < size (tetrahedrons_ m))%N ->
    exists w h' steps', walk m position iters h steps = Done (w, h', steps').
Proof.
  intros Hclosed Hbase Hout.
  induction iters as [|iters IH]; intros h s Hlt; simpl.
  - destruct (GetBarycentricCoords_returns m h position Hbase Hout Hlt)
      as [w ->].
    simpl. eauto.
  - unfold walk_iteration.
    destruct (GetBarycentricCoords_returns m h position Hbase Hout Hlt)
      as [w ->].
    cbn [bind].
    destruct (all_non_negative w); cbn [bind]; [eauto|].
    unfold neighbor_across.
    destruct (at_lt_Done _ _ Hlt) as [tet Htet]. rewrite Htet. cbn [bind].
    apply IH. apply closed_neighbor; [assumption|].
    exact (at_Done_In _ _ _ Htet).
Qed.

Lemma find_walk_returns (m : TetrahedralMesh.t F) (position : Vector3.t F)
  (iters : nat) :
  neighbors_closed_or_none m = true ->
  base_vertices_in_range m = true ->
  forall h : N,
    (h < size (tetrahedrons_ m))%N ->
    exists t, find_walk m position iters h = Done t
              /\ (t = M_MAX_UNSIGNED \/ (t < size (tetrahedrons_ m))%N).
Proof.
  intros Hclosed Hbase.
  induction iters as [|iters IH]; intros h Hlt; simpl; [eauto|].
  destruct (GetInnerBarycentricCoords_returns m h position Hbase Hlt)
    as [w ->].
  cbn [bind].
  destruct (all_non_negative w); [eauto|].
  unfold neighbor_across.
  destruct (at_lt_Done _ _ Hlt) as [tet Htet]. rewrite Htet. cbn [bind].
  destruct (closed_or_none_neighbor m tet (chosen_slot w) Hclosed
              (at_Done_In _ _ _ Htet)) as [Hn|Hn].
  - destruct (_ =? M_MAX_UNSIGNED)%N; [eauto|]. now apply IH.
  - rewrite Hn, N.eqb_refl. eauto.
Qed.

(** On an all-inner mesh a search that ends at a tetrahedron follows the
    path of the query walk. *)
Lemma find_walk_is_walk (m : TetrahedralMesh.t F) (position : Vector3.t F)
  (iters : nat) :
  (size (tetrahedrons_ m) <= numInnerTetrahedrons_ m)%N ->
  forall (h : N) (steps : nat) (t : N),
    find_walk m position iters h = Done t ->
    t <> M_MAX_UNSIGNED ->
    exists steps',
      walk m position iters h steps
      = (w <- GetBarycentricCoords m t position ;; Done (w, t, steps')).
Proof.
  intros Hinner.
  induction iters as [|iters IH]; intros h s t; simpl; intros Hfind Hne.
  - injection Hfind as <-. eauto.
  - apply bind_Done in Hfind as (w & Hw & Hrest).
    assert (Hb : GetBarycentricCoords m h position = Done w).
    { unfold GetBarycentricCoords.
      assert (Hlt : (h < size (tetrahedrons_ m))%N).
      { unfold GetInnerBarycentricCoords in Hw.
        apply bind_Done in Hw as (tet & Htet & _).
        exact (at_Done_lt _ _ _ Htet). }
      rewrite (proj2 (N.ltb_lt _ _)); [exact Hw|lia]. }
    unfold walk_iteration. rewrite Hb. cbn [bind].
    destruct (all_non_negative w).
    + injection Hrest as <-. cbn [bind]. exists s. now rewrite Hb.
    + apply bind_Done in Hrest as (next & Hnext & Hrest). rewrite Hnext.
      cbn [bind].
      destruct (N.eqb_spec next M_MAX_UNSIGNED) as [En|En].
      * injection Hrest as <-. now elim Hne.
      * now apply IH.
Qed.

(** X3: If every neighbor slot of a mesh holds the index of one of its
    tetrahedra, vertex slot 0 of every tetrahedron is the index of a vertex,
    and vertex slots 0..2 of every outer tetrahedron are indices of a
    vertex and of a hull normal, then [GetInterpolationFactors] returns
    weights and a hint for every position and every starting hint: no
    vector is read outside its bounds. *)
Theorem closed_mesh_query_returns
  (m : TetrahedralMesh.t F) (position : Vector3.t F) (h : N) :
  neighbors_closed m = true ->
  base_vertices_in_range m = true ->
  outer_triangles_in_range m = true ->
  exists (weights : Vector4.t F) (h' : N),
    GetInterpolationFactors m position h = Done (weights, h').
Proof.
  intros Hclosed Hbase Hout.
  unfold GetInterpolationFactors, GetInterpolationFactors_counted.
  destruct (tetrahedrons_ m) as [|t0 ts] eqn:Ets; [simpl; eauto|].
  rewrite <- Ets.
  set (maxIters := to_unsigned (size (tetrahedrons_ m))).
  assert (Hmod : (maxIters <= size (tetrahedrons_ m))%N)
    by (apply N.Div0.mod_le).
  assert (Hpos : (0 < size (tetrahedrons_ m))%N)
    by (rewrite Ets; unfold size; simpl; lia).
  destruct (walk_returns m position (N.to_nat maxIters) Hclosed Hbase Hout
              (if (maxIters <=? h)%N then 0%N else h) 0%nat)
    as (w & h' & n & ->).
  - destruct (maxIters <=? h)%N eqn:E; [exact Hpos|].
    apply N.leb_gt in E. lia.
  - simpl. eauto.
Qed.

(** X4: [FindTetrahedron] tolerates faces without neighbor: if every neighbor
    slot holds the index of a tetrahedron or the sentinel, vertex slot 0 of
    every tetrahedron is the index of a vertex, and [removed] has one flag
    per tetrahedron, the search returns for every position, and what it
    returns is the sentinel or the index of a tetrahedron of the mesh. *)
Theorem FindTetrahedron_returns
  (m : TetrahedralMesh.t F) (position : Vector3.t F) (removed : list bool) :
  neighbors_closed_or_none m = true ->
  base_vertices_in_range m = true ->
  size removed = size (tetrahedrons_ m) ->
  exists t : N,
    FindTetrahedron m position removed = Done t
    /\ (t = M_MAX_UNSIGNED \/ (t < size (tetrahedrons_ m))%N).
Proof.
  intros Hclosed Hbase Hsize. unfold FindTetrahedron.
  destruct (find_false removed =? size removed)%N eqn:E; [eauto|].
  apply N.eqb_neq in E. pose proof (find_false_le removed) as Hle.
  apply find_walk_returns; try assumption.
  assert (to_unsigned (find_false removed) <= find_false removed)%N
    by (apply N.Div0.mod_le).
  lia.
Qed.

(** X5: When every tetrahedron is flagged as removed (in particular when
    [removed] is empty), [FindTetrahedron] returns the sentinel without
    reading the mesh. *)
Theorem FindTetrahedron_all_removed
  (m : TetrahedralMesh.t F) (position : Vector3.t F) (removed : list bool) :
  Forall (fun b => b = true) removed ->
  FindTetrahedron m position removed = Done M_MAX_UNSIGNED.
Proof.
  intros Hall. unfold FindTetrahedron.
  now rewrite (find_false_all _ Hall), N.eqb_refl.
Qed.

(** X6: On a mesh of inner tetrahedra only, whose size fits [unsigned]: if
    [FindTetrahedron] returns the index [t] of a tetrahedron, not the
    sentinel, then [GetInterpolationFactors], started from the first
    tetrahedron that is not removed, leaves its hint at the same [t] and
    returns the weights of the position in it. *)
Theorem FindTetrahedron_agrees_with_query
  (m : TetrahedralMesh.t F) (position : Vector3.t F) (removed : list bool)
  (t : N) (weights : Vector4.t F) :
  (size (tetrahedrons_ m) <= numInnerTetrahedrons_ m)%N ->
  (size (tetrahedrons_ m) < 2 ^ 32)%N ->
  (find_false removed < size (tetrahedrons_ m))%N ->
  FindTetrahedron m position removed = Done t ->
  t <> M_MAX_UNSIGNED ->
  GetBarycentricCoords m t position = Done weights ->
  GetInterpolationFactors m position (find_false removed)
  = Done (weights, t).
Proof.
  intros Hinner Hsize Hstart Hfind Hne Hw.
  unfold FindTetrahedron in Hfind.
  destruct (find_false removed =? size removed)%N in Hfind.
  { injection Hfind as <-. now elim Hne. }
  rewrite (to_unsigned_small _ Hsize) in Hfind.
  rewrite to_unsigned_small in Hfind by lia.
  unfold GetInterpolationFactors, GetInterpolationFactors_counted.
  destruct (tetrahedrons_ m) as [|t0 ts] eqn:Ets.
  - unfold size in Hstart. simpl in Hstart. lia.
  - rewrite <- Ets in *. rewrite (to_unsigned_small _ Hsize).
    rewrite (proj2 (N.leb_gt _ _) Hstart).
    destruct (find_walk_is_walk m position _ Hinner _ 0%nat _ Hfind Hne)
      as [n ->].
    rewrite Hw. reflexivity.
Qed.
End Safety.

(** [corner_mesh] has its complete outer shell: the query (5, 5, 5), far
    outside, from the outer tetrahedron 3. *)
Lemma closed_mesh_query_returns_witness :
  exists (weights : Vector4.t float) (h' : N),
    GetInterpolationFactors (L := cmath_nan) (MD := spec_MathDefs32)
      corner_mesh (point 5 5 5) 3
    = Done (weights, h').
Proof.
  apply (closed_mesh_query_returns (L := cmath_nan) (MD := spec_MathDefs32)
           corner_mesh (point 5 5 5) 3%N).
  - vm_compute. reflexivity.
  - vm_compute. reflexivity.
  - vm_compute. reflexivity.
Defined.

(** [star_mesh] has faces without neighbor; the query (0, 0, -1) lies
    beyond one of them. *)
Lemma FindTetrahedron_returns_witness :
  exists t : N,
    FindTetrahedron (F := float) star_mesh (point 0 0 (-1))
      [false; false; false]
    = Done t
    /\ (t = M_MAX_UNSIGNED
        \/ (t < size (tetrahedrons_ (star_mesh (F := float))))%N).
Proof.
  apply (FindTetrahedron_returns (F := float) star_mesh (point 0 0 (-1))
           [false; false; false]).
  - vm_compute. reflexivity.
  - vm_compute. reflexivity.
  - reflexivity.
Defined.

Lemma FindTetrahedron_all_removed_witness :
  FindTetrahedron (F := float) star_mesh centroid [true; true; true]
  = Done M_MAX_UNSIGNED.
Proof.
  apply (FindTetrahedron_all_removed (F := float) star_mesh centroid
           [true; true; true]).
  repeat constructor.
Defined.

(** On [star_mesh] with tetrahedron 0 removed, the search for the centroid
    starts at tetrahedron 1 and walks back into tetrahedron 0; so does the
    query from hint 1. *)
Lemma FindTetrahedron_agrees_with_query_witness :
  GetInterpolationFactors (L := cmath_nan) (MD := spec_MathDefs32)
    star_mesh centroid (find_false [true; false; false])
  = Done (Vector4.make (lit 1 (-2)) (lit 1 (-2)) (lit 1 (-2)) (lit 1 (-2)),
          0%N).
Proof.
  apply (FindTetrahedron_agrees_with_query (L := cmath_nan)
           (MD := spec_MathDefs32) star_mesh centroid [true; false; false]).
  - vm_compute. discriminate.
  - vm_compute. reflexivity.
  - vm_compute. reflexivity.
  - vm_compute. reflexivity.
  - discriminate.
  - vm_compute. reflexivity.
Defined.

(* ================================================================= *)
(** * Tetrahedra: neighbor slots and faces *)

Section TetrahedronLookups.
Context {F : Type}.

(** [GetNeighborFaceIndex] is the first slot holding the neighbor, or 4. *)
Lemma GetNeighborFaceIndex_spec
  (tet : Tetrahedron.t F) (neighborTetIndex : N) :
  let k := Tetrahedron.GetNeighborFaceIndex tet neighborTetIndex in
  (k <= 4)%N
  /\ (forall j : nat, (N.of_nat j < k)%N ->
        get4 (Tetrahedron.neighbors_ tet) j <> neighborTetIndex)
  /\ ((k < 4)%N ->
      get4 (Tetrahedron.neighbors_ tet) (N.to_nat k) = neighborTetIndex).
Proof.
  unfold Tetrahedron.GetNeighborFaceIndex.
  destruct (N.eqb_spec (get4 (Tetrahedron.neighbors_ tet) 0) neighborTetIndex)
    as [E0|E0];
  [|destruct (N.eqb_spec (get4 (Tetrahedron.neighbors_ tet) 1) neighborTetIndex)
    as [E1|E1];
  [|destruct (N.eqb_spec (get4 (Tetrahedron.neighbors_ tet) 2) neighborTetIndex)
    as [E2|E2];
  [|destruct (N.eqb_spec (get4 (Tetrahedron.neighbors_ tet) 3) neighborTetIndex)
    as [E3|E3]]]];
  cbv zeta; (split; [lia|]); split.
  all: try (intros j Hj; destruct j as [|[|[|[|j]]]]; try lia; assumption).
  all: try (intros _; assumption).
  intros Hk. lia.
Qed.

(** X7: [GetNeighborFaceIndex] returns a value from 0 to 4.  Below 4 it is the
    first slot of [neighbors_] that holds the given index: that slot holds
    it and no earlier one does.  It is 4 exactly when no slot holds it, and
    [HasNeighbor] is true exactly when some slot holds it. *)
Theorem GetNeighborFaceIndex_first_match
  (tet : Tetrahedron.t F) (neighborTetIndex : N) :
  let k := Tetrahedron.GetNeighborFaceIndex tet neighborTetIndex in
  (k <= 4)%N
  /\ (forall j : nat, (N.of_nat j < k)%N ->
        get4 (Tetrahedron.neighbors_ tet) j <> neighborTetIndex)
  /\ ((k < 4)%N ->
      get4 (Tetrahedron.neighbors_ tet) (N.to_nat k) = neighborTetIndex)
  /\ (Tetrahedron.HasNeighbor tet neighborTetIndex = true <->
      exists j : nat,
        (j < 4)%nat /\ get4 (Tetrahedron.neighbors_ tet) j = neighborTetIndex).
Proof.
  intros k.
  destruct (GetNeighborFaceIndex_spec tet neighborTetIndex)
    as (Hle & Hbefore & Hat).
  fold k in Hle, Hbefore, Hat.
  split; [exact Hle|]. split; [exact Hbefore|]. split; [exact Hat|].
  unfold Tetrahedron.HasNeighbor. fold k. rewrite N.ltb_lt. split.
  - intros Hk. exists (N.to_nat k). split; [lia|auto].
  - intros (j & Hj & Ej).
    destruct (N.lt_ge_cases k 4) as [Hlt|Hge]; [exact Hlt|].
    exfalso. apply (Hbefore j); [lia|exact Ej].
Qed.

(** X8: Slot to index and back: for a slot [j] below 4 whose neighbor index
    occurs in no earlier slot, looking that index up returns [j]. *)
Theorem GetNeighborFaceIndex_of_slot
  (tet : Tetrahedron.t F) (j : nat) :
  (j < 4)%nat ->
  (forall i : nat, (i < j)%nat ->
     get4 (Tetrahedron.neighbors_ tet) i
     <> get4 (Tetrahedron.neighbors_ tet) j) ->
  Tetrahedron.GetNeighborFaceIndex tet (get4 (Tetrahedron.neighbors_ tet) j)
  = N.of_nat j.
Proof.
  intros Hj Hfirst.
  destruct (GetNeighborFaceIndex_spec tet
              (get4 (Tetrahedron.neighbors_ tet) j)) as (Hle & Hbefore & Hat).
  set (k := Tetrahedron.GetNeighborFaceIndex tet _) in *.
  destruct (N.lt_trichotomy k (N.of_nat j)) as [Hlt|[Heq|Hgt]].
  - exfalso. apply (Hfirst (N.to_nat k)); [lia|]. apply Hat. lia.
  - exact Heq.
  - exfalso. now apply (Hbefore j).
Qed.

(** X9: For a face index below 4, [GetTriangleFace] returns a triangle whose
    unused vertex is the tetrahedron's vertex at that slot and whose three
    vertices are the other three, in the tetrahedron's order: together they
    are the four vertices of the tetrahedron.  Its neighbors are all "none"
    and its tetrahedron index and face are the ones passed in. *)
Theorem GetTriangleFace_drops_one_vertex
  (tet : Tetrahedron.t F) (faceIndex tetIndex tetFace : N) :
  (faceIndex < 4)%N ->
  exists tri : TetrahedralMeshSurfaceTriangle.t,
    Tetrahedron.GetTriangleFace tet faceIndex tetIndex tetFace = Done tri
    /\ TetrahedralMeshSurfaceTriangle.unusedIndex_ tri
       = get4 (Tetrahedron.indices_ tet) (N.to_nat faceIndex)
    /\ triangle_vertices tri
       = firstn (N.to_nat faceIndex) (tetrahedron_vertices tet)
         ++ skipn (S (N.to_nat faceIndex)) (tetrahedron_vertices tet)
    /\ Permutation
         (TetrahedralMeshSurfaceTriangle.unusedIndex_ tri
            :: triangle_vertices tri)
         (tetrahedron_vertices tet)
    /\ TetrahedralMeshSurfaceTriangle.neighbors_ tri
       = Array3 M_MAX_UNSIGNED M_MAX_UNSIGNED M_MAX_UNSIGNED
    /\ TetrahedralMeshSurfaceTriangle.tetIndex_ tri = tetIndex
    /\ TetrahedralMeshSurfaceTriangle.tetFace_ tri = tetFace.
Proof.
  intros Hf. destruct tet as [[i0 i1 i2 i3] nb mat].
  assert (Hcases : faceIndex = 0%N \/ faceIndex = 1%N \/ faceIndex = 2%N
                   \/ faceIndex = 3%N) by lia.
  destruct Hcases as [E|[E|[E|E]]]; subst faceIndex;
    eexists; (split; [vm_compute; reflexivity|]); cbv;
    repeat (split; [reflexivity|]); try reflexivity.
  - split; [apply perm_swap|auto].
  - split; [|auto].
    apply (Permutation_middle [i0; i1] [i3] i2).
  - split; [|auto].
    apply (Permutation_middle [i0; i1; i2] [] i3).
Qed.

(** X10: For a face index of 4 or more, [GetTriangleFace] writes a fourth
    entry into the three-element index array of the triangle: an access
    past the end. *)
Theorem GetTriangleFace_past_the_last_face
  (tet : Tetrahedron.t F) (faceIndex tetIndex tetFace : N) :
  (4 <= faceIndex)%N ->
  Tetrahedron.GetTriangleFace tet faceIndex tetIndex tetFace = OutOfBounds.
Proof.
  intros Hf.
  destruct faceIndex as [|[[p|p|]|[p|p|]|]]; try lia; reflexivity.
Qed.
End TetrahedronLookups.

Lemma GetNeighborFaceIndex_of_slot_witness :
  Tetrahedron.GetNeighborFaceIndex
    (unit_tetrahedron (F := float) (Array4 7 9 7 none)%N) 9
  = 1%N.
Proof.
  apply (GetNeighborFaceIndex_of_slot
           (unit_tetrahedron (F := float) (Array4 7 9 7 none)%N) 1).
  - lia.
  - intros i Hi. destruct i as [|i]; [discriminate|lia].
Defined.

(** Face 1 of the unit tetrahedron (0, 1, 2, 3), as face 2 of
    tetrahedron 7. *)
Lemma GetTriangleFace_drops_one_vertex_witness :
  exists tri : TetrahedralMeshSurfaceTriangle.t,
    Tetrahedron.GetTriangleFace
      (unit_tetrahedron (F := float) (Array4 none none none none)) 1 7 2
    = Done tri
    /\ TetrahedralMeshSurfaceTriangle.unusedIndex_ tri = 1%N
    /\ triangle_vertices tri = [0; 2; 3]%N.
Proof.
  destruct (GetTriangleFace_drops_one_vertex
              (unit_tetrahedron (F := float) (Array4 none none none none))
              1%N 7%N 2%N)
    as (tri & Hface & Hunused & Hvertices & _); [lia|].
  exists tri. split; [exact Hface|]. split; [exact Hunused|exact Hvertices].
Defined.

Lemma GetTriangleFace_past_the_last_face_witness :
  Tetrahedron.GetTriangleFace
    (unit_tetrahedron (F := float) (Array4 none none none none)) 4 0 0
  = OutOfBounds.
Proof.
  apply (GetTriangleFace_past_the_last_face
           (unit_tetrahedron (F := float) (Array4 none none none none))
           4%N 0%N 0%N).
  lia.
Defined.

(* ================================================================= *)
(** * Surface triangles and edges *)

(** X11: For an edge index below 3, [GetEdge] returns the vertices at slots
    [edgeIndex] and [(edgeIndex + 1) mod 3] of the triangle, the smaller
    index first.  For an edge index of 3 or more it reads past the end of
    the three vertex indices of the triangle. *)
Theorem GetEdge_sorted_pair (tri : TetrahedralMeshSurfaceTriangle.t)
  (edgeIndex : N) :
  let a :=
    get3 (TetrahedralMeshSurfaceTriangle.indices_ tri) (N.to_nat edgeIndex) in
  let b :=
    get3 (TetrahedralMeshSurfaceTriangle.indices_ tri)
         (N.to_nat ((edgeIndex + 1) mod 3)) in
  ((edgeIndex < 3)%N ->
   TetrahedralMeshSurfaceTriangle.GetEdge tri edgeIndex
   = Done (N.min a b, N.max a b))
  /\ ((3 <= edgeIndex)%N ->
      TetrahedralMeshSurfaceTriangle.GetEdge tri edgeIndex = OutOfBounds).
Proof.
  intros a b. unfold TetrahedralMeshSurfaceTriangle.GetEdge. split.
  - intros He.
    assert (Hu : to_unsigned (edgeIndex + 1) = (edgeIndex + 1)%N).
    { apply to_unsigned_small. change (2 ^ 32)%N with 4294967296%N. lia. }
    rewrite Hu. unfold array3_at.
    rewrite (proj2 (N.ltb_lt _ _) He).
    rewrite (proj2 (N.ltb_lt _ _)) by (apply N.mod_lt; lia).
    cbn [bind]. fold a b.
    destruct (N.ltb_spec b a).
    + rewrite N.min_r, N.max_l by lia. reflexivity.
    + rewrite N.min_l, N.max_r by lia. reflexivity.
  - intros He. unfold array3_at.
    now rewrite (proj2 (N.ltb_ge _ _) He).
Qed.

(** Exchanging the first two vertices keeps edge 0 and exchanges edges 1
    and 2. *)
Lemma GetEdge_swap01 (tri : TetrahedralMeshSurfaceTriangle.t) :
  let tri' :=
    TetrahedralMeshSurfaceTriangle.make
      (TetrahedralMeshSurfaceTriangle.swap01
         (TetrahedralMeshSurfaceTriangle.indices_ tri))
      (TetrahedralMeshSurfaceTriangle.unusedIndex_ tri)
      (TetrahedralMeshSurfaceTriangle.swap01
         (TetrahedralMeshSurfaceTriangle.neighbors_ tri))
      (TetrahedralMeshSurfaceTriangle.tetIndex_ tri)
      (TetrahedralMeshSurfaceTriangle.tetFace_ tri) in
  TetrahedralMeshSurfaceTriangle.GetEdge tri' 0
  = TetrahedralMeshSurfaceTriangle.GetEdge tri 0
  /\ TetrahedralMeshSurfaceTriangle.GetEdge tri' 1
     = TetrahedralMeshSurfaceTriangle.GetEdge tri 2
  /\ TetrahedralMeshSurfaceTriangle.GetEdge tri' 2
     = TetrahedralMeshSurfaceTriangle.GetEdge tri 1.
Proof.
  destruct tri as [[i0 i1 i2] u nb ti tf]. cbv zeta.
  cbv -[N.ltb]. simpl.
  repeat split.
  - destruct (N.ltb_spec i0 i1), (N.ltb_spec i1 i0);
      try reflexivity; try lia; f_equal; f_equal; lia.
  - destruct (N.ltb_spec i2 i0), (N.ltb_spec i0 i2);
      try reflexivity; try lia; f_equal; f_equal; lia.
  - destruct (N.ltb_spec i1 i2), (N.ltb_spec i2 i1);
      try reflexivity; try lia; f_equal; f_equal; lia.
Qed.

(** X12: [Normalize] may reorder the vertices of a triangle but keeps its
    edges: edge 0 stays edge 0, and edges 1 and 2 are kept or exchanged.
    It keeps the set of neighbors, so [HasNeighbor] answers as before, and
    it keeps the unused vertex, the tetrahedron and the face. *)
Theorem Normalize_keeps_edges {F : Type} `{Scalar F}
  (tri tri' : TetrahedralMeshSurfaceTriangle.t)
  (vertices : list (Vector3.t F)) :
  TetrahedralMeshSurfaceTriangle.Normalize tri vertices = Done tri' ->
  TetrahedralMeshSurfaceTriangle.GetEdge tri' 0
  = TetrahedralMeshSurfaceTriangle.GetEdge tri 0
  /\ Permutation
       [TetrahedralMeshSurfaceTriangle.GetEdge tri' 1;
        TetrahedralMeshSurfaceTriangle.GetEdge tri' 2]
       [TetrahedralMeshSurfaceTriangle.GetEdge tri 1;
        TetrahedralMeshSurfaceTriangle.GetEdge tri 2]
  /\ (forall neighborIndex : N,
        TetrahedralMeshSurfaceTriangle.HasNeighbor tri' neighborIndex
        = TetrahedralMeshSurfaceTriangle.HasNeighbor tri neighborIndex)
  /\ TetrahedralMeshSurfaceTriangle.unusedIndex_ tri'
     = TetrahedralMeshSurfaceTriangle.unusedIndex_ tri
  /\ TetrahedralMeshSurfaceTriangle.tetIndex_ tri'
     = TetrahedralMeshSurfaceTriangle.tetIndex_ tri
  /\ TetrahedralMeshSurfaceTriangle.tetFace_ tri'
     = TetrahedralMeshSurfaceTriangle.tetFace_ tri.
Proof.
  unfold TetrahedralMeshSurfaceTriangle.Normalize. intros Hn.
  apply bind_Done in Hn as (p0 & _ & Hn).
  apply bind_Done in Hn as (p1 & _ & Hn).
  apply bind_Done in Hn as (p2 & _ & Hn).
  apply bind_Done in Hn as (p3 & _ & Hn).
  destruct (_ <? _)%fl; injection Hn as <-.
  - destruct (GetEdge_swap01 tri) as (E0 & E1 & E2).
    cbv zeta in E0, E1, E2. rewrite E0, E1, E2.
    split; [reflexivity|]. split; [apply perm_swap|].
    split; [|repeat split; reflexivity].
    intros n. unfold TetrahedralMeshSurfaceTriangle.HasNeighbor.
    cbn [TetrahedralMeshSurfaceTriangle.neighbors_
         TetrahedralMeshSurfaceTriangle.swap01 a3_0 a3_1 a3_2 count_occ].
    destruct (N.eq_dec (a3_0 (TetrahedralMeshSurfaceTriangle.neighbors_ tri)) n),
             (N.eq_dec (a3_1 (TetrahedralMeshSurfaceTriangle.neighbors_ tri)) n);
      reflexivity.
  - repeat split; reflexivity.
Qed.

(** The comparison of surface edges looks at the pair of indices only,
    first component first. *)
Lemma less_spec (a b : TetrahedralMeshSurfaceEdge.t) :
  TetrahedralMeshSurfaceEdge.less a b = true <->
  (a2_0 (TetrahedralMeshSurfaceEdge.indices_ a)
     < a2_0 (TetrahedralMeshSurfaceEdge.indices_ b))%N
  \/ (a2_0 (TetrahedralMeshSurfaceEdge.indices_ a)
      = a2_0 (TetrahedralMeshSurfaceEdge.indices_ b)
      /\ (a2_1 (TetrahedralMeshSurfaceEdge.indices_ a)
            < a2_1 (TetrahedralMeshSurfaceEdge.indices_ b))%N).
Proof.
  unfold TetrahedralMeshSurfaceEdge.less.
  destruct (N.eqb_spec (a2_0 (TetrahedralMeshSurfaceEdge.indices_ a))
                       (a2_0 (TetrahedralMeshSurfaceEdge.indices_ b)));
    simpl; rewrite N.ltb_lt; lia.
Qed.

(** X13: [operator<] on surface edges is a strict order fit for sorting: it is
    irreflexive, asymmetric and transitive, and two edges are unordered
    exactly when they have the same pair of vertex indices, whatever face
    and edge slot they come from. *)
Theorem edge_less_is_strict_order (a b c : TetrahedralMeshSurfaceEdge.t) :
  TetrahedralMeshSurfaceEdge.less a a = false
  /\ (TetrahedralMeshSurfaceEdge.less a b = true ->
      TetrahedralMeshSurfaceEdge.less b a = false)
  /\ (TetrahedralMeshSurfaceEdge.less a b = true ->
      TetrahedralMeshSurfaceEdge.less b c = true ->
      TetrahedralMeshSurfaceEdge.less a c = true)
  /\ (TetrahedralMeshSurfaceEdge.less a b = false
      /\ TetrahedralMeshSurfaceEdge.less b a = false
      <-> TetrahedralMeshSurfaceEdge.indices_ a
          = TetrahedralMeshSurfaceEdge.indices_ b).
Proof.
  split; [apply not_true_iff_false; rewrite less_spec; lia|].
  split.
  { intros Hab. apply not_true_iff_false. rewrite less_spec in *. lia. }
  split; [rewrite !less_spec; lia|].
  split.
  - intros [Hab Hba]. apply not_true_iff_false in Hab, Hba.
    rewrite less_spec in Hab, Hba.
    destruct (TetrahedralMeshSurfaceEdge.indices_ a) as [a0 a1],
             (TetrahedralMeshSurfaceEdge.indices_ b) as [b0 b1].
    cbn [a2_0 a2_1] in *. f_equal; lia.
  - intros E. split; apply not_true_iff_false; rewrite less_spec, E; lia.
Qed.

(** X14: The constructor of a surface edge stores the two vertex indices in
    increasing order: the edges built from (i0, i1) and from (i1, i0) hold
    the same pair, and neither is less than the other, whatever their face
    and edge slot. *)
Theorem construct_ignores_direction (i0 i1 f f' : N) (e e' : float)
  (a b : TetrahedralMeshSurfaceEdge.t) :
  TetrahedralMeshSurfaceEdge.construct i0 i1 f e = Some a ->
  TetrahedralMeshSurfaceEdge.construct i1 i0 f' e' = Some b ->
  TetrahedralMeshSurfaceEdge.indices_ a = TetrahedralMeshSurfaceEdge.indices_ b
  /\ (a2_0 (TetrahedralMeshSurfaceEdge.indices_ a)
        <= a2_1 (TetrahedralMeshSurfaceEdge.indices_ a))%N
  /\ TetrahedralMeshSurfaceEdge.less a b = false
  /\ TetrahedralMeshSurfaceEdge.less b a = false.
Proof.
  unfold TetrahedralMeshSurfaceEdge.construct.
  destruct (float_to_unsigned e); [|discriminate].
  destruct (float_to_unsigned e'); [|discriminate].
  intros Ha Hb. injection Ha as <-. injection Hb as <-.
  cbn [TetrahedralMeshSurfaceEdge.indices_].
  assert (Hi : (if (i1 <? i0)%N then Array2 i1 i0 else Array2 i0 i1)
               = (if (i0 <? i1)%N then Array2 i0 i1 else Array2 i1 i0)).
  { destruct (N.ltb_spec i1 i0), (N.ltb_spec i0 i1); try reflexivity; try lia.
    f_equal; lia. }
  split; [exact Hi|]. split.
  - destruct (N.ltb_spec i1 i0); simpl; lia.
  - unfold TetrahedralMeshSurfaceEdge.less.
    cbn [TetrahedralMeshSurfaceEdge.indices_]. rewrite <- Hi.
    rewrite N.eqb_refl. simpl. rewrite N.ltb_irrefl. auto.
Qed.

(** X15: The edge constructed from two consecutive vertices of a triangle, with
    the edge slot passed through the constructor's [float] parameter, holds
    the pair that [GetEdge] returns for that slot, and the face and slot it
    was given. *)
Theorem construct_from_triangle_edge
  (tri : TetrahedralMeshSurfaceTriangle.t) (faceIndex edgeIndex : N) :
  (edgeIndex < 3)%N ->
  exists edge : TetrahedralMeshSurfaceEdge.t,
    TetrahedralMeshSurfaceEdge.construct
      (get3 (TetrahedralMeshSurfaceTriangle.indices_ tri) (N.to_nat edgeIndex))
      (get3 (TetrahedralMeshSurfaceTriangle.indices_ tri)
            (N.to_nat ((edgeIndex + 1) mod 3)))
      faceIndex (num (Z.of_N edgeIndex))
    = Some edge
    /\ TetrahedralMeshSurfaceTriangle.GetEdge tri edgeIndex
       = Done (a2_0 (TetrahedralMeshSurfaceEdge.indices_ edge),
               a2_1 (TetrahedralMeshSurfaceEdge.indices_ edge))
    /\ TetrahedralMeshSurfaceEdge.faceIndex_ edge = faceIndex
    /\ TetrahedralMeshSurfaceEdge.edgeIndex_ edge = edgeIndex.
Proof.
  intros He.
  assert (Hc : float_to_unsigned (num (Z.of_N edgeIndex)) = Some edgeIndex).
  { assert (edgeIndex = 0 \/ edgeIndex = 1 \/ edgeIndex = 2)%N as [E|[E|E]]
      by lia; subst edgeIndex; vm_compute; reflexivity. }
  unfold TetrahedralMeshSurfaceEdge.construct. rewrite Hc.
  eexists. split; [reflexivity|].
  cbn [TetrahedralMeshSurfaceEdge.indices_
       TetrahedralMeshSurfaceEdge.faceIndex_
       TetrahedralMeshSurfaceEdge.edgeIndex_].
  split; [|auto].
  unfold TetrahedralMeshSurfaceTriangle.GetEdge, array3_at.
  rewrite to_unsigned_small
    by (change (2 ^ 32)%N with 4294967296%N; lia).
  rewrite (proj2 (N.ltb_lt _ _) He).
  rewrite (proj2 (N.ltb_lt _ _)) by (apply N.mod_lt; lia).
  cbn [bind]. now destruct (_ <? _)%N.
Qed.

(** Edge 2 of the triangle (2, 1, 3) joins its vertices 3 and 2; it has
    no edge 3. *)
Lemma GetEdge_sorted_pair_witness :
  TetrahedralMeshSurfaceTriangle.GetEdge face0_flipped 2 = Done (2, 3)%N
  /\ TetrahedralMeshSurfaceTriangle.GetEdge face0_flipped 3 = OutOfBounds.
Proof.
  split.
  - apply (GetEdge_sorted_pair face0_flipped 2%N). lia.
  - apply (GetEdge_sorted_pair face0_flipped 3%N). lia.
Defined.

(** [face0_flipped] is wound towards vertex 0 of the unit tetrahedron;
    [Normalize] exchanges its first two vertices, and with them its edges 1
    and 2. *)
Lemma Normalize_keeps_edges_witness :
  let tri' :=
    TetrahedralMeshSurfaceTriangle.make (Array3 1 2 3)%N 0%N
      (Array3 11 10 12)%N 0%N 0%N in
  TetrahedralMeshSurfaceTriangle.GetEdge tri' 0
  = TetrahedralMeshSurfaceTriangle.GetEdge face0_flipped 0
  /\ Permutation
       [TetrahedralMeshSurfaceTriangle.GetEdge tri' 1;
        TetrahedralMeshSurfaceTriangle.GetEdge tri' 2]
       [TetrahedralMeshSurfaceTriangle.GetEdge face0_flipped 1;
        TetrahedralMeshSurfaceTriangle.GetEdge face0_flipped 2]
  /\ (forall neighborIndex : N,
        TetrahedralMeshSurfaceTriangle.HasNeighbor tri' neighborIndex
        = TetrahedralMeshSurfaceTriangle.HasNeighbor face0_flipped
            neighborIndex)
  /\ TetrahedralMeshSurfaceTriangle.unusedIndex_ tri' = 0%N
  /\ TetrahedralMeshSurfaceTriangle.tetIndex_ tri' = 0%N
  /\ TetrahedralMeshSurfaceTriangle.tetFace_ tri' = 0%N.
Proof.
  apply (Normalize_keeps_edges (F := float) face0_flipped _ example_vertices).
  vm_compute. reflexivity.
Defined.

(** The edge between vertices 5 and 2, seen from face 0 as its edge 1 and
    from face 1 as its edge 2. *)
Lemma construct_ignores_direction_witness :
  let a := TetrahedralMeshSurfaceEdge.make (Array2 2 5)%N 0%N 1%N in
  let b := TetrahedralMeshSurfaceEdge.make (Array2 2 5)%N 1%N 2%N in
  TetrahedralMeshSurfaceEdge.indices_ a = TetrahedralMeshSurfaceEdge.indices_ b
  /\ (a2_0 (TetrahedralMeshSurfaceEdge.indices_ a)
        <= a2_1 (TetrahedralMeshSurfaceEdge.indices_ a))%N
  /\ TetrahedralMeshSurfaceEdge.less a b = false
  /\ TetrahedralMeshSurfaceEdge.less b a = false.
Proof.
  apply (construct_ignores_direction 5%N 2%N 0%N 1%N (num 1) (num 2)).
  - vm_compute. reflexivity.
  - vm_compute. reflexivity.
Defined.

Lemma construct_from_triangle_edge_witness :
  exists edge : TetrahedralMeshSurfaceEdge.t,
    TetrahedralMeshSurfaceEdge.construct 3 2 4 (num 2) = Some edge
    /\ TetrahedralMeshSurfaceTriangle.GetEdge face0_flipped 2
       = Done (a2_0 (TetrahedralMeshSurfaceEdge.indices_ edge),
               a2_1 (TetrahedralMeshSurfaceEdge.indices_ edge))
    /\ TetrahedralMeshSurfaceEdge.faceIndex_ edge = 4%N
    /\ TetrahedralMeshSurfaceEdge.edgeIndex_ edge = 2%N.
Proof.
  apply (construct_from_triangle_edge face0_flipped 4%N 2%N). lia.
Defined.

(* ================================================================= *)
(** * Exact arithmetic: weights and positions *)

Section ExactPositions.
Local Open Scope R_scope.
Context {L : Cmath R} {MD : MathDefs R}.

Lemma all_non_negative_R (w : Vector4.t R) :
  all_non_negative w = true
  <-> 0 <= Vector4.x_ w /\ 0 <= Vector4.y_ w /\ 0 <= Vector4.z_ w
      /\ 0 <= Vector4.w_ w.
Proof.
  unfold all_non_negative. rewrite !andb_true_iff, !num_R.
  cbn [leb R_Scalar]. rewrite !Rleb_true. tauto.
Qed.

(** With the matrix that [CalculateInnerMatrix] computes, the weights of
    an inner tetrahedron that is not flat combine its four vertices into
    the position. *)
Lemma inner_weights_combine
  (m : TetrahedralMesh.t R) (tetIndex : N) (tet : Tetrahedron.t R)
  (p0 p1 p2 p3 position : Vector3.t R) :
  at_ (tetrahedrons_ m) tetIndex = Done tet ->
  Tetrahedron.CalculateInnerMatrix tet (vertices_ m) = Done tet ->
  at_ (vertices_ m) (get4 (Tetrahedron.indices_ tet) 0) = Done p0 ->
  at_ (vertices_ m) (get4 (Tetrahedron.indices_ tet) 1) = Done p1 ->
  at_ (vertices_ m) (get4 (Tetrahedron.indices_ tet) 2) = Done p2 ->
  at_ (vertices_ m) (get4 (Tetrahedron.indices_ tet) 3) = Done p3 ->
  volume6 p0 p1 p2 p3 <> 0 ->
  exists weights : Vector4.t R,
    GetInnerBarycentricCoords m tetIndex position = Done weights
    /\ combine4 weights p0 p1 p2 p3 = position.
Proof.
  destruct tet as [idx nb mat].
  cbn [Tetrahedron.indices_ Tetrahedron.neighbors_ Tetrahedron.matrix_].
  intros Htet Hcalc H0 H1 H2 H3 Hvol.
  unfold Tetrahedron.CalculateInnerMatrix in Hcalc.
  cbn [Tetrahedron.indices_ Tetrahedron.neighbors_] in Hcalc.
  rewrite H0 in Hcalc. cbn [bind] in Hcalc. rewrite H1 in Hcalc.
  cbn [bind] in Hcalc. rewrite H2 in Hcalc. cbn [bind] in Hcalc.
  rewrite H3 in Hcalc. cbn [bind] in Hcalc.
  injection Hcalc as Hmat.
  unfold GetInnerBarycentricCoords. rewrite Htet. cbn [bind].
  cbn [Tetrahedron.indices_]. rewrite H0. cbn [bind].
  eexists. split; [reflexivity|].
  cbn [Tetrahedron.indices_ Tetrahedron.matrix_]. subst mat.
  destruct p0 as [x0 y0 z0], p1 as [x1 y1 z1], p2 as [x2 y2 z2],
           p3 as [x3 y3 z3], position as [x y z].
  unfold volume6 in Hvol. cbn in Hvol.
  unfold combine4. cbn.
  f_equal; field; intros E; apply Hvol; rewrite <- E; ring.
Qed.

(** X16: Weights to position and back.  For an inner tetrahedron that is not
    flat and whose matrix is the one [CalculateInnerMatrix] computes from
    its vertices: the barycentric coordinates of the point
    w.x * p0 + w.y * p1 + w.z * p2 + w.w * p3, for weights that sum to 1,
    are these weights. *)
Theorem inner_weights_of_combination
  (m : TetrahedralMesh.t R) (tetIndex : N) (tet : Tetrahedron.t R)
  (p0 p1 p2 p3 : Vector3.t R) (weights : Vector4.t R) :
  at_ (tetrahedrons_ m) tetIndex = Done tet ->
  Tetrahedron.CalculateInnerMatrix tet (vertices_ m) = Done tet ->
  at_ (vertices_ m) (get4 (Tetrahedron.indices_ tet) 0) = Done p0 ->
  at_ (vertices_ m) (get4 (Tetrahedron.indices_ tet) 1) = Done p1 ->
  at_ (vertices_ m) (get4 (Tetrahedron.indices_ tet) 2) = Done p2 ->
  at_ (vertices_ m) (get4 (Tetrahedron.indices_ tet) 3) = Done p3 ->
  volume6 p0 p1 p2 p3 <> 0 ->
  Vector4.x_ weights + Vector4.y_ weights + Vector4.z_ weights
  + Vector4.w_ weights = 1 ->
  GetInnerBarycentricCoords m tetIndex (combine4 weights p0 p1 p2 p3)
  = Done weights.
Proof.
  destruct tet as [idx nb mat].
  cbn [Tetrahedron.indices_ Tetrahedron.neighbors_ Tetrahedron.matrix_].
  intros Htet Hcalc H0 H1 H2 H3 Hvol Hsum.
  unfold Tetrahedron.CalculateInnerMatrix in Hcalc.
  cbn [Tetrahedron.indices_ Tetrahedron.neighbors_] in Hcalc.
  rewrite H0 in Hcalc. cbn [bind] in Hcalc. rewrite H1 in Hcalc.
  cbn [bind] in Hcalc. rewrite H2 in Hcalc. cbn [bind] in Hcalc.
  rewrite H3 in Hcalc. cbn [bind] in Hcalc.
  injection Hcalc as Hmat.
  unfold GetInnerBarycentricCoords. rewrite Htet. cbn [bind].
  cbn [Tetrahedron.indices_]. rewrite H0. cbn [bind].
  cbn [Tetrahedron.indices_ Tetrahedron.matrix_]. subst mat.
  destruct p0 as [x0 y0 z0], p1 as [x1 y1 z1], p2 as [x2 y2 z2],
           p3 as [x3 y3 z3], weights as [wx wy wz ww].
  unfold volume6 in Hvol. cbn in Hvol. cbn in Hsum.
  assert (Hx : wx = 1 - wy - wz - ww) by lra. subst wx.
  unfold combine4. cbn.
  assert (Hy : forall e : R, e = wy -> forall f g : R, f = wz -> g = ww ->
               Done (Vector4.make (1 * 1 - e - f - g) e f g)
               = Done (Vector4.make (1 - wy - wz - ww) wy wz ww)).
  { intros e -> f g -> ->. do 2 f_equal. ring. }
  apply Hy; field; intros E; apply Hvol; rewrite <- E; ring.
Qed.

(** X17: [GetTriangleBarycentricCoords] projects.  For a triangle that is not
    degenerate, the three coordinates of any position sum to 1, and the
    point they combine the corners into is the foot of the perpendicular
    from the position onto the plane of the triangle: what is left is
    orthogonal to both edges that leave the first corner. *)
Theorem GetTriangleBarycentricCoords_projects
  (position p1 p2 p3 : Vector3.t R) :
  gram p1 p2 p3 <> 0 ->
  let coords := GetTriangleBarycentricCoords position p1 p2 p3 in
  let residual := Vector3.minus position (combine3 coords p1 p2 p3) in
  Vector3.x_ coords + Vector3.y_ coords + Vector3.z_ coords = 1
  /\ Vector3.DotProduct residual (Vector3.minus p2 p1) = 0
  /\ Vector3.DotProduct residual (Vector3.minus p3 p1) = 0.
Proof.
  destruct p1 as [x1 y1 z1], p2 as [x2 y2 z2], p3 as [x3 y3 z3],
           position as [x y z].
  unfold gram. cbn. intros Hg.
  unfold GetTriangleBarycentricCoords, combine3. cbn.
  repeat split.
  - ring.
  - field. exact Hg.
  - field. exact Hg.
Qed.

(** X18: Weights to position and back, on a triangle that is not degenerate:
    the coordinates of the point u * p1 + v * p2 + w * p3 with
    u + v + w = 1 are (u, v, w). *)
Theorem GetTriangleBarycentricCoords_inverts
  (u v w : R) (p1 p2 p3 : Vector3.t R) :
  u + v + w = 1 -> gram p1 p2 p3 <> 0 ->
  GetTriangleBarycentricCoords
    (combine3 (Vector3.make u v w) p1 p2 p3) p1 p2 p3
  = Vector3.make u v w.
Proof.
  destruct p1 as [x1 y1 z1], p2 as [x2 y2 z2], p3 as [x3 y3 z3].
  unfold gram. cbn. intros Hsum Hg.
  assert (Hu : u = 1 - v - w) by lra. subst u.
  unfold GetTriangleBarycentricCoords, combine3. cbn.
  assert (Hv : forall n d : R, d <> 0 -> n = v * d -> n / d = v)
    by (intros n d Hd ->; field; exact Hd).
  assert (Hw : forall n d : R, d <> 0 -> n = w * d -> n / d = w)
    by (intros n d Hd ->; field; exact Hd).
  rewrite (Hv _ _ Hg) by ring. rewrite (Hw _ _ Hg) by ring.
  f_equal. ring.
Qed.

(** The weights of either kind of cell: the marker (0, 0, 0, -1) of an
    outer cell, or four numbers whose sum is 1. *)
Lemma weights_marker_or_sum (m : TetrahedralMesh.t R) (tetIndex : N)
  (position : Vector3.t R) (weights : Vector4.t R) :
  GetBarycentricCoords m tetIndex position = Done weights ->
  weights = Vector4.make 0 0 0 (-1)
  \/ Vector4.x_ weights + Vector4.y_ weights + Vector4.z_ weights
     + Vector4.w_ weights = 1.
Proof.
  unfold GetBarycentricCoords.
  destruct (tetIndex <? numInnerTetrahedrons_ m)%N.
  - unfold GetInnerBarycentricCoords. intros Hw.
    apply bind_Done in Hw as (tet & _ & Hw).
    apply bind_Done in Hw as (base & _ & Hw).
    injection Hw as <-. right. cbn. rewrite ?num_R. ring.
  - unfold GetOuterBarycentricCoords. intros Hw.
    apply bind_Done in Hw as (tet & _ & Hw).
    apply bind_Done in Hw as (p1 & _ & Hw).
    apply bind_Done in Hw as (p2 & _ & Hw).
    apply bind_Done in Hw as (p3 & _ & Hw).
    destruct (inner_side p1 p2 p3 position).
    + injection Hw as <-. left. f_equal; cbn; lra.
    + apply bind_Done in Hw as (n1 & _ & Hw).
      apply bind_Done in Hw as (n2 & _ & Hw).
      apply bind_Done in Hw as (n3 & _ & Hw).
      injection Hw as <-. right.
      unfold GetTriangleBarycentricCoords, Vector4.of_Vector3.
      cbn [Vector4.x_ Vector4.y_ Vector4.z_ Vector4.w_
           Vector3.x_ Vector3.y_ Vector3.z_].
      rewrite !num_R. cbn [add sub R_Scalar]. ring.
Qed.

(** X19: The weights of a located point are convex.  When a call of
    [GetInterpolationFactors] on a mesh with tetrahedra returns weights
    that are all non-negative, in an inner or an outer cell, then these
    weights sum to 1, so each lies between 0 and 1. *)
Theorem located_weights_are_convex
  (m : TetrahedralMesh.t R) (position : Vector3.t R) (h h' : N)
  (weights : Vector4.t R) :
  tetrahedrons_ m <> [] ->
  GetInterpolationFactors m position h = Done (weights, h') ->
  all_non_negative weights = true ->
  Vector4.x_ weights + Vector4.y_ weights + Vector4.z_ weights
  + Vector4.w_ weights = 1
  /\ 0 <= Vector4.x_ weights <= 1 /\ 0 <= Vector4.y_ weights <= 1
  /\ 0 <= Vector4.z_ weights <= 1 /\ 0 <= Vector4.w_ weights <= 1.
Proof.
  intros Hne Hcall Hpos.
  pose proof (final_hint_weights m position h h' weights Hne Hcall) as Hw.
  apply all_non_negative_R in Hpos as (Hx & Hy & Hz & Hww).
  destruct (weights_marker_or_sum m h' position weights Hw) as [E|Hsum].
  - subst weights. cbn in Hww. lra.
  - repeat split; lra.
Qed.

Lemma final_inner_weights_combine
  (m : TetrahedralMesh.t R) (position : Vector3.t R) (h h' : N)
  (weights : Vector4.t R) (tet : Tetrahedron.t R)
  (p0 p1 p2 p3 : Vector3.t R) :
  GetInterpolationFactors m position h = Done (weights, h') ->
  (h' < numInnerTetrahedrons_ m)%N ->
  at_ (tetrahedrons_ m) h' = Done tet ->
  Tetrahedron.CalculateInnerMatrix tet (vertices_ m) = Done tet ->
  at_ (vertices_ m) (get4 (Tetrahedron.indices_ tet) 0) = Done p0 ->
  at_ (vertices_ m) (get4 (Tetrahedron.indices_ tet) 1) = Done p1 ->
  at_ (vertices_ m) (get4 (Tetrahedron.indices_ tet) 2) = Done p2 ->
  at_ (vertices_ m) (get4 (Tetrahedron.indices_ tet) 3) = Done p3 ->
  volume6 p0 p1 p2 p3 <> 0 ->
  combine4 weights p0 p1 p2 p3 = position.
Proof.
  intros Hcall Hinner Htet Hcalc H0 H1 H2 H3 Hvol.
  assert (Hne : tetrahedrons_ m <> []).
  { intros E. rewrite E, at_nil in Htet. discriminate. }
  pose proof (final_hint_weights m position h h' weights Hne Hcall) as Hw.
  unfold GetBarycentricCoords in Hw.
  apply N.ltb_lt in Hinner. rewrite Hinner in Hw.
  destruct (inner_weights_combine m h' tet p0 p1 p2 p3 position
              Htet Hcalc H0 H1 H2 H3 Hvol) as (w' & Hw' & Hcomb).
  rewrite Hw in Hw'. injection Hw' as <-. exact Hcomb.
Qed.

(** X20: The located point lies in the tetrahedron.  When a call of
    [GetInterpolationFactors] ends in an inner tetrahedron that is not
    flat, whose matrix is the one [CalculateInnerMatrix] computes, the
    returned weights combine the four vertices of that tetrahedron into
    the queried position; and when the weights are all non-negative the
    position is a convex combination of the vertices. *)
Theorem located_position_in_tetrahedron
  (m : TetrahedralMesh.t R) (position : Vector3.t R) (h h' : N)
  (weights : Vector4.t R) (tet : Tetrahedron.t R)
  (p0 p1 p2 p3 : Vector3.t R) :
  GetInterpolationFactors m position h = Done (weights, h') ->
  (h' < numInnerTetrahedrons_ m)%N ->
  at_ (tetrahedrons_ m) h' = Done tet ->
  Tetrahedron.CalculateInnerMatrix tet (vertices_ m) = Done tet ->
  at_ (vertices_ m) (get4 (Tetrahedron.indices_ tet) 0) = Done p0 ->
  at_ (vertices_ m) (get4 (Tetrahedron.indices_ tet) 1) = Done p1 ->
  at_ (vertices_ m) (get4 (Tetrahedron.indices_ tet) 2) = Done p2 ->
  at_ (vertices_ m) (get4 (Tetrahedron.indices_ tet) 3) = Done p3 ->
  volume6 p0 p1 p2 p3 <> 0 ->
  combine4 weights p0 p1 p2 p3 = position
  /\ (all_non_negative weights = true ->
      Vector4.x_ weights + Vector4.y_ weights + Vector4.z_ weights
      + Vector4.w_ weights = 1
      /\ 0 <= Vector4.x_ weights /\ 0 <= Vector4.y_ weights
      /\ 0 <= Vector4.z_ weights /\ 0 <= Vector4.w_ weights).
Proof.
  intros Hcall Hinner Htet Hcalc H0 H1 H2 H3 Hvol.
  split.
  - exact (final_inner_weights_combine m position h h' weights tet
             p0 p1 p2 p3 Hcall Hinner Htet Hcalc H0 H1 H2 H3 Hvol).
  - intros Hpos.
    assert (Hne : tetrahedrons_ m <> []).
    { intros E. rewrite E, at_nil in Htet. discriminate. }
    pose proof (final_hint_weights m position h h' weights Hne Hcall) as Hw.
    apply all_non_negative_R in Hpos as (Hx & Hy & Hz & Hww).
    destruct (weights_marker_or_sum m h' position weights Hw) as [E|Hsum].
    + subst weights. cbn in Hww. lra.
    + tauto.
Qed.

(** X21: Sampling the vertex positions gives back the position.  When [Sample]
    is given the mesh's own vertex array as the container and its walk ends
    in an inner tetrahedron that is not flat, whose matrix is the one
    [CalculateInnerMatrix] computes, the value it returns is the queried
    position. *)
Theorem Sample_of_positions_is_position
  (m : TetrahedralMesh.t R) (position value : Vector3.t R) (h h' : N)
  (tet : Tetrahedron.t R) (p0 p1 p2 p3 : Vector3.t R) :
  Sample m (vertices_ m) position h = Done (value, h') ->
  (h' < numInnerTetrahedrons_ m)%N ->
  at_ (tetrahedrons_ m) h' = Done tet ->
  Tetrahedron.CalculateInnerMatrix tet (vertices_ m) = Done tet ->
  at_ (vertices_ m) (get4 (Tetrahedron.indices_ tet) 0) = Done p0 ->
  at_ (vertices_ m) (get4 (Tetrahedron.indices_ tet) 1) = Done p1 ->
  at_ (vertices_ m) (get4 (Tetrahedron.indices_ tet) 2) = Done p2 ->
  at_ (vertices_ m) (get4 (Tetrahedron.indices_ tet) 3) = Done p3 ->
  volume6 p0 p1 p2 p3 <> 0 ->
  value = position.
Proof.
  intros Hsample Hinner Htet Hcalc H0 H1 H2 H3 Hvol.
  unfold Sample in Hsample.
  apply bind_Done in Hsample as ([weights h''] & Hcall & Hrest).
  assert (Hsize : (h'' <? size (tetrahedrons_ m))%N = true -> h'' = h').
  { intros E. rewrite E in Hrest.
    apply bind_Done in Hrest as (tet' & _ & Hrest).
    apply bind_Done in Hrest as (r & _ & Hrest).
    destruct (h'' <? numInnerTetrahedrons_ m)%N.
    - apply bind_Done in Hrest as (c & _ & Hrest). now injection Hrest.
    - now injection Hrest. }
  destruct (h'' <? size (tetrahedrons_ m))%N eqn:Hlt.
  2:{ injection Hrest as _ <-. apply at_Done_lt in Htet.
      apply N.ltb_ge in Hlt. lia. }
  specialize (Hsize eq_refl). subst h''.
  pose proof (final_inner_weights_combine m position h h' weights tet
                p0 p1 p2 p3 Hcall Hinner Htet Hcalc H0 H1 H2 H3 Hvol)
    as Hcomb.
  rewrite Htet in Hrest. cbn [bind for_each] in Hrest.
  cbn [get4] in *.
  rewrite H0 in Hrest. cbn [bind] in Hrest.
  rewrite H1 in Hrest. cbn [bind] in Hrest.
  rewrite H2 in Hrest. cbn [bind] in Hrest.
  apply N.ltb_lt in Hinner. rewrite Hinner in Hrest.
  rewrite H3 in Hrest. cbn [bind] in Hrest.
  injection Hrest as <-. rewrite <- Hcomb.
  destruct weights as [wx wy wz ww].
  destruct p0 as [x0 y0 z0], p1 as [x1 y1 z1], p2 as [x2 y2 z2],
           p3 as [x3 y3 z3].
  unfold combine4, Vector3.plus, Vector3.times. cbn. f_equal; ring.
Qed.
End ExactPositions.

Section ExactExamples.
Local Open Scope R_scope.

(** Over the reals: the matrix stored in [unit_tetrahedron] is the one
    [CalculateInnerMatrix] computes, and the unit tetrahedron is not
    flat. *)
Example unit_tetrahedron_matrix (neighbors : array4 N) :
  Tetrahedron.CalculateInnerMatrix (F := R) (unit_tetrahedron neighbors)
    example_vertices
  = Done (unit_tetrahedron neighbors).
Proof.
  cbv -[Rplus Rminus Rmult Rdiv Rinv Ropp IZR].
  do 2 f_equal. f_equal; field.
Qed.

Example unit_tetrahedron_volume :
  volume6 (point 0 0 0) (point 1 0 0) (point 0 1 0) (point 0 0 1) <> 0.
Proof. unfold volume6. cbn. lra. Qed.

Example centroid_weights :
  GetBarycentricCoords (MD := spec_MathDefsR) single_mesh 0 centroid
  = Done (Vector4.make (/ 4) (/ 4) (/ 4) (/ 4)).
Proof.
  cbv -[Rplus Rminus Rmult Rdiv Rinv Ropp IZR].
  do 2 f_equal; field.
Qed.

Example centroid_query :
  GetInterpolationFactors (MD := spec_MathDefsR) single_mesh centroid 0
  = Done (Vector4.make (/ 4) (/ 4) (/ 4) (/ 4), 0%N).
Proof.
  apply query_from_containing_hint.
  - vm_compute. reflexivity.
  - exact centroid_weights.
  - apply all_non_negative_R. cbn. lra.
Qed.

(** In the unit tetrahedron, the weights (1/2, 1/8, 1/8, 1/4) of the point
    (1/8, 1/8, 1/4). *)
Lemma inner_weights_of_combination_witness :
  GetInnerBarycentricCoords (F := R) single_mesh 0
    (combine4 (Vector4.make (/ 2) (/ 8) (/ 8) (/ 4))
       (point 0 0 0) (point 1 0 0) (point 0 1 0) (point 0 0 1))
  = Done (Vector4.make (/ 2) (/ 8) (/ 8) (/ 4)).
Proof.
  apply (inner_weights_of_combination single_mesh 0%N
           (unit_tetrahedron (Array4 none none none none))).
  - reflexivity.
  - apply unit_tetrahedron_matrix.
  - reflexivity.
  - reflexivity.
  - reflexivity.
  - reflexivity.
  - exact unit_tetrahedron_volume.
  - cbn. lra.
Defined.

(** The triangle (0,0,0), (1,0,0), (0,1,0) and the point (2, 3, 5) above
    its plane. *)
Lemma GetTriangleBarycentricCoords_projects_witness :
  let coords :=
    GetTriangleBarycentricCoords (F := R) (point 2 3 5)
      (point 0 0 0) (point 1 0 0) (point 0 1 0) in
  let residual :=
    Vector3.minus (point 2 3 5)
      (combine3 coords (point 0 0 0) (point 1 0 0) (point 0 1 0)) in
  Vector3.x_ coords + Vector3.y_ coords + Vector3.z_ coords = 1
  /\ Vector3.DotProduct residual
       (Vector3.minus (point 1 0 0) (point 0 0 0)) = 0
  /\ Vector3.DotProduct residual
       (Vector3.minus (point 0 1 0) (point 0 0 0)) = 0.
Proof.
  apply (GetTriangleBarycentricCoords_projects (point 2 3 5)
           (point 0 0 0) (point 1 0 0) (point 0 1 0)).
  unfold gram. cbn. lra.
Defined.

Lemma GetTriangleBarycentricCoords_inverts_witness :
  GetTriangleBarycentricCoords (F := R)
    (combine3 (Vector3.make (/ 2) (/ 4) (/ 4))
       (point 0 0 0) (point 1 0 0) (point 0 1 0))
    (point 0 0 0) (point 1 0 0) (point 0 1 0)
  = Vector3.make (/ 2) (/ 4) (/ 4).
Proof.
  apply (GetTriangleBarycentricCoords_inverts (/ 2) (/ 4) (/ 4)
           (point 0 0 0) (point 1 0 0) (point 0 1 0)).
  - lra.
  - unfold gram. cbn. lra.
Defined.

(** The centroid of the unit tetrahedron, queried on [single_mesh]. *)
Lemma located_weights_are_convex_witness :
  let weights := Vector4.make (/ 4) (/ 4) (/ 4) (/ 4) in
  Vector4.x_ weights + Vector4.y_ weights + Vector4.z_ weights
  + Vector4.w_ weights = 1
  /\ 0 <= Vector4.x_ weights <= 1 /\ 0 <= Vector4.y_ weights <= 1
  /\ 0 <= Vector4.z_ weights <= 1 /\ 0 <= Vector4.w_ weights <= 1.
Proof.
  apply (located_weights_are_convex (MD := spec_MathDefsR)
           single_mesh centroid 0%N 0%N).
  - discriminate.
  - exact centroid_query.
  - apply all_non_negative_R. cbn. lra.
Defined.

Lemma located_position_in_tetrahedron_witness :
  let weights := Vector4.make (/ 4) (/ 4) (/ 4) (/ 4) in
  combine4 weights (point 0 0 0) (point 1 0 0) (point 0 1 0) (point 0 0 1)
  = centroid
  /\ (all_non_negative weights = true ->
      Vector4.x_ weights + Vector4.y_ weights + Vector4.z_ weights
      + Vector4.w_ weights = 1
      /\ 0 <= Vector4.x_ weights /\ 0 <= Vector4.y_ weights
      /\ 0 <= Vector4.z_ weights /\ 0 <= Vector4.w_ weights).
Proof.
  apply (located_position_in_tetrahedron (MD := spec_MathDefsR)
           single_mesh centroid 0%N 0%N _
           (unit_tetrahedron (Array4 none none none none))).
  - exact centroid_query.
  - reflexivity.
  - reflexivity.
  - apply unit_tetrahedron_matrix.
  - reflexivity.
  - reflexivity.
  - reflexivity.
  - reflexivity.
  - exact unit_tetrahedron_volume.
Defined.

Lemma Sample_of_positions_is_position_witness :
  let weights := Vector4.make (/ 4) (/ 4) (/ 4) (/ 4) in
  let value :=
    value_add
      (weighted3 (point 0 0 0) (point 1 0 0) (point 0 1 0) weights)
      (value_scale (point 0 0 1) (Vector4.get weights 3)) in
  Sample (MD := spec_MathDefsR) single_mesh (vertices_ single_mesh)
    centroid 0
  = Done (value, 0%N)
  /\ value = centroid.
Proof.
  intros weights value.
  assert (Hsample :
    Sample (MD := spec_MathDefsR) single_mesh (vertices_ single_mesh)
      centroid 0
    = Done (value, 0%N)).
  { unfold Sample. rewrite centroid_query. reflexivity. }
  split; [exact Hsample|].
  apply (Sample_of_positions_is_position (MD := spec_MathDefsR)
           single_mesh centroid value 0%N 0%N
           (unit_tetrahedron (Array4 none none none none))
           (point 0 0 0) (point 1 0 0) (point 0 1 0) (point 0 0 1)).
  - exact Hsample.
  - reflexivity.
  - reflexivity.
  - apply unit_tetrahedron_matrix.
  - reflexivity.
  - reflexivity.
  - reflexivity.
  - reflexivity.
  - exact unit_tetrahedron_volume.
Defined.
End ExactExamples.

(* ================================================================= *)
(** * Exact arithmetic: the cubic solver *)

Section Cubic.
Local Open Scope R_scope.

Lemma cos_triple_angle (x : R) :
  Rtrigo_def.cos (3 * x)
  = 4 * Rtrigo_def.cos x * Rtrigo_def.cos x * Rtrigo_def.cos x
    - 3 * Rtrigo_def.cos x.
Proof.
  replace (3 * x) with (x + 2 * x) by ring.
  rewrite cos_plus, cos_2a, sin_2a.
  pose proof (sin2_cos2 x) as H. unfold Rsqr in H.
  set (c := Rtrigo_def.cos x) in *. set (s := sin x) in *.
  assert (Hs : s * s = 1 - c * c) by lra.
  replace (c * (c * c - s * s) - s * (2 * s * c))
    with (c * c * c - 3 * (s * s) * c) by ring.
  rewrite Hs. ring.
Qed.

(** The three cosines of the trigonometric solution: their elementary
    symmetric functions. *)
Lemma three_cosines (x : R) :
  let c0 := Rtrigo_def.cos x in
  let c1 := Rtrigo_def.cos (x + 2 * (PI / 3)) in
  let c2 := Rtrigo_def.cos (x - 2 * (PI / 3)) in
  c0 + c1 + c2 = 0
  /\ c0 * c1 + c0 * c2 + c1 * c2 = - (3 / 4)
  /\ 4 * (c0 * c1 * c2) = Rtrigo_def.cos (3 * x).
Proof.
  cbv zeta. rewrite cos_plus, cos_minus, cos_2PI3, sin_2PI3, cos_triple_angle.
  pose proof (sin2_cos2 x) as H. unfold Rsqr in H.
  assert (H3 : sqrt 3 * sqrt 3 = 3) by (apply sqrt_sqrt; lra).
  set (c := Rtrigo_def.cos x) in *. set (s := sin x) in *.
  set (k := sqrt 3) in *.
  assert (Hs : s * s = 1 - c * c) by lra.
  repeat split.
  - field.
  - replace (c * (c * (-1 / 2) - s * (k / 2)) + c * (c * (-1 / 2) + s * (k / 2)) +
      (c * (-1 / 2) - s * (k / 2)) * (c * (-1 / 2) + s * (k / 2)))
      with (- (3/4) * (c * c) - (k * k) * (s * s) / 4) by field.
    rewrite H3, Hs. field.
  - replace (4 * (c * (c * (-1 / 2) - s * (k / 2)) * (c * (-1 / 2) + s * (k / 2))))
      with (c * (c * c) - (k * k) * (s * s) * c) by field.
    rewrite H3, Hs. ring.
Qed.

(** The depressed cubic: with q and r as [SolveCubicEquation] computes
    them, x^3 + a*x^2 + b*x + c = Y^3 - 3*q*Y + 2*r for Y = x + a/3. *)
Lemma depressed_cubic (a b c x : R) :
  let q := (a * a - 3 * b) / 9 in
  let r := (a * (2 * (a * a) - 9 * b) + 27 * c) / 54 in
  let Y := x + a / 3 in
  cubic a b c x = Y * Y * Y - 3 * q * Y + 2 * r.
Proof. unfold cubic. cbv zeta. field. Qed.

(** The sine and the cosine move no farther than their argument. *)
Lemma sin_within (x : R) : Rabs (sin x) <= Rabs x.
Proof.
  assert (Hpos : forall y : R, 0 < y -> Rabs (sin y) <= y).
  { intros y Hy. pose proof (sin_lt_x y Hy) as Hlt.
    apply Rabs_le. split; [|lra].
    destruct (Rle_lt_dec 1 y) as [Hbig|Hsmall].
    - pose proof (SIN_bound y). lra.
    - assert (0 < sin y); [|lra].
      apply sin_gt_0; [exact Hy|]. pose proof PI2_1. lra. }
  destruct (Rtotal_order x 0) as [Hneg|[->|Hgt]].
  - assert (Hy : 0 < - x) by lra. specialize (Hpos _ Hy).
    rewrite sin_neg, Rabs_Ropp in Hpos.
    rewrite <- (Rabs_Ropp x), (Rabs_pos_eq (- x)) by lra. exact Hpos.
  - rewrite sin_0. lra.
  - rewrite (Rabs_pos_eq x) by lra. now apply Hpos.
Qed.

Lemma cos_within (u v : R) :
  Rabs (Rtrigo_def.cos u - Rtrigo_def.cos v) <= Rabs (u - v).
Proof.
  rewrite form2, !Rabs_mult.
  replace (Rabs (-2)) with 2
    by (unfold Rabs; destruct (Rcase_abs (-2)); lra).
  pose proof (sin_within ((u - v) / 2)) as H1.
  assert (H2 : Rabs (sin ((u + v) / 2)) <= 1).
  { apply Rabs_le. pose proof (SIN_bound ((u + v) / 2)). lra. }
  assert (H3 : Rabs ((u - v) / 2) = Rabs (u - v) / 2).
  { unfold Rdiv. rewrite Rabs_mult, (Rabs_pos_eq (/ 2)) by lra. reflexivity. }
  rewrite H3 in H1.
  pose proof (Rabs_pos (sin ((u - v) / 2))) as P1.
  pose proof (Rabs_pos (sin ((u + v) / 2))) as P2.
  pose proof (Rabs_pos (u - v)) as P3.
  set (s1 := Rabs (sin ((u - v) / 2))) in *.
  set (s2 := Rabs (sin ((u + v) / 2))) in *.
  set (d := Rabs (u - v)) in *.
  assert (s1 * s2 <= d / 2 * 1).
  { apply Rmult_le_compat; lra. }
  lra.
Qed.

(** The trigonometric solution.  With q > 0 and r^2 <= q^3, the angle
    t = acos (r / sqrt (q^3)) gives the three real roots of the cubic. *)
Lemma trigonometric_roots (a b c : R) :
  let q := (a * a - 3 * b) / 9 in
  let r := (a * (2 * (a * a) - 9 * b) + 27 * c) / 54 in
  0 < q -> r * r <= q * q * q ->
  let t := Ratan.acos (r / sqrt (q * q * q)) in
  forall y : R,
    cubic a b c y
    = (y - (-2 * sqrt q * Rtrigo_def.cos (t / 3) - a / 3))
      * (y - (-2 * sqrt q * Rtrigo_def.cos ((t + PI * 2) / 3) - a / 3))
      * (y - (-2 * sqrt q * Rtrigo_def.cos ((t - PI * 2) / 3) - a / 3)).
Proof.
  intros q r Hq Hr.
  pose proof (sqrt_lt_R0 q Hq) as Hs.
  assert (Hss : sqrt q * sqrt q = q) by (apply sqrt_sqrt; lra).
  assert (Hq3 : sqrt (q * q * q) = q * sqrt q).
  { rewrite sqrt_mult_alt by nra. rewrite sqrt_square by lra. reflexivity. }
  rewrite Hq3.
  set (s := sqrt q) in *.
  assert (Hrange : -1 <= r / (q * s) <= 1).
  { assert (0 < q * s) by nra.
    assert (Hsq : r * r <= (q * s) * (q * s)).
    { replace (q * s * (q * s)) with (q * q * (s * s)) by ring.
      rewrite Hss. lra. }
    split.
    - apply Rmult_le_reg_r with (q * s); [assumption|].
      unfold Rdiv. rewrite Rmult_assoc, Rinv_l by lra. nra.
    - apply Rmult_le_reg_r with (q * s); [assumption|].
      unfold Rdiv. rewrite Rmult_assoc, Rinv_l by lra. nra. }
  intros t y. rewrite (depressed_cubic a b c y). cbv zeta. fold q r.
  destruct (three_cosines (t / 3)) as (E1 & E2 & E3).
  replace (3 * (t / 3)) with t in E3 by field.
  assert (Hc : Rtrigo_def.cos t = r / (q * s))
    by (unfold t; apply cos_acos; exact Hrange).
  rewrite Hc in E3.
  replace ((t + PI * 2) / 3) with (t / 3 + 2 * (PI / 3)) by field.
  replace ((t - PI * 2) / 3) with (t / 3 - 2 * (PI / 3)) by field.
  set (c0 := Rtrigo_def.cos (t / 3)) in *.
  set (c1 := Rtrigo_def.cos (t / 3 + 2 * (PI / 3))) in *.
  set (c2 := Rtrigo_def.cos (t / 3 - 2 * (PI / 3))) in *.
  set (Y := y + a / 3).
  replace ((y - (-2 * s * c0 - a / 3)) * (y - (-2 * s * c1 - a / 3))
           * (y - (-2 * s * c2 - a / 3)))
    with (Y * Y * Y + 2 * s * (c0 + c1 + c2) * (Y * Y)
          + 4 * (s * s) * (c0 * c1 + c0 * c2 + c1 * c2) * Y
          + 2 * (s * s) * s * (4 * (c0 * c1 * c2)))
    by (unfold Y; ring).
  rewrite E1, E2, E3, Hss. field. split; lra.
Qed.

(** The branch r^2 <= q^3 + eps of [SolveCubicEquation], for q > 0 and
    r^2 <= q^3, whatever the value of the constant [M_PI]. *)
Lemma three_root_branch (M_PI_value a b c eps : R) :
  let q := (a * a - 3 * b) / 9 in
  let r := (a * (2 * (a * a) - 9 * b) + 27 * c) / 54 in
  0 <= eps -> 0 < q -> r * r <= q * q * q ->
  let t := Ratan.acos (r / sqrt (q * q * q)) in
  SolveCubicEquation (L := R_Cmath_with M_PI_value) a b c eps
  = (Array3
       (-2 * sqrt q * Rtrigo_def.cos (t / 3) - a / 3)
       (-2 * sqrt q * Rtrigo_def.cos ((t + M_PI_value * 2) / 3) - a / 3)
       (-2 * sqrt q * Rtrigo_def.cos ((t - M_PI_value * 2) / 3) - a / 3),
     3%nat).
Proof.
  intros q r Heps Hq Hr t.
  pose proof (sqrt_lt_R0 q Hq) as Hs.
  assert (Hss : sqrt q * sqrt q = q) by (apply sqrt_sqrt; lra).
  assert (Hq3 : sqrt (q * q * q) = q * sqrt q).
  { rewrite sqrt_mult_alt by nra. rewrite sqrt_square by lra. reflexivity. }
  assert (Hrange : -1 <= r / sqrt (q * q * q) <= 1).
  { rewrite Hq3. set (s := sqrt q) in *.
    assert (0 < q * s) by nra.
    assert (Hsq : r * r <= (q * s) * (q * s)).
    { replace (q * s * (q * s)) with (q * q * (s * s)) by ring.
      rewrite Hss. lra. }
    split.
    - apply Rmult_le_reg_r with (q * s); [assumption|].
      unfold Rdiv. rewrite Rmult_assoc, Rinv_l by lra. nra.
    - apply Rmult_le_reg_r with (q * s); [assumption|].
      unfold Rdiv. rewrite Rmult_assoc, Rinv_l by lra. nra. }
  unfold SolveCubicEquation. cbv zeta. rewrite !num_R.
  cbn [add sub mul div neg fabs fsqrt eqb ltb leb R_Scalar
       acos cos cbrt M_PI R_Cmath_with].
  fold q. fold r.
  assert (Hle : Rleb (r * r) (q * q * q + eps) = true)
    by (apply Rleb_true; lra).
  rewrite Hle.
  assert (H1 : Rltb (r / sqrt (q * q * q)) (-1) = false)
    by (apply Rltb_false; lra).
  rewrite H1.
  assert (H2 : Rltb 1 (r / sqrt (q * q * q)) = false)
    by (apply Rltb_false; lra).
  rewrite H2. reflexivity.
Qed.

Lemma max_element_three (x0 x1 x2 : R) :
  let x := max_element x0 [x1; x2] in
  (x = x0 \/ x = x1 \/ x = x2) /\ x0 <= x /\ x1 <= x /\ x2 <= x.
Proof.
  unfold max_element. cbn [fold_left ltb R_Scalar]. unfold Rltb.
  destruct (Rlt_dec x0 x1); destruct (Rlt_dec _ x2); intuition lra.
Qed.

(** The cube of the cube root. *)
Lemma Rcbrt_cube (x : R) :
  0 < x -> 0 < Rcbrt x /\ Rcbrt x * Rcbrt x * Rcbrt x = x.
Proof.
  intros Hx. unfold Rcbrt. destruct (Rlt_dec 0 x) as [_|]; [|lra].
  split.
  - unfold Rpower. apply exp_pos.
  - replace (Rpower x (/ 3) * Rpower x (/ 3) * Rpower x (/ 3))
      with (Rpower x (/ 3) ^ 3) by ring.
    rewrite <- Rpower_pow by (unfold Rpower; apply exp_pos).
    rewrite Rpower_mult.
    replace (/ 3 * INR 3) with 1 by (simpl; field).
    now apply Rpower_1.
Qed.

(** The two terms of Cardano's formula: when they differ, their sum is the
    only real root of the depressed cubic. *)
Lemma cardano (q r A B : R) :
  A * B = q -> A * A * A + B * B * B = - 2 * r -> A <> B ->
  forall Y : R, Y * Y * Y - 3 * q * Y + 2 * r = 0 <-> Y = A + B.
Proof.
  intros HAB Hcubes Hne Y. split.
  - intros HY.
    assert (Hprod : (Y - (A + B))
                    * ((Y + (A + B) / 2) * (Y + (A + B) / 2)
                       + 3 / 4 * ((A - B) * (A - B))) = 0).
    { replace ((Y - (A + B))
               * ((Y + (A + B) / 2) * (Y + (A + B) / 2)
                  + 3 / 4 * ((A - B) * (A - B))))
        with ((Y * Y * Y - 3 * (A * B) * Y)
              - (A * A * A + B * B * B)) by field.
      rewrite HAB, Hcubes. lra. }
    apply Rmult_integral in Hprod. destruct Hprod as [H|H]; [lra|].
    exfalso.
    assert (0 < (A - B) * (A - B)).
    { apply (Rsqr_pos_lt (A - B)). lra. }
    pose proof (Rle_0_sqr (Y + (A + B) / 2)) as Hsq. unfold Rsqr in Hsq.
    lra.
  - intros ->.
    replace ((A + B) * (A + B) * (A + B) - 3 * q * (A + B) + 2 * r)
      with ((A * A * A + B * B * B) + 3 * (A * B - q) * (A + B) + 2 * r)
      by ring.
    rewrite HAB, Hcubes. ring.
Qed.

(** X22: Three real roots, up to the constant.  With q = (a^2 - 3b)/9
    and r = (a(2a^2 - 9b) + 27c)/54 as the code computes them: when q > 0
    and r^2 <= q^3, [SolveCubicEquation] reports three roots.  The
    equation x^3 + a*x^2 + b*x + c = 0 then has the real solutions x0, y1
    and y2 and no other, where x0 is the first value returned, and the
    second and third values returned lie within
    (4/3) * sqrt q * |M_PI - pi| of y1 and of y2: they would be the
    solutions if the constant [M_PI] were pi. *)
Theorem SolveCubicEquation_three_roots (M_PI_value a b c eps : R) :
  let q := (a * a - 3 * b) / 9 in
  let r := (a * (2 * (a * a) - 9 * b) + 27 * c) / 54 in
  0 <= eps -> 0 < q -> r * r <= q * q * q ->
  exists x0 x1 x2 y1 y2 : R,
    SolveCubicEquation (L := R_Cmath_with M_PI_value) a b c eps
    = (Array3 x0 x1 x2, 3%nat)
    /\ (forall y : R, cubic a b c y = 0 <-> y = x0 \/ y = y1 \/ y = y2)
    /\ Rabs (x1 - y1) <= 4 / 3 * sqrt q * Rabs (M_PI_value - PI)
    /\ Rabs (x2 - y2) <= 4 / 3 * sqrt q * Rabs (M_PI_value - PI).
Proof.
  intros q r Heps Hq Hr.
  pose proof (three_root_branch M_PI_value a b c eps Heps Hq Hr) as Hsolve.
  pose proof (trigonometric_roots a b c Hq Hr) as Hfactor.
  cbv zeta in Hsolve, Hfactor. fold q r in Hsolve, Hfactor.
  set (t := Ratan.acos (r / sqrt (q * q * q))) in *.
  pose proof (sqrt_pos q) as Hs.
  assert (Habs2 : Rabs (-2) = 2)
    by (unfold Rabs; destruct (Rcase_abs (-2)); lra).
  do 3 eexists.
  exists (-2 * sqrt q * Rtrigo_def.cos ((t + PI * 2) / 3) - a / 3),
         (-2 * sqrt q * Rtrigo_def.cos ((t - PI * 2) / 3) - a / 3).
  split; [exact Hsolve|]. split; [|split].
  - intros y. rewrite Hfactor. split.
    + intros Hy. apply Rmult_integral in Hy. destruct Hy as [Hy|Hy].
      * apply Rmult_integral in Hy. destruct Hy; [left|right; left]; lra.
      * right; right; lra.
    + intros [E|[E|E]]; rewrite E; ring.
  - pose proof (cos_within ((t + M_PI_value * 2) / 3) ((t + PI * 2) / 3))
      as Hcos.
    replace ((t + M_PI_value * 2) / 3 - (t + PI * 2) / 3)
      with (2 / 3 * (M_PI_value - PI)) in Hcos by field.
    rewrite Rabs_mult, (Rabs_pos_eq (2 / 3)) in Hcos by lra.
    set (d := Rtrigo_def.cos ((t + M_PI_value * 2) / 3)
              - Rtrigo_def.cos ((t + PI * 2) / 3)) in *.
    replace (-2 * sqrt q * Rtrigo_def.cos ((t + M_PI_value * 2) / 3) - a / 3
             - (-2 * sqrt q * Rtrigo_def.cos ((t + PI * 2) / 3) - a / 3))
      with (-2 * sqrt q * d) by (unfold d; ring).
    rewrite !Rabs_mult, Habs2, (Rabs_pos_eq (sqrt q)) by lra.
    pose proof (Rabs_pos d). nra.
  - pose proof (cos_within ((t - M_PI_value * 2) / 3) ((t - PI * 2) / 3))
      as Hcos.
    replace ((t - M_PI_value * 2) / 3 - (t - PI * 2) / 3)
      with (- (2 / 3) * (M_PI_value - PI)) in Hcos by field.
    rewrite Rabs_mult, Rabs_Ropp, (Rabs_pos_eq (2 / 3)) in Hcos by lra.
    set (d := Rtrigo_def.cos ((t - M_PI_value * 2) / 3)
              - Rtrigo_def.cos ((t - PI * 2) / 3)) in *.
    replace (-2 * sqrt q * Rtrigo_def.cos ((t - M_PI_value * 2) / 3) - a / 3
             - (-2 * sqrt q * Rtrigo_def.cos ((t - PI * 2) / 3) - a / 3))
      with (-2 * sqrt q * d) by (unfold d; ring).
    rewrite !Rabs_mult, Habs2, (Rabs_pos_eq (sqrt q)) by lra.
    pose proof (Rabs_pos d). nra.
Qed.

(** X23: The most positive root, up to the constant.  Under the same
    conditions, with a non-negative tolerance: the equation
    x^3 + a*x^2 + b*x + c = 0 has a largest real solution, and the value
    [SolveCubic] returns lies within (4/3) * sqrt q * |M_PI - pi| of it;
    it would be that solution if the constant [M_PI] were pi. *)
Theorem SolveCubic_near_largest_root (MD : MathDefs R)
  (M_PI_value a b c : R) :
  let q := (a * a - 3 * b) / 9 in
  let r := (a * (2 * (a * a) - 9 * b) + 27 * c) / 54 in
  0 <= M_EPSILON -> 0 < q -> r * r <= q * q * q ->
  exists largest : R,
    cubic a b c largest = 0
    /\ (forall y : R, cubic a b c y = 0 -> y <= largest)
    /\ Rabs (SolveCubic (L := R_Cmath_with M_PI_value) (Vector3.make a b c)
             - largest)
       <= 4 / 3 * sqrt q * Rabs (M_PI_value - PI).
Proof.
  intros q r Heps Hq Hr.
  pose proof (three_root_branch M_PI_value a b c M_EPSILON Heps Hq Hr)
    as Hsolve.
  pose proof (trigonometric_roots a b c Hq Hr) as Hfactor.
  cbv zeta in Hsolve, Hfactor. fold q r in Hsolve, Hfactor.
  set (t := Ratan.acos (r / sqrt (q * q * q))) in *.
  pose proof (sqrt_pos q) as Hs.
  assert (Habs2 : Rabs (-2) = 2)
    by (unfold Rabs; destruct (Rcase_abs (-2)); lra).
  set (delta := 4 / 3 * sqrt q * Rabs (M_PI_value - PI)).
  set (y0 := -2 * sqrt q * Rtrigo_def.cos (t / 3) - a / 3) in *.
  set (y1 := -2 * sqrt q * Rtrigo_def.cos ((t + PI * 2) / 3) - a / 3) in *.
  set (y2 := -2 * sqrt q * Rtrigo_def.cos ((t - PI * 2) / 3) - a / 3) in *.
  set (x1 := -2 * sqrt q * Rtrigo_def.cos ((t + M_PI_value * 2) / 3) - a / 3)
    in *.
  set (x2 := -2 * sqrt q * Rtrigo_def.cos ((t - M_PI_value * 2) / 3) - a / 3)
    in *.
  assert (Hnear : forall u v : R,
            Rabs (u - v) <= Rabs (2 / 3 * (M_PI_value - PI)) ->
            Rabs ((-2 * sqrt q * Rtrigo_def.cos u - a / 3)
                  - (-2 * sqrt q * Rtrigo_def.cos v - a / 3)) <= delta).
  { intros u v Huv. pose proof (cos_within u v) as Hcos.
    rewrite Rabs_mult, (Rabs_pos_eq (2 / 3)) in Huv by lra.
    set (d := Rtrigo_def.cos u - Rtrigo_def.cos v) in *.
    replace (-2 * sqrt q * Rtrigo_def.cos u - a / 3
             - (-2 * sqrt q * Rtrigo_def.cos v - a / 3))
      with (-2 * sqrt q * d) by (unfold d; ring).
    rewrite !Rabs_mult, Habs2, (Rabs_pos_eq (sqrt q)) by lra.
    pose proof (Rabs_pos d). unfold delta. nra. }
  assert (H1 : Rabs (x1 - y1) <= delta).
  { apply Hnear.
    replace ((t + M_PI_value * 2) / 3 - (t + PI * 2) / 3)
      with (2 / 3 * (M_PI_value - PI)) by field.
    lra. }
  assert (H2 : Rabs (x2 - y2) <= delta).
  { apply Hnear.
    replace ((t - M_PI_value * 2) / 3 - (t - PI * 2) / 3)
      with (- (2 / 3 * (M_PI_value - PI))) by field.
    rewrite Rabs_Ropp. lra. }
  assert (Hinv : forall z : R, Rabs z <= delta -> - delta <= z <= delta).
  { intros z Hz. unfold Rabs in Hz. destruct (Rcase_abs z); lra. }
  apply Hinv in H1, H2.
  assert (Hx : SolveCubic (L := R_Cmath_with M_PI_value) (Vector3.make a b c)
               = max_element y0 [x1; x2]).
  { unfold SolveCubic.
    cbn [Vector3.x_ Vector3.y_ Vector3.z_ widen narrow R_Casts].
    rewrite Hsolve. reflexivity. }
  rewrite Hx.
  destruct (max_element_three y0 x1 x2) as (Hin & G0 & G1 & G2).
  destruct (max_element_three y0 y1 y2) as (Hin' & K0 & K1 & K2).
  cbv zeta in Hin, G0, G1, G2, Hin', K0, K1, K2.
  set (returned := max_element y0 [x1; x2]) in *.
  set (largest := max_element y0 [y1; y2]) in *.
  exists largest. split; [|split].
  - rewrite Hfactor.
    destruct Hin' as [E|[E|E]]; rewrite E at 1 2 3; ring.
  - intros y Hy. rewrite Hfactor in Hy.
    apply Rmult_integral in Hy. destruct Hy as [Hy|Hy].
    + apply Rmult_integral in Hy. destruct Hy; lra.
    + lra.
  - apply Rabs_le. destruct Hin as [E|[E|E]]; lra.
Qed.

(** X24: One real root.  When r^2 > q^3 + eps for a non-negative tolerance,
    [SolveCubicEquation] reports one or two roots, and the first value it
    returns is the only real solution of x^3 + a*x^2 + b*x + c = 0. *)
Theorem SolveCubicEquation_single_root (a b c eps : R) :
  let q := (a * a - 3 * b) / 9 in
  let r := (a * (2 * (a * a) - 9 * b) + 27 * c) / 54 in
  0 <= eps -> q * q * q + eps < r * r ->
  exists (x0 x1 x2 : R) (numRoots : nat),
    SolveCubicEquation a b c eps = (Array3 x0 x1 x2, numRoots)
    /\ (numRoots = 1%nat \/ numRoots = 2%nat)
    /\ forall y : R, cubic a b c y = 0 <-> y = x0.
Proof.
  intros q r Heps Hr.
  assert (Hd : 0 < r * r - q * q * q) by lra.
  pose proof (sqrt_lt_R0 _ Hd) as Hs.
  assert (Hss : sqrt (r * r - q * q * q) * sqrt (r * r - q * q * q)
                = r * r - q * q * q) by (apply sqrt_sqrt; lra).
  set (s := sqrt (r * r - q * q * q)) in *.
  pose proof (Rabs_pos r) as Habs.
  assert (Habs2 : Rabs r * Rabs r = r * r).
  { unfold Rabs. destruct (Rcase_abs r); ring. }
  destruct (Rcbrt_cube (Rabs r + s)) as (Hk & Hk3); [lra|].
  set (k := Rcbrt (Rabs r + s)) in *.
  unfold SolveCubicEquation. cbv zeta. rewrite !num_R.
  cbn [add sub mul div neg fabs fsqrt eqb ltb leb R_Scalar
       acos cos cbrt M_PI R_Cmath R_Cmath_with lit].
  fold q. fold r.
  assert (Hle : Rleb (r * r) (q * q * q + eps) = false)
    by (apply Rleb_false; lra).
  rewrite Hle. fold s. fold k.
  set (A := if Rltb r 0 then - - k else - k).
  assert (HA : A <> 0).
  { unfold A. destruct (Rltb r 0); lra. }
  assert (HA3 : A * A * A = - r - (if Rltb r 0 then -1 else 1) * s).
  { unfold A. unfold Rltb, Rabs in *.
    destruct (Rlt_dec r 0); destruct (Rcase_abs r); lra. }
  assert (HeqA : Reqb A 0 = false).
  { unfold Reqb. destruct (Req_dec_T A 0); [contradiction|reflexivity]. }
  rewrite HeqA.
  set (B := q / A).
  assert (HAB : A * B = q) by (unfold B; field; exact HA).
  assert (HB3 : B * B * B = - r + (if Rltb r 0 then -1 else 1) * s).
  { apply Rmult_eq_reg_l with (A * A * A).
    2:{ repeat apply Rmult_integral_contrapositive_currified; exact HA. }
    replace (A * A * A * (B * B * B)) with ((A * B) * (A * B) * (A * B))
      by ring.
    rewrite HAB, HA3.
    unfold Rltb. destruct (Rlt_dec r 0); nra. }
  assert (Hne : A <> B).
  { intros E. rewrite <- E in HB3. rewrite HA3 in HB3.
    unfold Rltb in HB3. destruct (Rlt_dec r 0); lra. }
  assert (Hcubes : A * A * A + B * B * B = - 2 * r)
    by (rewrite HA3, HB3; ring).
  assert (Hroot : forall y : R, cubic a b c y = 0 <-> y = A + B - a / 3).
  { intros y. rewrite (depressed_cubic a b c y). cbv zeta. fold q r.
    rewrite (cardano q r A B HAB Hcubes Hne (y + a / 3)). split; lra. }
  destruct (Rltb _ eps).
  - do 4 eexists. split; [reflexivity|]. split; [now right|exact Hroot].
  - do 4 eexists. split; [reflexivity|]. split; [now left|exact Hroot].
Qed.

(** x^3 - 3x = x (x^2 - 3): q = 1, r = 0; with the constant of
    [R_Cmath]. *)
Lemma SolveCubicEquation_three_roots_witness :
  exists x0 x1 x2 y1 y2 : R,
    SolveCubicEquation 0 (-3) 0 (/ 1000000) = (Array3 x0 x1 x2, 3%nat)
    /\ (forall y : R, cubic 0 (-3) 0 y = 0 <-> y = x0 \/ y = y1 \/ y = y2)
    /\ Rabs (x1 - y1)
       <= 4 / 3 * sqrt ((0 * 0 - 3 * -3) / 9) * Rabs (M_PI - PI)
    /\ Rabs (x2 - y2)
       <= 4 / 3 * sqrt ((0 * 0 - 3 * -3) / 9) * Rabs (M_PI - PI).
Proof.
  apply (SolveCubicEquation_three_roots M_PI 0 (-3) 0 (/ 1000000)); lra.
Defined.

Lemma SolveCubic_near_largest_root_witness :
  exists largest : R,
    cubic 0 (-3) 0 largest = 0
    /\ (forall y : R, cubic 0 (-3) 0 y = 0 -> y <= largest)
    /\ Rabs (SolveCubic (MD := spec_MathDefsR) (Vector3.make 0 (-3) 0)
             - largest)
       <= 4 / 3 * sqrt ((0 * 0 - 3 * -3) / 9) * Rabs (M_PI - PI).
Proof.
  apply (SolveCubic_near_largest_root spec_MathDefsR M_PI 0 (-3) 0).
  - simpl. lra.
  - lra.
  - lra.
Defined.

(** x^3 + x - 2 = (x - 1)(x^2 + x + 2): q = -1/3, r = -1. *)
Lemma SolveCubicEquation_single_root_witness :
  exists (x0 x1 x2 : R) (numRoots : nat),
    SolveCubicEquation 0 1 (-2) (/ 1000000) = (Array3 x0 x1 x2, numRoots)
    /\ (numRoots = 1%nat \/ numRoots = 2%nat)
    /\ forall y : R, cubic 0 1 (-2) y = 0 <-> y = x0.
Proof.
  apply (SolveCubicEquation_single_root 0 1 (-2) (/ 1000000)); lra.
Defined.
End Cubic.

(* ================================================================= *)
(** * Exact arithmetic: a quadratic without real root *)

Section QuadraticEdges.
Local Open Scope R_scope.

(** X25: No real root.  In exact arithmetic, when |a| is not below the
    tolerance and the discriminant b^2 - 4ac is negative, the equation
    a*x^2 + b*x + c = 0 has no real solution and [SolveQuadratic] returns
    -b / (2a), the point where |a*x^2 + b*x + c| is smallest. *)
Theorem SolveQuadratic_without_real_root (MD : MathDefs R) (a b c : R) :
  M_EPSILON <= Rabs a ->
  b * b - 4 * a * c < 0 ->
  let x := SolveQuadratic (Vector3.make a b c) in
  x = - b / (2 * a)
  /\ (forall y : R, a * y * y + b * y + c <> 0)
  /\ (forall y : R,
        Rabs (a * x * x + b * x + c) <= Rabs (a * y * y + b * y + c)).
Proof.
  intros Hbig Hdisc x.
  assert (Ha : a <> 0) by (intros ->; nra).
  pose proof (SolveQuadratic_R MD a b c) as Hx. fold x in Hx.
  rewrite (proj2 (Rltb_false _ _) Hbig) in Hx.
  rewrite Rmax_left in Hx by lra. rewrite sqrt_0 in Hx.
  assert (Hvertex : x = - b / (2 * a)).
  { rewrite Hx. destruct (Rltb 0 a); field; exact Ha. }
  split; [exact Hvertex|].
  assert (H2 : 2 * a * x = - b) by (rewrite Hvertex; field; exact Ha).
  assert (Hsplit : forall y : R,
            a * y * y + b * y + c
            = (a * x * x + b * x + c) + a * ((y - x) * (y - x))).
  { intros y.
    replace (a * x * x + b * x + c + a * ((y - x) * (y - x)))
      with (a * y * y + (b + 2 * a * x) * (x - y) + b * y + c
            - (2 * a * x) * (x - y) * 2 + 2 * (2 * a * x) * (x - y))
      by ring.
    rewrite H2. ring. }
  assert (H4 : 4 * a * (a * x * x + b * x + c) = 4 * a * c - b * b).
  { replace (4 * a * (a * x * x + b * x + c))
      with ((2 * a * x) * (2 * a * x) + 2 * b * (2 * a * x) + 4 * a * c)
      by ring.
    rewrite H2. ring. }
  set (fx := a * x * x + b * x + c) in *.
  assert (Hsq : forall y : R, 0 <= (y - x) * (y - x))
    by (intros y; apply Rle_0_sqr).
  destruct (Rtotal_order 0 a) as [Hpos|[Hz|Hneg]]; [|congruence|].
  - assert (Hfx : 0 < fx) by nra.
    assert (Hge : forall y : R, fx <= a * y * y + b * y + c).
    { intros y. rewrite Hsplit. specialize (Hsq y). nra. }
    split.
    + intros y Hy. specialize (Hge y). lra.
    + intros y. specialize (Hge y).
      rewrite !Rabs_pos_eq by lra. exact Hge.
  - assert (Hfx : fx < 0) by nra.
    assert (Hle : forall y : R, a * y * y + b * y + c <= fx).
    { intros y. rewrite Hsplit. specialize (Hsq y). nra. }
    split.
    + intros y Hy. specialize (Hle y). lra.
    + intros y. specialize (Hle y).
      rewrite !Rabs_left by lra. lra.
Qed.

(** x^2 + 2x + 5 = (x + 1)^2 + 4. *)
Lemma SolveQuadratic_without_real_root_witness :
  let x := SolveQuadratic (MD := spec_MathDefsR) (Vector3.make 1 2 5) in
  x = - 2 / (2 * 1)
  /\ (forall y : R, 1 * y * y + 2 * y + 5 <> 0)
  /\ (forall y : R,
        Rabs (1 * x * x + 2 * x + 5) <= Rabs (1 * y * y + 2 * y + 5)).
Proof.
  apply (SolveQuadratic_without_real_root spec_MathDefsR 1 2 5).
  - simpl. rewrite Rabs_R1. lra.
  - lra.
Defined.
End QuadraticEdges.
